(** * Indexed object store over Redis: the v2 transmission store and the
      client entry points of the redis infrastructure package.

    The development has three parts.  The first embeds the code: the
    error values of the contracts module, a model of the Redis server and
    of a redigo connection, [transmission.go] function by function, and
    the [Client] methods that validate or assign identifiers.  The second
    states and proves the properties of that code.  The third runs them
    on concrete data. *)

From Stdlib Require Import ZArith String Ascii List Lia.
From Stdlib.Strings Require Import Byte.
From stdpp Require Import gmap strings list fin_maps sorting pretty.

Set Warnings "-register-all".

Local Open Scope string_scope.
Local Open Scope list_scope.
Local Open Scope Z_scope.

(** Go's [[]byte]. *)
Abbreviation bytes := (list byte).

(* ===================================================================== *)
(** * Part I. The embedding                                               *)
(* ===================================================================== *)

(** ** Error values (package [errors] of the contracts module) *)

Module Errors.

(** The error kinds.  [KindDatabaseError], [KindContractInvalid],
    [KindDuplicateName] and [KindInvalidId] are the ones the source files
    name.  [KindNotFound], [KindDecodeError] and [KindInvalidArgument] are
    the kinds of the specification's taxonomy (section 7) that the query
    helpers outside these files answer with. *)
Inductive ErrKind : Set :=
| KindUnknown
| KindDatabaseError
| KindContractInvalid
| KindDuplicateName
| KindInvalidId
| KindNotFound
| KindDecodeError
| KindInvalidArgument.

#[export] Instance ErrKind_eq_dec : EqDecision ErrKind.
Proof. solve_decision. Defined.

(** A Go [error]: either a plain library error, or a [CommonEdgeX] that
    carries a kind, a message and possibly the error it wraps. *)
Inductive error : Type :=
| errorString (msg : string)
| CommonEdgeX (kind : ErrKind) (message : string) (err : option error).

(** [errors.Kind]: the first kind met going down the chain of wrapped
    errors that is not [KindUnknown]. *)
Fixpoint Kind (e : error) : ErrKind :=
  match e with
  | errorString _ => KindUnknown
  | CommonEdgeX k _ w =>
      match k, w with
      | KindUnknown, Some w' => Kind w'
      | _, _ => k
      end
  end.

Definition NewCommonEdgeX (kind : ErrKind) (message : string)
  (wrappedError : option error) : error :=
  CommonEdgeX kind message wrappedError.

Definition NewCommonEdgeXWrapper (wrappedError : error) : error :=
  CommonEdgeX (Kind wrappedError) EmptyString (Some wrappedError).

(** A Go result pair [(value, err)] where exactly one side is meaningful. *)
Inductive result (A : Type) : Type :=
| Ok (a : A)
| Err (e : error).
Arguments Ok {A} a.
Arguments Err {A} e.

End Errors.
Export Errors.

(** ** The Redis server and the redigo connection *)

Module Redis.

(** A key holds a string (the object blob) or a sorted set (an index:
    member to score). *)
Inductive Value : Type :=
| VString (b : bytes)
| VZSet (z : gmap string Z).

Abbreviation Store := (gmap string Value).

(** The commands the package issues.  The source names them by the
    constants [MULTI], [EXEC], [SET], [DEL], [ZADD], [ZREM], ... *)
Inductive Command : Type :=
| MULTI
| EXEC
| SET (key : string) (val : bytes)
| DEL (key : string)
| ZADD (key : string) (score : Z) (member : string)
| ZREM (key : string) (member : string)
| GET (key : string)
| EXISTS (key : string)
| ZREVRANGE (key : string) (start stop : Z)
| ZRANGEBYSCORE (key : string) (min max : Z) (offset count : Z)
| MGET (keys : list string).

Inductive Reply : Type :=
| RNil
| RStatus (s : string)
| RInt (n : Z)
| RBulk (b : bytes)
| RArray (l : list Reply)
| RError (msg : string).

(** *** Sorted sets *)

(** Redis orders a sorted set by score, members of equal score by the
    bytes of the member. *)
Definition zle (a b : string * Z) : Prop :=
  a.2 < b.2 ∨ (a.2 = b.2 ∧ String.leb a.1 b.1 = true).

#[export] Instance zle_dec a b : Decision (zle a b).
Proof. unfold zle. apply _. Defined.

Definition zrange_all (z : gmap string Z) : list (string * Z) :=
  merge_sort zle (map_to_list z).

Definition zrevrange_all (z : gmap string Z) : list (string * Z) :=
  reverse (zrange_all z).

(** The rank window [start .. stop] (inclusive, negative ranks count from
    the end) of a list of [len] entries, as Redis normalises it. *)
Definition rank_window {A} (l : list A) (start stop : Z) : list A :=
  let len := Z.of_nat (length l) in
  let start := if start <? 0 then Z.max 0 (start + len) else start in
  let stop := if stop <? 0 then stop + len else stop in
  let stop := Z.min stop (len - 1) in
  if (stop <? start) || (len <=? start) then []
  else take (Z.to_nat (stop - start + 1)) (drop (Z.to_nat start) l).

(** [LIMIT offset count] of a range by score: a negative count means all
    the rest. *)
Definition limit_window {A} (l : list A) (offset count : Z) : list A :=
  if offset <? 0 then []
  else
    let rest := drop (Z.to_nat offset) l in
    if count <? 0 then rest else take (Z.to_nat count) rest.

Definition zscore (d : Store) (key member : string) : option Z :=
  match d !! key with
  | Some (VZSet z) => z !! member
  | _ => None
  end.

(** The sorted set at a key; a key that does not exist is the empty
    sorted set, a key that holds a string is none. *)
Definition zset_at (d : Store) (key : string) : option (gmap string Z) :=
  match d !! key with
  | None => Some ∅
  | Some (VZSet z) => Some z
  | Some (VString _) => None
  end.

(** The blob at a key, if the key holds a string. *)
Definition blob (d : Store) (key : string) : option bytes :=
  match d !! key with
  | Some (VString b) => Some b
  | _ => None
  end.

Definition wrongtype : Reply :=
  RError "WRONGTYPE Operation against a key holding the wrong kind of value".

(** *** One command against the data set *)

(** The server keeps the score of a member as a binary64 number and reads
    the integer that [ZADD] is sent as the nearest one.  Every integer
    from [-2^53] to [2^53] is such a number, so for these the score the
    server keeps is the integer itself; beyond them the server rounds. *)
Definition float64_exact (score : Z) : Prop :=
  -9007199254740992 ≤ score ≤ 9007199254740992.

(** [ZADD key score member].  The score kept is the integer sent, which
    is the server's for a score that is [float64_exact]: a property that
    states the value of a score the code writes carries that proviso. *)
Definition zadd (key : string) (score : Z) (member : string) (d : Store)
  : Store * Reply :=
  match d !! key with
  | None => (<[key := VZSet {[member := score]}]> d, RInt 1)
  | Some (VZSet z) =>
      (<[key := VZSet (<[member := score]> z)]> d,
       RInt (if z !! member is Some _ then 0 else 1))
  | Some (VString _) => (d, wrongtype)
  end.

(** Redis removes a sorted set when its last member goes. *)
Definition zrem (key member : string) (d : Store) : Store * Reply :=
  match d !! key with
  | None => (d, RInt 0)
  | Some (VZSet z) =>
      let z' := delete member z in
      ((if decide (z' = ∅) then delete key d else <[key := VZSet z']> d),
       RInt (if z !! member is Some _ then 1 else 0))
  | Some (VString _) => (d, wrongtype)
  end.

Definition mget1 (d : Store) (key : string) : Reply :=
  match d !! key with
  | Some (VString b) => RBulk b
  | _ => RNil
  end.

Definition execute (c : Command) (d : Store) : Store * Reply :=
  match c with
  | MULTI | EXEC => (d, RError "ERR unexpected transaction command")
  | SET key val => (<[key := VString val]> d, RStatus "OK")
  | DEL key => (delete key d, RInt (if d !! key is Some _ then 1 else 0))
  | ZADD key score member => zadd key score member d
  | ZREM key member => zrem key member d
  | GET key =>
      (d, match d !! key with
          | None => RNil
          | Some (VString b) => RBulk b
          | Some (VZSet _) => wrongtype
          end)
  | EXISTS key => (d, RInt (if d !! key is Some _ then 1 else 0))
  | ZREVRANGE key start stop =>
      (d, match d !! key with
          | None => RArray []
          | Some (VZSet z) =>
              RArray ((λ e, RBulk (String.list_byte_of_string e.1))
                        <$> rank_window (zrevrange_all z) start stop)
          | Some (VString _) => wrongtype
          end)
  | ZRANGEBYSCORE key min max offset count =>
      (d, match d !! key with
          | None => RArray []
          | Some (VZSet z) =>
              RArray ((λ e, RBulk (String.list_byte_of_string e.1))
                        <$> limit_window
                              (filter (λ e, min ≤ e.2 ∧ e.2 ≤ max) (zrange_all z))
                              offset count)
          | Some (VString _) => wrongtype
          end)
  | MGET keys =>
      (d, match keys with
          | [] => RError "ERR wrong number of arguments for 'mget' command"
          | _ => RArray (mget1 d <$> keys)
          end)
  end.

Fixpoint execute_all (q : list Command) (d : Store) : Store * list Reply :=
  match q with
  | [] => (d, [])
  | c :: q' =>
      let '(d1, r) := execute c d in
      let '(d2, rs) := execute_all q' d1 in
      (d2, r :: rs)
  end.

(** *** The server: data set and the transaction being queued *)

Record Server : Type := mkServer {
  data : Store;
  multi : option (list Command)
}.

(** Between [MULTI] and [EXEC] the server only queues; [EXEC] runs the
    queue as one unit. *)
Definition serve (c : Command) (s : Server) : Server * Reply :=
  match multi s, c with
  | None, MULTI => (mkServer (data s) (Some []), RStatus "OK")
  | None, EXEC => (s, RError "ERR EXEC without MULTI")
  | None, _ =>
      let '(d, r) := execute c (data s) in (mkServer d None, r)
  | Some q, EXEC =>
      let '(d, rs) := execute_all q (data s) in (mkServer d None, RArray rs)
  | Some q, MULTI => (s, RError "ERR MULTI calls can not be nested")
  | Some q, _ => (mkServer (data s) (Some (q ++ [c])), RStatus "QUEUED")
  end.

(** A command that the server queues inside a transaction. *)
Definition queued (c : Command) : bool :=
  match c with MULTI | EXEC => false | _ => true end.

(** A command on a sorted set. *)
Definition index_only (c : Command) : bool :=
  match c with ZADD _ _ _ | ZREM _ _ => true | _ => false end.

(** Serve the commands in order; one reply per command. *)
Fixpoint serve_all (cs : list Command) (s : Server) : Server * list Reply :=
  match cs with
  | [] => (s, [])
  | c :: cs' =>
      let '(s1, r) := serve c s in
      let '(s2, rs) := serve_all cs' s1 in
      (s2, r :: rs)
  end.

(** *** The connection (redigo's [redis.Conn])

    [pending] is the output buffer filled by [Send].  [wire] tells for
    each coming round trip whether it gets through ([true]) or the
    connection fails ([false]); past the end of the list every round trip
    gets through.  [log] is the history of the commands the server has
    received over this connection. *)
Record Conn : Type := mkConn {
  server : Server;
  pending : list Command;
  wire : list bool;
  log : list Command
}.

Definition Send (c : Command) (conn : Conn) : Conn :=
  mkConn (server conn) (pending conn ++ [c]) (wire conn) (log conn).

(** redigo reads the replies to all the commands it has flushed: the
    answer of [Do] is the last reply, its error the first error reply, if
    there is one. *)
Fixpoint first_error (rs : list Reply) : option string :=
  match rs with
  | [] => None
  | RError msg :: _ => Some msg
  | _ :: rs' => first_error rs'
  end.

Definition replies_result (rs : list Reply) : result Reply :=
  match first_error rs with
  | Some msg => Err (errorString msg)
  | None => Ok (List.last rs RNil)
  end.

(** The case of a single reply. *)
Definition reply_result (r : Reply) : result Reply :=
  match r with RError msg => Err (errorString msg) | _ => Ok r end.

(** [Do] writes the command after the buffered ones, flushes, and answers
    with the reply to its own command.  A failed round trip delivers
    nothing. *)
Definition Do (c : Command) (conn : Conn) : Conn * result Reply :=
  match wire conn with
  | false :: w =>
      (mkConn (server conn) [] w (log conn),
       Err (errorString "redigo: connection failure"))
  | w =>
      let cs := pending conn ++ [c] in
      let '(s, rs) := serve_all cs (server conn) in
      (mkConn s [] (tail w) (log conn ++ cs), replies_result rs)
  end.

(** The connection as the pool hands it out: nothing buffered, no
    transaction open. *)
Definition idle (conn : Conn) : Prop :=
  pending conn = [] ∧ multi (server conn) = None.

(** The next [n] round trips get through. *)
Fixpoint through (n : nat) (w : list bool) : bool :=
  match n, w with
  | O, _ => true
  | S _, [] => true
  | S n', b :: w' => b && through n' w'
  end.

(** The data set after a queue of commands has run. *)
Definition run (q : list Command) (d : Store) : Store := (execute_all q d).1.

Definition ErrNil : error := errorString "redigo: nil returned".

(** The test [err == redis.ErrNil]. *)
Definition is_ErrNil (e : error) : bool :=
  match e with
  | errorString msg => String.eqb msg "redigo: nil returned"
  | CommonEdgeX _ _ _ => false
  end.

(** [redis.Bool], [redis.Bytes], [redis.Strings] and [redis.ByteSlices]
    on the result of [Do]. *)
Definition Bool (r : result Reply) : result bool :=
  match r with
  | Err e => Err e
  | Ok (RInt n) => Ok (negb (n =? 0))
  | Ok RNil => Err ErrNil
  | Ok _ => Err (errorString "redigo: unexpected type for Bool")
  end.

Definition Bytes (r : result Reply) : result bytes :=
  match r with
  | Err e => Err e
  | Ok (RBulk b) => Ok b
  | Ok (RStatus s) => Ok (String.list_byte_of_string s)
  | Ok RNil => Err ErrNil
  | Ok _ => Err (errorString "redigo: unexpected type for Bytes")
  end.

Fixpoint bulk_strings (l : list Reply) : option (list string) :=
  match l with
  | [] => Some []
  | RBulk b :: l' =>
      match bulk_strings l' with
      | Some ss => Some (String.string_of_list_byte b :: ss)
      | None => None
      end
  | _ => None
  end.

Definition Strings (r : result Reply) : result (list string) :=
  match r with
  | Err e => Err e
  | Ok (RArray l) =>
      match bulk_strings l with
      | Some ss => Ok ss
      | None => Err (errorString "redigo: unexpected element type for Strings")
      end
  | Ok RNil => Err ErrNil
  | Ok _ => Err (errorString "redigo: unexpected type for Strings")
  end.

(** A nil element stays a nil slice, which has no bytes. *)
Fixpoint bulk_slices (l : list Reply) : option (list bytes) :=
  match l with
  | [] => Some []
  | RBulk b :: l' =>
      match bulk_slices l' with Some bs => Some (b :: bs) | None => None end
  | RNil :: l' =>
      match bulk_slices l' with Some bs => Some ([] :: bs) | None => None end
  | _ => None
  end.

Definition ByteSlices (r : result Reply) : result (list bytes) :=
  match r with
  | Err e => Err e
  | Ok (RArray l) =>
      match bulk_slices l with
      | Some bs => Ok bs
      | None => Err (errorString "redigo: unexpected element type for ByteSlices")
      end
  | Ok RNil => Err ErrNil
  | Ok _ => Err (errorString "redigo: unexpected type for ByteSlices")
  end.

End Redis.
Export Redis.

(** ** The transmission model and its serialization *)

Module Models.

(** [models.Transmission], with the fields [transmission.go] reads or
    writes; [Detail] stands for the remaining fields (channel, records,
    resend count), which the store copies without looking at them. *)
Record Transmission : Type := mkTransmission {
  Id : string;
  Created : Z;
  Modified : Z;
  Status : string;
  SubscriptionName : string;
  NotificationId : string;
  Detail : string
}.

#[export] Instance Transmission_eq_dec : EqDecision Transmission.
Proof. solve_decision. Defined.

(** The zero value [models.Transmission{}]. *)
Definition Transmission_zero : Transmission :=
  mkTransmission EmptyString 0 0 EmptyString EmptyString EmptyString
    EmptyString.

Definition set_Created (v : Z) (t : Transmission) : Transmission :=
  mkTransmission (Id t) v (Modified t) (Status t) (SubscriptionName t)
    (NotificationId t) (Detail t).

Definition set_Modified (v : Z) (t : Transmission) : Transmission :=
  mkTransmission (Id t) (Created t) v (Status t) (SubscriptionName t)
    (NotificationId t) (Detail t).

(** [encoding/json] on transmissions: the serialization collaborator.
    Both directions may fail. *)
Class Codec : Type := {
  Marshal : Transmission → result bytes;
  Unmarshal : bytes → result Transmission
}.

End Models.
Export Models.

(** ** Key space and query helpers of the package *)

Module Queries.

(** The separator of the key space, [DBKeySeparator]: a constant of the
    package's base file, which is not among the files embedded here.  It
    is a parameter: the development holds for every separator. *)
Class KeySpace : Type := { DBKeySeparator : string }.

(** Modelled from the spec: [objectKey(type, id) = type + SEP + id] and
    [indexKey(type, field, value) = type + SEP + field + SEP + value]
    (section 4.1); [CreateKey] joins its two arguments with the
    separator. *)
Definition CreateKey `{KeySpace} (a b : string) : string :=
  a +:+ DBKeySeparator +:+ b.

(** Modelled from the spec: [exists(key)], the existence probe of the
    Object Store (section 4.2); a failed round trip is a DatabaseError
    (section 7). *)
Definition objectIdExists (conn : Conn) (id : string)
  : Conn * (bool * option error) :=
  let '(conn, r) := Do (EXISTS id) conn in
  match Bool r with
  | Err err =>
      (conn, (false, Some (NewCommonEdgeX KindDatabaseError
                             "object Id existence check failed" (Some err))))
  | Ok b => (conn, (b, None))
  end.

(** Modelled from the spec: [get(key)] of the Object Store (section 4.2):
    fetches and decodes; NotFound if the key is absent, DecodeError if
    the stored bytes do not parse, DatabaseError on a failed round trip.
    The decoded value is written through [out]; it stays the zero value
    on failure. *)
Definition getObjectById `{Codec} (conn : Conn) (id : string)
  : Conn * (Transmission * option error) :=
  let '(conn, r) := Do (GET id) conn in
  match Bytes r with
  | Err err =>
      if is_ErrNil err then
        (conn, (Transmission_zero,
                Some (NewCommonEdgeX KindNotFound
                        ("fail to query object, because id: " +:+ id
                           +:+ " doesn't exist in the database") (Some err))))
      else
        (conn, (Transmission_zero,
                Some (NewCommonEdgeX KindDatabaseError
                        ("query object by id " +:+ id
                           +:+ " from the database failed") (Some err))))
  | Ok obj =>
      match Unmarshal obj with
      | Err err =>
          (conn, (Transmission_zero,
                  Some (NewCommonEdgeX KindDecodeError
                          "object parsing failed" (Some err))))
      | Ok out => (conn, (out, None))
      end
  end.

(** Modelled from the spec: [batchGet(keys)] of the Object Store
    (section 4.2): all keys in one round trip, input order preserved, a
    missing key yields a gap (a nil blob). *)
Definition getObjectsByIds (conn : Conn) (ids : list string)
  : Conn * (list bytes * option error) :=
  match ids with
  | [] => (conn, ([], None))
  | _ =>
      let '(conn, r) := Do (MGET ids) conn in
      match ByteSlices r with
      | Err err =>
          (conn, ([], Some (NewCommonEdgeX KindDatabaseError
                              "query objects from the database failed"
                              (Some err))))
      | Ok objects => (conn, (objects, None))
      end
  end.

(** Modelled from the spec: the paginated full scan of the Query Engine
    (section 4.4): a window of [limit] member keys starting at [offset]
    in reverse score order, then a batch fetch in that order;
    [offset < 0] or [limit < 0] is InvalidArgument, [limit = 0] is the
    empty sequence. *)
Definition getObjectsByRevRange (conn : Conn) (key : string)
  (offset limit : Z) : Conn * (list bytes * option error) :=
  if (offset <? 0) || (limit <? 0) then
    (conn, ([], Some (NewCommonEdgeX KindInvalidArgument
                        "offset and limit must not be negative" None)))
  else if limit =? 0 then (conn, ([], None))
  else
    let '(conn, r) := Do (ZREVRANGE key offset (offset + limit - 1)) conn in
    match Strings r with
    | Err err =>
        (conn, ([], Some (NewCommonEdgeX KindDatabaseError
                            "query object ids from the database failed"
                            (Some err))))
    | Ok ids => getObjectsByIds conn ids
    end.

(** Modelled from the spec: the time-range query of the Query Engine
    (section 4.4): range by score on the index, bounded by
    [[start, end]] inclusive, offset and limit applied after the range
    selection, ascending. *)
Definition getObjectsByScoreRange (conn : Conn) (key : string)
  (start end_ offset limit : Z) : Conn * (list bytes * option error) :=
  if (offset <? 0) || (limit <? 0) then
    (conn, ([], Some (NewCommonEdgeX KindInvalidArgument
                        "offset and limit must not be negative" None)))
  else if limit =? 0 then (conn, ([], None))
  else
    let '(conn, r) := Do (ZRANGEBYSCORE key start end_ offset limit) conn in
    match Strings r with
    | Err err =>
        (conn, ([], Some (NewCommonEdgeX KindDatabaseError
                            "query object ids from the database failed"
                            (Some err))))
    | Ok ids => getObjectsByIds conn ids
    end.

End Queries.
Export Queries.

(** ** [transmission.go] *)

Module TransmissionStore.

(** Modelled from the spec: the field names of the key space
    ([indexKey(type, field, value)], section 4.1), as the constants
    [v2.Status], [v2.Subscription], [v2.Name], [v2.Notification],
    [v2.Id] and [v2.Created] of the contracts module spell them. *)
Definition v2_Status : string := "status".
Definition v2_Subscription : string := "subscription".
Definition v2_Name : string := "name".
Definition v2_Notification : string := "notification".
Definition v2_Id : string := "id".
Definition v2_Created : string := "created".

Definition TransmissionCollection : string := "sn|trans".

Section WithCollaborators.
Context {keys : KeySpace} {codec : Codec}.

Definition TransmissionCollectionStatus : string :=
  TransmissionCollection +:+ DBKeySeparator +:+ v2_Status.
Definition TransmissionCollectionSubscriptionName : string :=
  TransmissionCollection +:+ DBKeySeparator +:+ v2_Subscription
    +:+ DBKeySeparator +:+ v2_Name.
Definition TransmissionCollectionNotificationId : string :=
  TransmissionCollection +:+ DBKeySeparator +:+ v2_Notification
    +:+ DBKeySeparator +:+ v2_Id.
Definition TransmissionCollectionCreated : string :=
  TransmissionCollection +:+ DBKeySeparator +:+ v2_Created.

Definition transmissionStoredKey (id : string) : string :=
  CreateKey TransmissionCollection id.

(** The keys of the three secondary indexes a transmission is listed in,
    as [sendAddTransmissionCmd] and [sendDeleteTransmissionCmd] compute
    them. *)
Definition statusKey (t : Transmission) : string :=
  CreateKey TransmissionCollectionStatus (Status t).
Definition subscriptionKey (t : Transmission) : string :=
  CreateKey TransmissionCollectionSubscriptionName (SubscriptionName t).
Definition notificationKey (t : Transmission) : string :=
  CreateKey TransmissionCollectionNotificationId (NotificationId t).

Definition transmissionById (conn : Conn) (id : string)
  : Conn * (Transmission * option error) :=
  let '(conn, (trans, edgexErr)) :=
    getObjectById conn (transmissionStoredKey id) in
  match edgexErr with
  | Some e => (conn, (trans, Some (NewCommonEdgeXWrapper e)))
  | None => (conn, (trans, None))
  end.

(** The commands [sendAddTransmissionCmd] sends, in order. *)
Definition addTransmissionCmds (storedKey : string) (m : bytes)
  (trans : Transmission) : list Command :=
  [ SET storedKey m;
    ZADD TransmissionCollection (Modified trans) storedKey;
    ZADD TransmissionCollectionCreated (Created trans) storedKey;
    ZADD (CreateKey TransmissionCollectionStatus (Status trans))
      (Modified trans) storedKey;
    ZADD (CreateKey TransmissionCollectionSubscriptionName
            (SubscriptionName trans)) (Modified trans) storedKey;
    ZADD (CreateKey TransmissionCollectionNotificationId
            (NotificationId trans)) (Modified trans) storedKey ].

Definition sendAddTransmissionCmd (conn : Conn) (storedKey : string)
  (trans : Transmission) : Conn * option error :=
  match Marshal trans with
  | Err err =>
      (conn, Some (NewCommonEdgeX KindContractInvalid
                     "unable to JSON marshal transmission for Redis persistence"
                     (Some err)))
  | Ok m =>
      let conn := Send (SET storedKey m) conn in
      let conn :=
        Send (ZADD TransmissionCollection (Modified trans) storedKey) conn in
      let conn :=
        Send (ZADD TransmissionCollectionCreated (Created trans) storedKey)
          conn in
      let conn :=
        Send (ZADD (CreateKey TransmissionCollectionStatus (Status trans))
                (Modified trans) storedKey) conn in
      let conn :=
        Send (ZADD (CreateKey TransmissionCollectionSubscriptionName
                      (SubscriptionName trans)) (Modified trans) storedKey)
          conn in
      let conn :=
        Send (ZADD (CreateKey TransmissionCollectionNotificationId
                      (NotificationId trans)) (Modified trans) storedKey)
          conn in
      (conn, None)
  end.

(** [ts] is what [common.MakeTimestamp()] answers during the call. *)
Definition addTransmission (conn : Conn) (trans : Transmission) (ts : Z)
  : Conn * (Transmission * option error) :=
  let '(conn, (exists_, edgeXerr)) :=
    objectIdExists conn (transmissionStoredKey (Id trans)) in
  match edgeXerr with
  | Some e => (conn, (trans, Some (NewCommonEdgeXWrapper e)))
  | None =>
      if exists_ then
        (conn, (trans,
                Some (NewCommonEdgeX KindDuplicateName
                        ("transmission id " +:+ Id trans
                           +:+ " already exists") None)))
      else
        let trans :=
          if Created trans =? 0 then set_Created ts trans else trans in
        let trans := set_Modified ts trans in
        let storedKey := transmissionStoredKey (Id trans) in
        let conn := Send MULTI conn in
        let '(conn, edgeXerr) := sendAddTransmissionCmd conn storedKey trans in
        match edgeXerr with
        | Some e => (conn, (trans, Some (NewCommonEdgeXWrapper e)))
        | None =>
            let '(conn, r) := Do EXEC conn in
            match r with
            | Err err =>
                (conn, (trans,
                        Some (NewCommonEdgeX KindDatabaseError
                                "transmission creation failed" (Some err))))
            | Ok _ => (conn, (trans, None))
            end
        end
  end.

(** The commands [sendDeleteTransmissionCmd] sends, in order. *)
Definition deleteTransmissionCmds (storedKey : string)
  (trans : Transmission) : list Command :=
  [ DEL storedKey;
    ZREM TransmissionCollection storedKey;
    ZREM TransmissionCollectionCreated storedKey;
    ZREM (CreateKey TransmissionCollectionStatus (Status trans)) storedKey;
    ZREM (CreateKey TransmissionCollectionSubscriptionName
            (SubscriptionName trans)) storedKey;
    ZREM (CreateKey TransmissionCollectionNotificationId
            (NotificationId trans)) storedKey ].

Definition sendDeleteTransmissionCmd (conn : Conn) (storedKey : string)
  (trans : Transmission) : Conn :=
  let conn := Send (DEL storedKey) conn in
  let conn := Send (ZREM TransmissionCollection storedKey) conn in
  let conn := Send (ZREM TransmissionCollectionCreated storedKey) conn in
  let conn :=
    Send (ZREM (CreateKey TransmissionCollectionStatus (Status trans))
            storedKey) conn in
  let conn :=
    Send (ZREM (CreateKey TransmissionCollectionSubscriptionName
                  (SubscriptionName trans)) storedKey) conn in
  let conn :=
    Send (ZREM (CreateKey TransmissionCollectionNotificationId
                  (NotificationId trans)) storedKey) conn in
  conn.

(** The commands an update queues between [MULTI] and [EXEC]: those of
    [sendDeleteTransmissionCmd] on the old record, then those of
    [sendAddTransmissionCmd] on the new one. *)
Definition updateBatch (storedKey : string) (m : bytes)
  (old new : Transmission) : list Command :=
  deleteTransmissionCmds storedKey old
    ++ addTransmissionCmds storedKey m new.

Definition updateTransmission (conn : Conn) (trans : Transmission) (ts : Z)
  : Conn * option error :=
  let '(conn, (oldTransmission, edgeXerr)) :=
    transmissionById conn (Id trans) in
  match edgeXerr with
  | Some e => (conn, Some (NewCommonEdgeXWrapper e))
  | None =>
      let trans := set_Modified ts trans in
      let storedKey := transmissionStoredKey (Id trans) in
      let conn := Send MULTI conn in
      let conn := sendDeleteTransmissionCmd conn storedKey oldTransmission in
      let '(conn, edgeXerr) := sendAddTransmissionCmd conn storedKey trans in
      match edgeXerr with
      | Some e => (conn, Some (NewCommonEdgeXWrapper e))
      | None =>
          let '(conn, r) := Do EXEC conn in
          match r with
          | Err err =>
              (conn, Some (NewCommonEdgeX KindDatabaseError
                             "transmission update failed" (Some err)))
          | Ok _ => (conn, None)
          end
      end
  end.

(** The loop [for i, o := range objects] shared by the two paginated
    queries: decode [o] and store it at index [i] of the slice made
    beforehand; the first blob that does not parse ends the query, with
    the slice as filled so far. *)
Fixpoint decodeInto (i : nat) (objects : list bytes)
  (transmissions : list Transmission) : list Transmission * option error :=
  match objects with
  | [] => (transmissions, None)
  | o :: rest =>
      match Unmarshal o with
      | Err err =>
          (transmissions,
           Some (NewCommonEdgeX KindDatabaseError
                   "transmission format parsing failed from the database"
                   (Some err)))
      | Ok trans => decodeInto (S i) rest (<[i := trans]> transmissions)
      end
  end.

Definition transmissionsByTimeRange (conn : Conn)
  (startTime endTime offset limit : Z)
  : Conn * (list Transmission * option error) :=
  let '(conn, (objects, edgeXerr)) :=
    getObjectsByScoreRange conn TransmissionCollectionCreated
      startTime endTime offset limit in
  match edgeXerr with
  | Some e => (conn, ([], Some (NewCommonEdgeXWrapper e)))
  | None =>
      let transmissions := replicate (length objects) Transmission_zero in
      (conn, decodeInto 0 objects transmissions)
  end.

Definition allTransmissions (conn : Conn) (offset limit : Z)
  : Conn * (list Transmission * option error) :=
  let '(conn, (objects, edgeXerr)) :=
    getObjectsByRevRange conn TransmissionCollection offset limit in
  match edgeXerr with
  | Some e => (conn, ([], Some (NewCommonEdgeXWrapper e)))
  | None =>
      let transmissions := replicate (length objects) Transmission_zero in
      (conn, decodeInto 0 objects transmissions)
  end.

End WithCollaborators.

End TransmissionStore.
Export TransmissionStore.

(** ** The client entry points that validate or assign identifiers *)

Module ClientAPI.

(** The entities of [model]: the entry points below read and write only
    the identifier; [Body] stands for all the other fields. *)
Record Event : Type := mkEvent { EventId : string; EventBody : string }.
Record DeviceProfile : Type :=
  mkDeviceProfile { DeviceProfileId : string; DeviceProfileBody : string }.
Record DeviceService : Type :=
  mkDeviceService { DeviceServiceId : string; DeviceServiceBody : string }.
Record Device : Type := mkDevice { DeviceId : string; DeviceBody : string }.

(** The zero values [model.Event{}] and [model.DeviceProfile{}]. *)
Definition Event_zero : Event := mkEvent EmptyString EmptyString.
Definition DeviceProfile_zero : DeviceProfile :=
  mkDeviceProfile EmptyString EmptyString.

(** Package [uuid]: [uuid_Parse s] is the error of [uuid.Parse(s)], if
    any; [uuid_New n] is the text of the identifier that the [n]-th call
    of [uuid.New()] draws. *)
Class Uuid : Type := {
  uuid_Parse : string → option error;
  uuid_New : nat → string
}.

(** The persistence functions of the package that the entry points
    delegate to; they are the only code here that is handed the
    connection. *)
Class Persistence : Type := {
  addEvent : Conn → Event → Conn * (Event * option error);
  addDeviceProfile :
    Conn → DeviceProfile → Conn * (DeviceProfile * option error);
  addDeviceService :
    Conn → DeviceService → Conn * (DeviceService * option error);
  addDevice : Conn → Device → Conn * (Device * option error)
}.

(** The client: the connection its pool hands out ([c.Pool.Get()], given
    back by the deferred [conn.Close()]), and the number of identifiers
    drawn from [uuid.New()] so far. *)
Record Client : Type := mkClient {
  Pool : Conn;
  draws : nat
}.

Section WithCollaborators.
Context {uuid : Uuid} {persistence : Persistence}.

Definition AddEvent (c : Client) (e : Event)
  : Client * (Event * option error) :=
  let conn := Pool c in
  if negb (String.eqb (EventId e) EmptyString) then
    match uuid_Parse (EventId e) with
    | Some err =>
        (c, (Event_zero,
             Some (NewCommonEdgeX KindInvalidId "uuid parsing failed"
                     (Some err))))
    | None =>
        let '(conn, r) := addEvent conn e in (mkClient conn (draws c), r)
    end
  else
    let '(conn, r) := addEvent conn e in (mkClient conn (draws c), r).

Definition AddDeviceProfile (c : Client) (dp : DeviceProfile)
  : Client * (DeviceProfile * option error) :=
  let conn := Pool c in
  if negb (String.eqb (DeviceProfileId dp) EmptyString) then
    match uuid_Parse (DeviceProfileId dp) with
    | Some err =>
        (c, (DeviceProfile_zero,
             Some (NewCommonEdgeX KindInvalidId "ID failed UUID parsing"
                     (Some err))))
    | None =>
        let '(conn, r) := addDeviceProfile conn dp in
        (mkClient conn (draws c), r)
    end
  else
    let dp := mkDeviceProfile (uuid_New (draws c)) (DeviceProfileBody dp) in
    let '(conn, r) := addDeviceProfile conn dp in
    (mkClient conn (S (draws c)), r).

Definition AddDeviceService (c : Client) (ds : DeviceService)
  : Client * (DeviceService * option error) :=
  let conn := Pool c in
  if (String.length (DeviceServiceId ds) =? 0)%nat then
    let ds := mkDeviceService (uuid_New (draws c)) (DeviceServiceBody ds) in
    let '(conn, r) := addDeviceService conn ds in
    (mkClient conn (S (draws c)), r)
  else
    let '(conn, r) := addDeviceService conn ds in
    (mkClient conn (draws c), r).

Definition AddDevice (c : Client) (d : Device)
  : Client * (Device * option error) :=
  let conn := Pool c in
  if (String.length (DeviceId d) =? 0)%nat then
    let d := mkDevice (uuid_New (draws c)) (DeviceBody d) in
    let '(conn, r) := addDevice conn d in
    (mkClient conn (S (draws c)), r)
  else
    let '(conn, r) := addDevice conn d in
    (mkClient conn (draws c), r).

(** A call of one of the [Add] entry points, and the client after it and
    after a sequence of them. *)
Inductive AddCall : Type :=
| CallAddEvent (e : Event)
| CallAddDeviceProfile (dp : DeviceProfile)
| CallAddDeviceService (ds : DeviceService)
| CallAddDevice (d : Device).

Definition perform (c : Client) (a : AddCall) : Client :=
  match a with
  | CallAddEvent e => (AddEvent c e).1
  | CallAddDeviceProfile dp => (AddDeviceProfile c dp).1
  | CallAddDeviceService ds => (AddDeviceService c ds).1
  | CallAddDevice d => (AddDevice c d).1
  end.

Definition after (c : Client) (calls : list AddCall) : Client :=
  foldl perform c calls.

End WithCollaborators.

End ClientAPI.
Export ClientAPI.

(** ** Concrete collaborators and data, for the examples *)

Module Samples.

(** A codec over a fixed table of transmissions: the blob of a
    transmission is the one byte of its position in the table; anything
    else does not parse. *)
Fixpoint position (t : Transmission) (table : list Transmission) (i : nat)
  : option nat :=
  match table with
  | [] => None
  | t' :: rest =>
      if decide (t = t') then Some i else position t rest (S i)
  end.

Definition table_Marshal (table : list Transmission) (t : Transmission)
  : result bytes :=
  match position t table 0 with
  | Some i =>
      match Byte.of_nat i with
      | Some b => Ok [b]
      | None => Err (errorString "json: unsupported value")
      end
  | None => Err (errorString "json: unsupported value")
  end.

Definition table_Unmarshal (table : list Transmission) (b : bytes)
  : result Transmission :=
  match b with
  | [] => Err (errorString "unexpected end of JSON input")
  | [x] =>
      match table !! Byte.to_nat x with
      | Some t => Ok t
      | None => Err (errorString "invalid character")
      end
  | _ => Err (errorString "invalid character")
  end.

Definition tableCodec (table : list Transmission) : Codec :=
  {| Marshal := table_Marshal table; Unmarshal := table_Unmarshal table |}.

(** A transmission as a caller hands it to [addTransmission], the record
    that is stored at time 1000, the caller's update of it (new status,
    creation time left at 0), and the record stored by that update at
    time 2000. *)
Definition t_new : Transmission :=
  mkTransmission "t1" 0 7 "NEW" "sub-a" "n-1" "detail".
Definition t_stored : Transmission :=
  mkTransmission "t1" 1000 1000 "NEW" "sub-a" "n-1" "detail".
Definition t_change : Transmission :=
  mkTransmission "t1" 0 7 "SENT" "sub-b" "n-2" "detail".
Definition t_updated : Transmission :=
  mkTransmission "t1" 0 2000 "SENT" "sub-b" "n-2" "detail".
Definition t_other : Transmission :=
  mkTransmission "t2" 500 1500 "NEW" "sub-a" "n-1" "detail".

Definition sampleCodec : Codec :=
  tableCodec [t_stored; t_updated; t_other].

(** The separator of the examples. *)
Definition colon : KeySpace := {| DBKeySeparator := ":" |}.

#[local] Existing Instance colon.
#[local] Existing Instance sampleCodec.

Definition emptyConn : Conn := mkConn (mkServer ∅ None) [] [] [].

(** The connection after [t_new] was added at time 1000. *)
Definition conn_one : Conn :=
  (addTransmission emptyConn t_new 1000).1.

(** A data set whose primary index lists two keys, the blob of the newer
    one being malformed. *)
Definition corrupt_data : Store :=
  <[ "sn|trans:t1" := VString [x00] ]>
  (<[ "sn|trans:t2" := VString [xff; xff] ]>
  (<[ "sn|trans" := VZSet (<[ "sn|trans:t1" := 1000 ]>
                           {[ "sn|trans:t2" := 1500 ]}) ]>
  (<[ "sn|trans:created" := VZSet (<[ "sn|trans:t1" := 1000 ]>
                                   {[ "sn|trans:t2" := 500 ]}) ]> ∅))).

Definition conn_corrupt : Conn := mkConn (mkServer corrupt_data None) [] [] [].

(** A data set with two well-formed transmissions. *)
Definition two_data : Store :=
  <[ "sn|trans:t1" := VString [x00] ]>
  (<[ "sn|trans:t2" := VString [x02] ]>
  (<[ "sn|trans" := VZSet (<[ "sn|trans:t1" := 1000 ]>
                           {[ "sn|trans:t2" := 1500 ]}) ]> ∅)).

Definition conn_two : Conn := mkConn (mkServer two_data None) [] [] [].

(** An identifier parser that accepts the 36-character hyphenated
    hexadecimal form. *)
Definition is_hex (c : ascii) : bool :=
  let n := nat_of_ascii c in
  ((48 <=? n) && (n <=? 57) || (97 <=? n) && (n <=? 102)
   || (65 <=? n) && (n <=? 70))%nat.

Fixpoint hyphenated (i : nat) (s : string) : bool :=
  match s with
  | EmptyString => (i =? 36)%nat
  | String c s' =>
      (if ((i =? 8) || (i =? 13) || (i =? 18) || (i =? 23))%nat
       then Ascii.eqb c "-" else is_hex c)
      && hyphenated (S i) s'
  end.

Definition sample_Parse (s : string) : option error :=
  if hyphenated 0 s then None else Some (errorString "invalid UUID format").

(** A generator that never repeats: the [n]-th identifier is the decimal
    numeral of [n] after a fixed prefix. *)
Definition sample_New (n : nat) : string := "id-" +:+ pretty n.

Definition sampleUuid : Uuid :=
  {| uuid_Parse := sample_Parse; uuid_New := sample_New |}.

(** Persistence functions that write the body under the identifier. *)
Definition put (prefix id body : string) (conn : Conn) : Conn :=
  (Do (SET (prefix +:+ id) (String.list_byte_of_string body)) conn).1.

Definition samplePersistence : Persistence :=
  {| addEvent := λ conn e,
       (put "cd|evt:" (EventId e) (EventBody e) conn, (e, None));
     addDeviceProfile := λ conn dp,
       (put "md|dp:" (DeviceProfileId dp) (DeviceProfileBody dp) conn,
        (dp, None));
     addDeviceService := λ conn ds,
       (put "md|ds:" (DeviceServiceId ds) (DeviceServiceBody ds) conn,
        (ds, None));
     addDevice := λ conn d,
       (put "md|dv:" (DeviceId d) (DeviceBody d) conn, (d, None)) |}.

Definition sampleClient : Client := mkClient emptyConn 0.

End Samples.


(** ** The footprint of a command *)

Module Footprint.

(** The command neither writes the key [k] nor adds or removes the member
    [m] of a sorted set at [k]. *)
Definition untouched (k m : string) (c : Command) : Prop :=
  match c with
  | SET k' _ | DEL k' => k' ≠ k
  | ZADD k' _ m' | ZREM k' m' => ¬ (k' = k ∧ m' = m)
  | _ => True
  end.

(** The command does not write the key [k] at all. *)
Definition key_untouched (k : string) (c : Command) : Prop :=
  match c with
  | SET k' _ | DEL k' | ZADD k' _ _ | ZREM k' _ => k' ≠ k
  | _ => True
  end.

(** The error of a round trip that does not get through. *)
Definition connection_failure : error :=
  errorString "redigo: connection failure".

End Footprint.
Export Footprint.

(** ** The ways a write can end *)

Module Outcomes.

Section WithCollaborators.
Context {keys : KeySpace} {codec : Codec}.
Implicit Types (d : Store) (trans old : Transmission).

(** The record with the store's timestamps. *)
Definition stamp (ts : Z) (trans : Transmission) : Transmission :=
  set_Modified ts
    (if Created trans =? 0 then set_Created ts trans else trans).

(** The five index keys of a record do not hold a string and are not the
    stored key. *)
Definition index_keys_free d (storedKey : string) (t : Transmission) : Prop :=
  Forall (λ k, k ≠ storedKey ∧ blob d k = None)
    [TransmissionCollection; TransmissionCollectionCreated; statusKey t;
     subscriptionKey t; notificationKey t].

(** The five ways [addTransmission] ends on an idle connection. *)
Inductive AddOutcome d w lg trans ts
  : Conn * (Transmission * option error) → Prop :=
| AddProbeFailed w' e :
    w = false :: w' →
    Kind e = KindDatabaseError →
    AddOutcome d w lg trans ts
      (mkConn (mkServer d None) [] w' lg, (trans, Some e))
| AddDuplicate e :
    is_Some (d !! transmissionStoredKey (Id trans)) →
    Kind e = KindDuplicateName →
    AddOutcome d w lg trans ts
      (mkConn (mkServer d None) [] (tail w)
         (lg ++ [EXISTS (transmissionStoredKey (Id trans))]),
       (trans, Some e))
| AddNotEncodable err e :
    d !! transmissionStoredKey (Id trans) = None →
    Marshal (stamp ts trans) = Err err →
    Kind e = KindContractInvalid →
    AddOutcome d w lg trans ts
      (mkConn (mkServer d None) [MULTI] (tail w)
         (lg ++ [EXISTS (transmissionStoredKey (Id trans))]),
       (stamp ts trans, Some e))
| AddCommitFailed m w' e :
    d !! transmissionStoredKey (Id trans) = None →
    Marshal (stamp ts trans) = Ok m →
    tail w = false :: w' →
    Kind e = KindDatabaseError →
    AddOutcome d w lg trans ts
      (mkConn (mkServer d None) [] w'
         (lg ++ [EXISTS (transmissionStoredKey (Id trans))]),
       (stamp ts trans, Some e))
| AddCommitted m :
    d !! transmissionStoredKey (Id trans) = None →
    Marshal (stamp ts trans) = Ok m →
    AddOutcome d w lg trans ts
      (mkConn
         (mkServer
            (run (addTransmissionCmds (transmissionStoredKey (Id trans)) m
                    (stamp ts trans)) d) None)
         [] (tail (tail w))
         (lg ++ [EXISTS (transmissionStoredKey (Id trans))]
             ++ MULTI :: addTransmissionCmds
                           (transmissionStoredKey (Id trans)) m
                           (stamp ts trans) ++ [EXEC]),
       (stamp ts trans, None)).

(** The seven ways [updateTransmission] ends on an idle connection. *)
Inductive UpdateOutcome d w lg trans ts : Conn * option error → Prop :=
| UpdateFetchFailed w' e :
    w = false :: w' →
    Kind e = KindDatabaseError →
    UpdateOutcome d w lg trans ts
      (mkConn (mkServer d None) [] w' lg, Some e)
| UpdateNotFound e :
    d !! transmissionStoredKey (Id trans) = None →
    Kind e = KindNotFound →
    UpdateOutcome d w lg trans ts
      (mkConn (mkServer d None) [] (tail w)
         (lg ++ [GET (transmissionStoredKey (Id trans))]), Some e)
| UpdateWrongType z e :
    d !! transmissionStoredKey (Id trans) = Some (VZSet z) →
    Kind e = KindDatabaseError →
    UpdateOutcome d w lg trans ts
      (mkConn (mkServer d None) [] (tail w)
         (lg ++ [GET (transmissionStoredKey (Id trans))]), Some e)
| UpdateNotDecodable b err e :
    d !! transmissionStoredKey (Id trans) = Some (VString b) →
    Unmarshal b = Err err →
    Kind e = KindDecodeError →
    UpdateOutcome d w lg trans ts
      (mkConn (mkServer d None) [] (tail w)
         (lg ++ [GET (transmissionStoredKey (Id trans))]), Some e)
| UpdateNotEncodable b old err e :
    d !! transmissionStoredKey (Id trans) = Some (VString b) →
    Unmarshal b = Ok old →
    Marshal (set_Modified ts trans) = Err err →
    Kind e = KindContractInvalid →
    UpdateOutcome d w lg trans ts
      (mkConn (mkServer d None)
         (MULTI :: deleteTransmissionCmds
                     (transmissionStoredKey (Id trans)) old)
         (tail w)
         (lg ++ [GET (transmissionStoredKey (Id trans))]), Some e)
| UpdateCommitFailed b old m w' e :
    d !! transmissionStoredKey (Id trans) = Some (VString b) →
    Unmarshal b = Ok old →
    Marshal (set_Modified ts trans) = Ok m →
    tail w = false :: w' →
    Kind e = KindDatabaseError →
    UpdateOutcome d w lg trans ts
      (mkConn (mkServer d None) [] w'
         (lg ++ [GET (transmissionStoredKey (Id trans))]), Some e)
| UpdateCommitted b old m :
    d !! transmissionStoredKey (Id trans) = Some (VString b) →
    Unmarshal b = Ok old →
    Marshal (set_Modified ts trans) = Ok m →
    UpdateOutcome d w lg trans ts
      (mkConn
         (mkServer
            (run (updateBatch (transmissionStoredKey (Id trans)) m old
                    (set_Modified ts trans)) d) None)
         [] (tail (tail w))
         (lg ++ [GET (transmissionStoredKey (Id trans))]
             ++ MULTI :: updateBatch (transmissionStoredKey (Id trans)) m
                           old (set_Modified ts trans) ++ [EXEC]),
       None).

End WithCollaborators.

End Outcomes.
Export Outcomes.

(** ** The other client entry points *)

Module ClientFacade.

(** The persistence and query functions of the package that the other
    entry points delegate to, with the constants they are called with
    ([ZCARD] and the collection names); none of them is among the files
    embedded here, so they are parameters.  Counts are [uint32]. *)
Class Backend : Type := {
  ZCARD : string;
  EventsCollection : string;
  EventsCollectionDeviceName : string;
  ReadingsCollection : string;
  eventById : Conn → string → Conn * (Event * option error);
  deleteEventById : Conn → string → Conn * option error;
  updateDeviceProfile : Conn → DeviceProfile → Conn * option error;
  deviceProfileNameExists : Conn → string → Conn * (bool * option error);
  deviceServiceByName :
    Conn → string → Conn * (DeviceService * option error);
  deviceServiceById : Conn → string → Conn * (DeviceService * option error);
  deleteDeviceServiceById : Conn → string → Conn * option error;
  deleteDeviceServiceByName : Conn → string → Conn * option error;
  deviceServiceNameExist : Conn → string → Conn * (bool * option error);
  deviceProfileByName :
    Conn → string → Conn * (DeviceProfile * option error);
  deleteDeviceProfileById : Conn → string → Conn * option error;
  deleteDeviceProfileByName : Conn → string → Conn * option error;
  deviceProfilesByLabels :
    Conn → Z → Z → list string → Conn * (list DeviceProfile * option error);
  deviceProfilesByModel :
    Conn → Z → Z → string → Conn * (list DeviceProfile * option error);
  deviceProfilesByManufacturer :
    Conn → Z → Z → string → Conn * (list DeviceProfile * option error);
  getMemberNumber : Conn → string → string → Conn * (N * option error);
  deviceServicesByLabels :
    Conn → Z → Z → list string → Conn * (list DeviceService * option error);
  updateEventPushedById : Conn → string → Conn * option error;
  deleteDeviceById : Conn → string → Conn * option error;
  deleteDeviceByName : Conn → string → Conn * option error;
  devicesByServiceName :
    Conn → Z → Z → string → Conn * (list Device * option error);
  deviceIdExists : Conn → string → Conn * (bool * option error);
  deviceNameExists : Conn → string → Conn * (bool * option error);
  deviceById : Conn → string → Conn * (Device * option error);
  deviceByName : Conn → string → Conn * (Device * option error);
  allEvents : Conn → Z → Z → Conn * (list Event * option error);
  devicesByLabels :
    Conn → Z → Z → list string → Conn * (list Device * option error);
  eventsByDeviceName :
    Conn → Z → Z → string → Conn * (list Event * option error);
  eventsByTimeRange :
    Conn → Z → Z → Z → Z → Conn * (list Event * option error)
}.

(** [%d] and [%v] of an [int]. *)
Definition fmt_d (n : Z) : string := pretty n.

Section WithCollaborators.
Context {keys : KeySpace} {backend : Backend}.

Definition EventById (c : Client) (id : string)
  : Client * (Event * option error) :=
  let '(conn, (event, edgeXerr)) := eventById (Pool c) id in
  match edgeXerr with
  | Some e =>
      (mkClient conn (draws c), (event, Some (NewCommonEdgeXWrapper e)))
  | None => (mkClient conn (draws c), (event, None))
  end.

Definition DeleteEventById (c : Client) (id : string)
  : Client * option error :=
  let '(conn, edgeXerr) := deleteEventById (Pool c) id in
  match edgeXerr with
  | Some e => (mkClient conn (draws c), Some (NewCommonEdgeXWrapper e))
  | None => (mkClient conn (draws c), None)
  end.

Definition UpdateDeviceProfile (c : Client) (dp : DeviceProfile)
  : Client * option error :=
  let '(conn, r) := updateDeviceProfile (Pool c) dp in
  (mkClient conn (draws c), r).

Definition DeviceProfileNameExists (c : Client) (name : string)
  : Client * (bool * option error) :=
  let '(conn, r) := deviceProfileNameExists (Pool c) name in
  (mkClient conn (draws c), r).

Definition DeviceServiceByName (c : Client) (name : string)
  : Client * (DeviceService * option error) :=
  let '(conn, (deviceService, edgeXerr)) :=
    deviceServiceByName (Pool c) name in
  match edgeXerr with
  | Some e =>
      (mkClient conn (draws c),
       (deviceService, Some (NewCommonEdgeXWrapper e)))
  | None => (mkClient conn (draws c), (deviceService, None))
  end.

Definition DeviceServiceById (c : Client) (id : string)
  : Client * (DeviceService * option error) :=
  let '(conn, (deviceService, edgeXerr)) := deviceServiceById (Pool c) id in
  match edgeXerr with
  | Some e =>
      (mkClient conn (draws c),
       (deviceService, Some (NewCommonEdgeXWrapper e)))
  | None => (mkClient conn (draws c), (deviceService, None))
  end.

Definition DeleteDeviceServiceById (c : Client) (id : string)
  : Client * option error :=
  let '(conn, edgeXerr) := deleteDeviceServiceById (Pool c) id in
  match edgeXerr with
  | Some e =>
      (mkClient conn (draws c),
       Some (NewCommonEdgeX (Kind e)
               ("fail to delete the device service with id " +:+ id)
               (Some e)))
  | None => (mkClient conn (draws c), None)
  end.

Definition DeleteDeviceServiceByName (c : Client) (name : string)
  : Client * option error :=
  let '(conn, edgeXerr) := deleteDeviceServiceByName (Pool c) name in
  match edgeXerr with
  | Some e =>
      (mkClient conn (draws c),
       Some (NewCommonEdgeX (Kind e)
               ("fail to delete the device service with name " +:+ name)
               (Some e)))
  | None => (mkClient conn (draws c), None)
  end.

Definition DeviceServiceNameExists (c : Client) (name : string)
  : Client * (bool * option error) :=
  let '(conn, r) := deviceServiceNameExist (Pool c) name in
  (mkClient conn (draws c), r).

Definition DeviceProfileByName (c : Client) (name : string)
  : Client * (DeviceProfile * option error) :=
  let '(conn, (deviceProfile, edgeXerr)) :=
    deviceProfileByName (Pool c) name in
  match edgeXerr with
  | Some e =>
      (mkClient conn (draws c),
       (deviceProfile, Some (NewCommonEdgeXWrapper e)))
  | None => (mkClient conn (draws c), (deviceProfile, None))
  end.

Definition DeleteDeviceProfileById (c : Client) (id : string)
  : Client * option error :=
  let '(conn, edgeXerr) := deleteDeviceProfileById (Pool c) id in
  match edgeXerr with
  | Some e =>
      (mkClient conn (draws c),
       Some (NewCommonEdgeX (Kind e)
               ("fail to delete the device profile with id " +:+ id)
               (Some e)))
  | None => (mkClient conn (draws c), None)
  end.

Definition DeleteDeviceProfileByName (c : Client) (name : string)
  : Client * option error :=
  let '(conn, edgeXerr) := deleteDeviceProfileByName (Pool c) name in
  match edgeXerr with
  | Some e =>
      (mkClient conn (draws c),
       Some (NewCommonEdgeX (Kind e)
               ("fail to delete the device profile with name " +:+ name)
               (Some e)))
  | None => (mkClient conn (draws c), None)
  end.

Definition AllDeviceProfiles (c : Client) (offset limit : Z)
  (labels : list string) : Client * (list DeviceProfile * option error) :=
  let '(conn, (deviceProfiles, edgeXerr)) :=
    deviceProfilesByLabels (Pool c) offset limit labels in
  match edgeXerr with
  | Some e =>
      (mkClient conn (draws c),
       (deviceProfiles, Some (NewCommonEdgeXWrapper e)))
  | None => (mkClient conn (draws c), (deviceProfiles, None))
  end.

Definition DeviceProfilesByModel (c : Client) (offset limit : Z)
  (model : string) : Client * (list DeviceProfile * option error) :=
  let '(conn, (deviceProfiles, edgeXerr)) :=
    deviceProfilesByModel (Pool c) offset limit model in
  match edgeXerr with
  | Some e =>
      (mkClient conn (draws c),
       (deviceProfiles, Some (NewCommonEdgeXWrapper e)))
  | None => (mkClient conn (draws c), (deviceProfiles, None))
  end.

Definition DeviceProfilesByManufacturer (c : Client) (offset limit : Z)
  (manufacturer : string) : Client * (list DeviceProfile * option error) :=
  let '(conn, (deviceProfiles, edgeXerr)) :=
    deviceProfilesByManufacturer (Pool c) offset limit manufacturer in
  match edgeXerr with
  | Some e =>
      (mkClient conn (draws c),
       (deviceProfiles, Some (NewCommonEdgeXWrapper e)))
  | None => (mkClient conn (draws c), (deviceProfiles, None))
  end.

Definition EventTotalCount (c : Client) : Client * (N * option error) :=
  let '(conn, (count, edgeXerr)) :=
    getMemberNumber (Pool c) ZCARD EventsCollection in
  match edgeXerr with
  | Some e =>
      (mkClient conn (draws c), (0%N, Some (NewCommonEdgeXWrapper e)))
  | None => (mkClient conn (draws c), (count, None))
  end.

Definition EventCountByDevice (c : Client) (deviceName : string)
  : Client * (N * option error) :=
  let '(conn, (count, edgeXerr)) :=
    getMemberNumber (Pool c) ZCARD
      (CreateKey EventsCollectionDeviceName deviceName) in
  match edgeXerr with
  | Some e =>
      (mkClient conn (draws c), (0%N, Some (NewCommonEdgeXWrapper e)))
  | None => (mkClient conn (draws c), (count, None))
  end.

Definition AllDeviceServices (c : Client) (offset limit : Z)
  (labels : list string) : Client * (list DeviceService * option error) :=
  let '(conn, (deviceServices, edgeXerr)) :=
    deviceServicesByLabels (Pool c) offset limit labels in
  match edgeXerr with
  | Some e =>
      (mkClient conn (draws c),
       (deviceServices, Some (NewCommonEdgeXWrapper e)))
  | None => (mkClient conn (draws c), (deviceServices, None))
  end.

Definition UpdateEventPushedById (c : Client) (id : string)
  : Client * option error :=
  let '(conn, r) := updateEventPushedById (Pool c) id in
  (mkClient conn (draws c), r).

Definition DeleteDeviceById (c : Client) (id : string)
  : Client * option error :=
  let '(conn, edgeXerr) := deleteDeviceById (Pool c) id in
  match edgeXerr with
  | Some e =>
      (mkClient conn (draws c),
       Some (NewCommonEdgeX (Kind e)
               ("fail to delete the device with id " +:+ id) (Some e)))
  | None => (mkClient conn (draws c), None)
  end.

Definition DeleteDeviceByName (c : Client) (name : string)
  : Client * option error :=
  let '(conn, edgeXerr) := deleteDeviceByName (Pool c) name in
  match edgeXerr with
  | Some e =>
      (mkClient conn (draws c),
       Some (NewCommonEdgeX (Kind e)
               ("fail to delete the device with name " +:+ name) (Some e)))
  | None => (mkClient conn (draws c), None)
  end.

Definition DevicesByServiceName (c : Client) (offset limit : Z)
  (name : string) : Client * (list Device * option error) :=
  let '(conn, (devices, edgeXerr)) :=
    devicesByServiceName (Pool c) offset limit name in
  match edgeXerr with
  | Some e =>
      (mkClient conn (draws c),
       (devices,
        Some (NewCommonEdgeX (Kind e)
                ("fail to query devices by offset " +:+ fmt_d offset
                   +:+ ", limit " +:+ fmt_d limit +:+ " and name " +:+ name)
                (Some e))))
  | None => (mkClient conn (draws c), (devices, None))
  end.

Definition DeviceIdExists (c : Client) (id : string)
  : Client * (bool * option error) :=
  let '(conn, (exists_, err)) := deviceIdExists (Pool c) id in
  match err with
  | Some e =>
      (mkClient conn (draws c),
       (exists_,
        Some (NewCommonEdgeX (Kind e)
                ("fail to check the device existence by id " +:+ id)
                (Some e))))
  | None => (mkClient conn (draws c), (exists_, None))
  end.

Definition DeviceNameExists (c : Client) (name : string)
  : Client * (bool * option error) :=
  let '(conn, (exists_, err)) := deviceNameExists (Pool c) name in
  match err with
  | Some e =>
      (mkClient conn (draws c),
       (exists_,
        Some (NewCommonEdgeX (Kind e)
                ("fail to check the device existence by name " +:+ name)
                (Some e))))
  | None => (mkClient conn (draws c), (exists_, None))
  end.

Definition DeviceById (c : Client) (id : string)
  : Client * (Device * option error) :=
  let '(conn, (device, edgeXerr)) := deviceById (Pool c) id in
  match edgeXerr with
  | Some e =>
      (mkClient conn (draws c),
       (device,
        Some (NewCommonEdgeX (Kind e)
                ("fail to query device by id " +:+ id) (Some e))))
  | None => (mkClient conn (draws c), (device, None))
  end.

Definition DeviceByName (c : Client) (name : string)
  : Client * (Device * option error) :=
  let '(conn, (device, edgeXerr)) := deviceByName (Pool c) name in
  match edgeXerr with
  | Some e =>
      (mkClient conn (draws c),
       (device,
        Some (NewCommonEdgeX (Kind e)
                ("fail to query device by name " +:+ name) (Some e))))
  | None => (mkClient conn (draws c), (device, None))
  end.

Definition AllEvents (c : Client) (offset limit : Z)
  : Client * (list Event * option error) :=
  let '(conn, (events, edgeXerr)) := allEvents (Pool c) offset limit in
  match edgeXerr with
  | Some e =>
      (mkClient conn (draws c),
       (events,
        Some (NewCommonEdgeX (Kind e)
                ("fail to query events by offset " +:+ fmt_d offset
                   +:+ " and limit " +:+ fmt_d limit) (Some e))))
  | None => (mkClient conn (draws c), (events, None))
  end.

Definition AllDevices (c : Client) (offset limit : Z)
  (labels : list string) : Client * (list Device * option error) :=
  let '(conn, (devices, edgeXerr)) :=
    devicesByLabels (Pool c) offset limit labels in
  match edgeXerr with
  | Some e =>
      (mkClient conn (draws c), (devices, Some (NewCommonEdgeXWrapper e)))
  | None => (mkClient conn (draws c), (devices, None))
  end.

Definition EventsByDeviceName (c : Client) (offset limit : Z)
  (name : string) : Client * (list Event * option error) :=
  let '(conn, (events, edgeXerr)) :=
    eventsByDeviceName (Pool c) offset limit name in
  match edgeXerr with
  | Some e =>
      (mkClient conn (draws c),
       (events,
        Some (NewCommonEdgeX (Kind e)
                ("fail to query events by offset " +:+ fmt_d offset
                   +:+ ", limit " +:+ fmt_d limit +:+ " and name " +:+ name)
                (Some e))))
  | None => (mkClient conn (draws c), (events, None))
  end.

Definition EventsByTimeRange (c : Client) (start end_ offset limit : Z)
  : Client * (list Event * option error) :=
  let '(conn, (events, edgeXerr)) :=
    eventsByTimeRange (Pool c) start end_ offset limit in
  match edgeXerr with
  | Some e =>
      (mkClient conn (draws c),
       (events,
        Some (NewCommonEdgeX (Kind e)
                ("fail to query events by time range " +:+ fmt_d start
                   +:+ " ~ " +:+ fmt_d end_ +:+ ", offset "
                   +:+ fmt_d offset +:+ ", and limit " +:+ fmt_d limit)
                (Some e))))
  | None => (mkClient conn (draws c), (events, None))
  end.

Definition ReadingTotalCount (c : Client) : Client * (N * option error) :=
  let '(conn, (count, edgeXerr)) :=
    getMemberNumber (Pool c) ZCARD ReadingsCollection in
  match edgeXerr with
  | Some e =>
      (mkClient conn (draws c), (0%N, Some (NewCommonEdgeXWrapper e)))
  | None => (mkClient conn (draws c), (count, None))
  end.

(** An entry point relays a function of the package: the connection
    comes back as that function left it, the value is that function's,
    and there is an error exactly when that function gave one, of the
    same kind. *)
Definition relays {A} (c : Client) (upper : Client * (A * option error))
  (lower : Conn * (A * option error)) : Prop :=
  upper.1 = mkClient lower.1 (draws c)
  ∧ upper.2.1 = lower.2.1
  ∧ match lower.2.2 with
    | None => upper.2.2 = None
    | Some e => ∃ e', upper.2.2 = Some e' ∧ Kind e' = Kind e
    end.

Definition relays_error (c : Client) (upper : Client * option error)
  (lower : Conn * option error) : Prop :=
  upper.1 = mkClient lower.1 (draws c)
  ∧ match lower.2 with
    | None => upper.2 = None
    | Some e => ∃ e', upper.2 = Some e' ∧ Kind e' = Kind e
    end.

(** A count is relayed on success; with an error the count is 0. *)
Definition relays_count (c : Client) (upper : Client * (N * option error))
  (lower : Conn * (N * option error)) : Prop :=
  upper.1 = mkClient lower.1 (draws c)
  ∧ match lower.2.2 with
    | None => upper.2 = (lower.2.1, None)
    | Some e => ∃ e', upper.2 = (0%N, Some e') ∧ Kind e' = Kind e
    end.

End WithCollaborators.

(** The [Add] calls that make the client draw an identifier from
    [uuid.New()]: [AddEvent] never does. *)
Definition assigns_id (a : AddCall) : bool :=
  match a with
  | CallAddEvent _ => false
  | CallAddDeviceProfile dp => String.eqb (DeviceProfileId dp) EmptyString
  | CallAddDeviceService ds => String.eqb (DeviceServiceId ds) EmptyString
  | CallAddDevice d => String.eqb (DeviceId d) EmptyString
  end.

End ClientFacade.
Export ClientFacade.

(* ===================================================================== *)
(** ** Further sample data *)

Module FurtherSamples.
Import Samples.

#[local] Existing Instance colon.


(** The record stored when [t_new] is added at time 2000, and a codec
    that knows it. *)
Definition t_late : Transmission :=
  mkTransmission "t1" 2000 2000 "NEW" "sub-a" "n-1" "detail".

Definition lateCodec : Codec :=
  tableCodec [t_stored; t_updated; t_other; t_late].

(** A data set that holds [t_other] alone. *)
Definition t2_data : Store :=
  <[ "sn|trans:t2" := VString [x02] ]>
  {[ "sn|trans" := VZSet {[ "sn|trans:t2" := 1500 ]} ]}.

Definition conn_t2 : Conn := mkConn (mkServer t2_data None) [] [] [].

(** A data set with the created-time index of two transmissions. *)
Definition range_data : Store :=
  <[ "sn|trans:t1" := VString [x00] ]>
  (<[ "sn|trans:t2" := VString [x02] ]>
  {[ "sn|trans:created" := VZSet (<[ "sn|trans:t1" := 1000 ]>
                                  {[ "sn|trans:t2" := 500 ]}) ]}).

Definition conn_range : Conn := mkConn (mkServer range_data None) [] [] [].

(** A data set of two transmissions where the blob of the one that is
    listed second, in both indexes, is malformed. *)
Definition late_corrupt_data : Store :=
  <[ "sn|trans:t1" := VString [x00] ]>
  (<[ "sn|trans:t2" := VString [xff; xff] ]>
  (<[ "sn|trans" := VZSet (<[ "sn|trans:t1" := 2000 ]>
                           {[ "sn|trans:t2" := 1500 ]}) ]>
  {[ "sn|trans:created" := VZSet (<[ "sn|trans:t1" := 100 ]>
                                  {[ "sn|trans:t2" := 500 ]}) ]})).

Definition conn_late_corrupt : Conn :=
  mkConn (mkServer late_corrupt_data None) [] [] [].

(** A well-formed identifier. *)
Definition sample_id : string := "123e4567-e89b-12d3-a456-426614174000".

End FurtherSamples.

(* ===================================================================== *)
(** * Part II. Properties                                                 *)
(* ===================================================================== *)

(** ** Error kinds *)

Lemma Kind_Wrapper e : Kind (NewCommonEdgeXWrapper e) = Kind e.
Proof. unfold NewCommonEdgeXWrapper. simpl. by destruct (Kind e). Qed.

(** ** The data set under single commands *)

Section DataSet.
Implicit Types (d : Store) (k key member : string) (z : gmap string Z).

Lemma zscore_SET d key v k member :
  zscore (<[key := VString v]> d) k member
  = if decide (key = k) then None else zscore d k member.
Proof.
  unfold zscore. case_decide as Hk.
  - subst. by rewrite lookup_insert_eq.
  - by rewrite lookup_insert_ne.
Qed.

Lemma zscore_DEL d key k member :
  zscore (delete key d) k member
  = if decide (key = k) then None else zscore d k member.
Proof.
  unfold zscore. case_decide as Hk.
  - subst. by rewrite lookup_delete_eq.
  - by rewrite lookup_delete_ne.
Qed.

Lemma zscore_zadd d key score m k member :
  zscore (zadd key score m d).1 k member
  = if decide (key = k ∧ m = member)
    then match d !! key with Some (VString _) => None | _ => Some score end
    else zscore d k member.
Proof.
  unfold zscore, zadd.
  destruct (d !! key) as [[b|z]|] eqn:Hd; simpl.
  - case_decide as Hk; [|done]. destruct Hk as [-> _]. by rewrite Hd.
  - destruct (decide (key = k)) as [->|Hk].
    + rewrite lookup_insert_eq, Hd.
      destruct (decide (m = member)) as [->|Hm].
      * rewrite lookup_insert_eq. by rewrite decide_True.
      * rewrite lookup_insert_ne by done.
        by rewrite decide_False by (intros [? ?]; congruence).
    + rewrite lookup_insert_ne by done.
      by rewrite decide_False by (intros [? ?]; congruence).
  - destruct (decide (key = k)) as [->|Hk].
    + rewrite lookup_insert_eq, Hd.
      destruct (decide (m = member)) as [->|Hm].
      * rewrite lookup_singleton_eq. by rewrite decide_True.
      * rewrite lookup_singleton_ne by done.
        by rewrite decide_False by (intros [? ?]; congruence).
    + rewrite lookup_insert_ne by done.
      by rewrite decide_False by (intros [? ?]; congruence).
Qed.

Lemma zscore_zrem d key m k member :
  zscore (zrem key m d).1 k member
  = if decide (key = k ∧ m = member) then None else zscore d k member.
Proof.
  unfold zscore, zrem.
  destruct (d !! key) as [[b|z]|] eqn:Hd; simpl.
  - case_decide as Hk; [|done]. destruct Hk as [-> _]. by rewrite Hd.
  - destruct (decide (key = k)) as [->|Hk].
    + rewrite Hd. destruct (decide (delete m z = ∅)) as [He|He].
      * rewrite lookup_delete_eq. case_decide as Hm; [done|].
        assert (m ≠ member) as Hne by (intros ->; by apply Hm).
        rewrite <- (lookup_delete_ne z m member) by done.
        by rewrite He, lookup_empty.
      * rewrite lookup_insert_eq. case_decide as Hm.
        -- destruct Hm as [_ ->]. by rewrite lookup_delete_eq.
        -- rewrite lookup_delete_ne; [done|]. intros ->. by apply Hm.
    + destruct (decide (key = k ∧ m = member)) as [[? ?]|_]; [done|].
      destruct (decide (delete m z = ∅)).
      * by rewrite lookup_delete_ne.
      * by rewrite lookup_insert_ne.
  - case_decide as Hk; [|done]. destruct Hk as [-> _]. by rewrite Hd.
Qed.

Lemma blob_SET d key v k :
  blob (<[key := VString v]> d) k
  = if decide (key = k) then Some v else blob d k.
Proof.
  unfold blob. case_decide as Hk.
  - subst. by rewrite lookup_insert_eq.
  - by rewrite lookup_insert_ne.
Qed.

Lemma blob_zadd d key score m k :
  blob (zadd key score m d).1 k = blob d k.
Proof.
  unfold blob, zadd.
  destruct (d !! key) as [[b|z]|] eqn:Hd; simpl; [done| |];
    (destruct (decide (key = k)) as [->|Hk];
     [by rewrite lookup_insert_eq, Hd | by rewrite lookup_insert_ne]).
Qed.

Lemma lookup_zrem_None d key m k :
  d !! k = None → (zrem key m d).1 !! k = None.
Proof.
  intros Hk. unfold zrem.
  destruct (d !! key) as [[b|z]|] eqn:Hd; simpl; [done| |done].
  assert (key ≠ k) by congruence.
  destruct (decide (delete m z = ∅)).
  - by rewrite lookup_delete_ne.
  - by rewrite lookup_insert_ne.
Qed.

End DataSet.

(** ** Queues of commands *)

Lemma run_cons c q (d : Store) : run (c :: q) d = run q (execute c d).1.
Proof.
  unfold run. simpl. destruct (execute c d) as [d1 r]. simpl.
  by destruct (execute_all q d1).
Qed.

Lemma execute_all_app q1 q2 (d : Store) :
  execute_all (q1 ++ q2) d
  = ((execute_all q2 (execute_all q1 d).1).1,
     (execute_all q1 d).2 ++ (execute_all q2 (execute_all q1 d).1).2).
Proof.
  revert d. induction q1 as [|c q1 IH]; intros d; simpl.
  - by destruct (execute_all q2 d).
  - destruct (execute c d) as [d1 r]. rewrite IH.
    destruct (execute_all q1 d1) as [d2 rs]. simpl.
    by destruct (execute_all q2 d2).
Qed.

Lemma serve_all_queue q : ∀ d q0,
  forallb queued q = true →
  serve_all (q ++ [EXEC]) (mkServer d (Some q0))
  = (mkServer (run (q0 ++ q) d) None,
     replicate (length q) (RStatus "QUEUED")
       ++ [RArray (execute_all (q0 ++ q) d).2]).
Proof.
  induction q as [|c q IH]; intros d q0 Hq.
  - simpl. rewrite app_nil_r. unfold run, serve. simpl.
    by destruct (execute_all q0 d).
  - simpl in Hq. apply andb_prop in Hq as [Hc Hq].
    replace (q0 ++ c :: q) with ((q0 ++ [c]) ++ q)
      by (rewrite <- app_assoc; reflexivity).
    change ((c :: q) ++ [EXEC]) with (c :: (q ++ [EXEC])).
    cbn [serve_all length replicate app].
    assert (serve c (mkServer d (Some q0))
            = (mkServer d (Some (q0 ++ [c])), RStatus "QUEUED")) as ->
      by (destruct c; simpl in Hc; try discriminate Hc; reflexivity).
    by rewrite (IH d (q0 ++ [c]) Hq).
Qed.

(** [MULTI], a queue, [EXEC]: the data set moves in one step from [d] to
    [run q d]. *)
Lemma serve_all_batch q d :
  forallb queued q = true →
  serve_all (MULTI :: q ++ [EXEC]) (mkServer d None)
  = (mkServer (run q d) None,
     RStatus "OK" :: replicate (length q) (RStatus "QUEUED")
       ++ [RArray (execute_all q d).2]).
Proof.
  intros Hq.
  change (serve_all (MULTI :: q ++ [EXEC]) (mkServer d None))
    with (let '(s2, rs) := serve_all (q ++ [EXEC]) (mkServer d (Some [])) in
          (s2, RStatus "OK" :: rs)).
  by rewrite serve_all_queue.
Qed.

Lemma replies_result_batch n rs :
  replies_result
    (RStatus "OK" :: replicate n (RStatus "QUEUED") ++ [RArray rs])
  = Ok (RArray rs).
Proof.
  unfold replies_result.
  assert (first_error (replicate n (RStatus "QUEUED") ++ [RArray rs]) = None)
    as Hnone by (induction n; simpl; auto).
  cbn [first_error]. rewrite Hnone. f_equal.
  change (RStatus "OK" :: replicate n (RStatus "QUEUED") ++ [RArray rs])
    with ((RStatus "OK" :: replicate n (RStatus "QUEUED")) ++ [RArray rs]).
  apply last_last.
Qed.

Lemma replies_result_single r : replies_result [r] = reply_result r.
Proof. by destruct r. Qed.

(** ** Round trips *)

Lemma Do_through c conn n :
  through (S n) (wire conn) = true →
  Do c conn
  = (let '(s, rs) := serve_all (pending conn ++ [c]) (server conn) in
     (mkConn s [] (tail (wire conn)) (log conn ++ pending conn ++ [c]),
      replies_result rs))
  ∧ through n (tail (wire conn)) = true.
Proof.
  unfold Do. destruct (wire conn) as [|[] w]; simpl; intros Hw.
  - split; [done|]. by destruct n.
  - done.
  - done.
Qed.

Lemma Do_broken c conn w :
  wire conn = false :: w →
  ∃ e, Do c conn = (mkConn (server conn) [] w (log conn), Err e).
Proof. intros Hw. unfold Do. rewrite Hw. eauto. Qed.

(** ** The key space *)

Lemma append_inj_r (p a b : string) : p +:+ a = p +:+ b → a = b.
Proof. induction p as [|c p IH]; simpl; [done|]. intros [=]. auto. Qed.

Lemma append_id_r (p a : string) : p +:+ a = p → a = EmptyString.
Proof. induction p as [|c p IH]; simpl; [done|]. intros [=]. auto. Qed.

Lemma append_assoc (a b c : string) : (a +:+ b) +:+ c = a +:+ (b +:+ c).
Proof.
  induction a as [|x a IH]; [done|].
  change (String x ((a +:+ b) +:+ c) = String x (a +:+ (b +:+ c))).
  by f_equal.
Qed.

Lemma append_nonempty (p a : string) :
  a ≠ EmptyString → p +:+ a ≠ EmptyString.
Proof. by destruct p, a. Qed.

Lemma CreateKey_inj `{KeySpace} p a b :
  CreateKey p a = CreateKey p b → a = b.
Proof.
  unfold CreateKey. intros Heq. apply append_inj_r in Heq.
  by apply append_inj_r in Heq.
Qed.

(** Two index keys of different families differ, whatever the separator
    and the values: after the collection name and the separator, the
    field names already differ. *)
Ltac key_discriminate :=
  unfold statusKey, subscriptionKey, notificationKey, CreateKey,
    TransmissionCollectionStatus, TransmissionCollectionSubscriptionName,
    TransmissionCollectionNotificationId, TransmissionCollectionCreated,
    v2_Status, v2_Subscription, v2_Name, v2_Notification, v2_Id, v2_Created;
  rewrite ?append_assoc;
  let Heq := fresh in
  intros Heq;
  first
    [ apply append_id_r in Heq; revert Heq; by apply append_nonempty
    | symmetry in Heq; apply append_id_r in Heq; revert Heq;
      by apply append_nonempty
    | apply append_inj_r in Heq; apply append_inj_r in Heq;
      simpl in Heq; discriminate Heq ].

Section KeySpaceFacts.
Context {keys : KeySpace}.

Lemma statusKey_families t t' :
  statusKey t ≠ TransmissionCollection
  ∧ statusKey t ≠ TransmissionCollectionCreated
  ∧ statusKey t ≠ subscriptionKey t'
  ∧ statusKey t ≠ notificationKey t'.
Proof. repeat split; key_discriminate. Qed.

Lemma subscriptionKey_families t t' :
  subscriptionKey t ≠ TransmissionCollection
  ∧ subscriptionKey t ≠ TransmissionCollectionCreated
  ∧ subscriptionKey t ≠ statusKey t'
  ∧ subscriptionKey t ≠ notificationKey t'.
Proof. repeat split; key_discriminate. Qed.

Lemma notificationKey_families t t' :
  notificationKey t ≠ TransmissionCollection
  ∧ notificationKey t ≠ TransmissionCollectionCreated
  ∧ notificationKey t ≠ statusKey t'
  ∧ notificationKey t ≠ subscriptionKey t'.
Proof. repeat split; key_discriminate. Qed.

Lemma statusKey_inj t t' : statusKey t = statusKey t' → Status t = Status t'.
Proof. apply CreateKey_inj. Qed.

Lemma subscriptionKey_inj t t' :
  subscriptionKey t = subscriptionKey t' →
  SubscriptionName t = SubscriptionName t'.
Proof. apply CreateKey_inj. Qed.

Lemma notificationKey_inj t t' :
  notificationKey t = notificationKey t' →
  NotificationId t = NotificationId t'.
Proof. apply CreateKey_inj. Qed.

End KeySpaceFacts.

(** ** What a queue of commands does to one index entry and to one blob *)

Section QueueEffects.
Implicit Types (d : Store) (q : list Command) (k m : string).

Lemma run_app q1 q2 d : run (q1 ++ q2) d = run q2 (run q1 d).
Proof. unfold run. by rewrite execute_all_app. Qed.

(** A command that is not an addition of [m] to the index [k] never
    creates the entry. *)
Lemma execute_no_add c d k m s :
  (∀ s', c ≠ ZADD k s' m) →
  zscore (execute c d).1 k m = Some s → zscore d k m = Some s.
Proof.
  intros Hc. destruct c; simpl; try done.
  - rewrite zscore_SET. by case_decide.
  - rewrite zscore_DEL. by case_decide.
  - rewrite zscore_zadd. case_decide as Hk; [|done].
    destruct Hk as [-> ->]. by destruct (Hc score).
  - rewrite zscore_zrem. by case_decide.
Qed.

Lemma run_no_add q : ∀ d k m s,
  Forall (λ c, ∀ s', c ≠ ZADD k s' m) q →
  zscore (run q d) k m = Some s → zscore d k m = Some s.
Proof.
  induction q as [|c q IH]; intros d k m s Hq; [done|].
  rewrite run_cons. inversion Hq; subst. intros Hs.
  eapply execute_no_add; [done|]. by eapply IH.
Qed.

(** After [ZREM k m], and as long as nothing adds [m] to [k] again, the
    entry is gone. *)
Lemma run_removed q1 q2 d k m :
  Forall (λ c, ∀ s', c ≠ ZADD k s' m) q2 →
  zscore (run (q1 ++ ZREM k m :: q2) d) k m = None.
Proof.
  intros Hq2. rewrite run_app, run_cons.
  destruct (zscore _ k m) as [s|] eqn:Hs; [|done].
  apply run_no_add in Hs; [|done]. simpl in Hs.
  rewrite zscore_zrem in Hs. by rewrite decide_True in Hs.
Qed.

Lemma blob_zrem d key m k : blob (zrem key m d).1 k = blob d k.
Proof.
  unfold blob, zrem.
  destruct (d !! key) as [[b|z]|] eqn:Hd; simpl; [done| |done].
  destruct (decide (key = k)) as [->|Hk].
  - rewrite Hd. destruct (decide (delete m z = ∅)).
    + by rewrite lookup_delete_eq.
    + by rewrite lookup_insert_eq.
  - destruct (decide (delete m z = ∅)).
    + by rewrite lookup_delete_ne.
    + by rewrite lookup_insert_ne.
Qed.

(** Index commands leave every blob alone. *)
Lemma run_index_only q : ∀ d k,
  forallb index_only q = true → blob (run q d) k = blob d k.
Proof.
  induction q as [|c q IH]; intros d k Hq; [done|].
  simpl in Hq. apply andb_prop in Hq as [Hc Hq].
  rewrite run_cons, IH by done.
  destruct c; simpl in Hc; try discriminate Hc; simpl.
  - apply blob_zadd.
  - apply blob_zrem.
Qed.

Lemma run_index_only_absent q : ∀ d k,
  forallb (λ c, match c with ZREM _ _ => true | _ => false end) q = true →
  d !! k = None → run q d !! k = None.
Proof.
  induction q as [|c q IH]; intros d k Hq Hk; [done|].
  simpl in Hq. apply andb_prop in Hq as [Hc Hq].
  rewrite run_cons. apply IH; [done|].
  destruct c; simpl in Hc; try discriminate Hc; simpl.
  by apply lookup_zrem_None.
Qed.

End QueueEffects.

(** ** Round trips on an idle connection *)

Lemma serve_idle c d :
  queued c = true →
  serve c (mkServer d None) = (mkServer (execute c d).1 None, (execute c d).2).
Proof.
  intros Hc. unfold serve. cbn [multi data].
  destruct c; try discriminate Hc;
    match goal with
    | |- context [execute ?c d] => by destruct (execute c d)
    end.
Qed.

Lemma Do_idle c d w lg n :
  queued c = true →
  through (S n) w = true →
  Do c (mkConn (mkServer d None) [] w lg)
  = (mkConn (mkServer (execute c d).1 None) [] (tail w) (lg ++ [c]),
     reply_result (execute c d).2)
  ∧ through n (tail w) = true.
Proof.
  intros Hc Hw.
  destruct (Do_through c (mkConn (mkServer d None) [] w lg) n Hw) as [-> Hn].
  split; [|done]. cbn [pending server wire log app serve_all].
  rewrite serve_idle by done. by rewrite replies_result_single.
Qed.

Lemma Do_EXEC_batch q d w lg n :
  forallb queued q = true →
  through (S n) w = true →
  Do EXEC (mkConn (mkServer d None) (MULTI :: q) w lg)
  = (mkConn (mkServer (run q d) None) [] (tail w)
       (lg ++ MULTI :: q ++ [EXEC]),
     Ok (RArray (execute_all q d).2))
  ∧ through n (tail w) = true.
Proof.
  intros Hq Hw.
  destruct (Do_through EXEC (mkConn (mkServer d None) (MULTI :: q) w lg)
              n Hw) as [-> Hn].
  split; [|done]. cbn [pending server wire log].
  change ((MULTI :: q) ++ [EXEC]) with (MULTI :: q ++ [EXEC]).
  rewrite serve_all_batch by done. by rewrite replies_result_batch.
Qed.

(** ** [transmission.go] *)

Section TransmissionProofs.
Context {keys : KeySpace} {codec : Codec}.
Implicit Types (conn : Conn) (trans old : Transmission) (d : Store).

Lemma sendDeleteTransmissionCmd_pending conn storedKey trans :
  sendDeleteTransmissionCmd conn storedKey trans
  = mkConn (server conn)
      (pending conn ++ deleteTransmissionCmds storedKey trans)
      (wire conn) (log conn).
Proof.
  unfold sendDeleteTransmissionCmd, deleteTransmissionCmds, Send. simpl.
  by rewrite <- !app_assoc.
Qed.

Lemma sendAddTransmissionCmd_pending conn storedKey trans m :
  Marshal trans = Ok m →
  sendAddTransmissionCmd conn storedKey trans
  = (mkConn (server conn)
       (pending conn ++ addTransmissionCmds storedKey m trans)
       (wire conn) (log conn), None).
Proof.
  intros Hm. unfold sendAddTransmissionCmd, addTransmissionCmds, Send.
  rewrite Hm. simpl. by rewrite <- !app_assoc.
Qed.

Lemma sendAddTransmissionCmd_invalid conn storedKey trans err :
  Marshal trans = Err err →
  ∃ e, sendAddTransmissionCmd conn storedKey trans = (conn, Some e)
       ∧ Kind e = KindContractInvalid.
Proof.
  intros Hm. unfold sendAddTransmissionCmd. rewrite Hm. eauto.
Qed.

(** The fetch of the old record. *)
Lemma transmissionById_found d w lg id b old n :
  through (S n) w = true →
  blob d (transmissionStoredKey id) = Some b →
  Unmarshal b = Ok old →
  transmissionById (mkConn (mkServer d None) [] w lg) id
  = (mkConn (mkServer d None) [] (tail w)
       (lg ++ [GET (transmissionStoredKey id)]), (old, None))
  ∧ through n (tail w) = true.
Proof.
  intros Hw Hb Hold. unfold transmissionById, getObjectById.
  destruct (Do_idle (GET (transmissionStoredKey id)) d w lg n eq_refl Hw)
    as [-> Hn].
  split; [|done]. simpl. unfold blob in Hb.
  destruct (d !! transmissionStoredKey id) as [[b'|z]|]; try discriminate Hb.
  injection Hb as ->. simpl. by rewrite Hold.
Qed.

Lemma transmissionById_absent d w lg id n :
  through (S n) w = true →
  d !! transmissionStoredKey id = None →
  ∃ e, transmissionById (mkConn (mkServer d None) [] w lg) id
       = (mkConn (mkServer d None) [] (tail w)
            (lg ++ [GET (transmissionStoredKey id)]),
          (Transmission_zero, Some e))
       ∧ Kind e = KindNotFound.
Proof.
  intros Hw Hd. unfold transmissionById, getObjectById.
  destruct (Do_idle (GET (transmissionStoredKey id)) d w lg n eq_refl Hw)
    as [-> Hn].
  simpl. rewrite Hd. simpl. eexists. split; [reflexivity|].
  by rewrite Kind_Wrapper.
Qed.

Lemma updateTransmission_commits d w lg trans ts b old m :
  through 2 w = true →
  blob d (transmissionStoredKey (Id trans)) = Some b →
  Unmarshal b = Ok old →
  Marshal (set_Modified ts trans) = Ok m →
  updateTransmission (mkConn (mkServer d None) [] w lg) trans ts
  = (mkConn
       (mkServer
          (run (updateBatch (transmissionStoredKey (Id trans)) m old
                  (set_Modified ts trans)) d) None)
       [] (tail (tail w))
       (lg ++ [GET (transmissionStoredKey (Id trans))]
           ++ MULTI :: updateBatch (transmissionStoredKey (Id trans)) m old
                         (set_Modified ts trans) ++ [EXEC]),
     None).
Proof.
  intros Hw Hb Hold Hm. unfold updateTransmission.
  destruct (transmissionById_found d w lg (Id trans) b old 1 Hw Hb Hold)
    as [-> Hw1].
  rewrite sendDeleteTransmissionCmd_pending.
  rewrite (sendAddTransmissionCmd_pending _ _ _ m) by done.
  cbn [pending server wire log Send Id set_Modified app].
  match goal with
  | |- context [Do EXEC (mkConn _ (MULTI :: ?q) _ _)] =>
      destruct (Do_EXEC_batch q d (tail w)
                  (lg ++ [GET (transmissionStoredKey (Id trans))]) 0)
        as [-> _]; [reflexivity|done|]
  end.
  unfold updateBatch. simpl. by rewrite <- !app_assoc.
Qed.

End TransmissionProofs.

Section TransmissionClaims.
Context {keys : KeySpace} {codec : Codec}.
Implicit Types (conn : Conn) (trans old : Transmission) (d : Store).

(** No command of the queue adds the member to an index of another
    family, or to the index of another value of the same field. *)
Lemma ZADD_other k' s m' k m :
  k' ≠ k → ∀ s', ZADD k' s m' ≠ ZADD k s' m.
Proof. congruence. Qed.

Ltac no_add :=
  unfold addTransmissionCmds;
  repeat (apply Forall_cons; split); try done;
  apply ZADD_other;
  first [ key_discriminate
        | let Hk := fresh in
          intros Hk; apply CreateKey_inj in Hk; congruence ].

Lemma updateBatch_drops_status storedKey m old new d :
  Status old ≠ Status new →
  zscore (run (updateBatch storedKey m old new) d) (statusKey old) storedKey
  = None.
Proof.
  intros Hne.
  change (updateBatch storedKey m old new)
    with ([DEL storedKey; ZREM TransmissionCollection storedKey;
           ZREM TransmissionCollectionCreated storedKey]
            ++ ZREM (statusKey old) storedKey
            :: [ZREM (subscriptionKey old) storedKey;
                ZREM (notificationKey old) storedKey]
            ++ addTransmissionCmds storedKey m new).
  apply run_removed. no_add.
Qed.

Lemma updateBatch_drops_subscription storedKey m old new d :
  SubscriptionName old ≠ SubscriptionName new →
  zscore (run (updateBatch storedKey m old new) d) (subscriptionKey old)
    storedKey = None.
Proof.
  intros Hne.
  change (updateBatch storedKey m old new)
    with ([DEL storedKey; ZREM TransmissionCollection storedKey;
           ZREM TransmissionCollectionCreated storedKey;
           ZREM (statusKey old) storedKey]
            ++ ZREM (subscriptionKey old) storedKey
            :: [ZREM (notificationKey old) storedKey]
            ++ addTransmissionCmds storedKey m new).
  apply run_removed. no_add.
Qed.

Lemma updateBatch_drops_notification storedKey m old new d :
  NotificationId old ≠ NotificationId new →
  zscore (run (updateBatch storedKey m old new) d) (notificationKey old)
    storedKey = None.
Proof.
  intros Hne.
  change (updateBatch storedKey m old new)
    with ([DEL storedKey; ZREM TransmissionCollection storedKey;
           ZREM TransmissionCollectionCreated storedKey;
           ZREM (statusKey old) storedKey;
           ZREM (subscriptionKey old) storedKey]
            ++ ZREM (notificationKey old) storedKey
            :: addTransmissionCmds storedKey m new).
  apply run_removed. no_add.
Qed.

(** The blob an update leaves at the stored key is the encoding of the
    new record. *)
Lemma updateBatch_blob storedKey m old new d :
  blob (run (updateBatch storedKey m old new) d) storedKey = Some m.
Proof.
  unfold updateBatch. rewrite run_app.
  unfold addTransmissionCmds. rewrite run_cons.
  rewrite run_index_only by reflexivity.
  simpl. rewrite blob_SET. by rewrite decide_True.
Qed.

(** C1. An update fetches the old record first ([GET]), then sends, between
    [MULTI] and [EXEC], the removals computed from the old record followed
    by the overwrite and the additions computed from the new record; once
    the batch is committed, the object's key is in no secondary index
    keyed by a field value the update has changed. *)
Theorem updateTransmission_replaces_index_entries conn trans ts b old m :
  idle conn →
  through 2 (wire conn) = true →
  blob (data (server conn)) (transmissionStoredKey (Id trans)) = Some b →
  Unmarshal b = Ok old →
  Marshal (set_Modified ts trans) = Ok m →
  ∃ conn',
    updateTransmission conn trans ts = (conn', None)
    ∧ log conn'
      = log conn
          ++ [GET (transmissionStoredKey (Id trans)); MULTI]
          ++ deleteTransmissionCmds (transmissionStoredKey (Id trans)) old
          ++ addTransmissionCmds (transmissionStoredKey (Id trans)) m
               (set_Modified ts trans)
          ++ [EXEC]
    ∧ idle conn'
    ∧ data (server conn')
      = run (updateBatch (transmissionStoredKey (Id trans)) m old
               (set_Modified ts trans)) (data (server conn))
    ∧ (Status old ≠ Status trans →
       zscore (data (server conn')) (statusKey old)
         (transmissionStoredKey (Id trans)) = None)
    ∧ (SubscriptionName old ≠ SubscriptionName trans →
       zscore (data (server conn')) (subscriptionKey old)
         (transmissionStoredKey (Id trans)) = None)
    ∧ (NotificationId old ≠ NotificationId trans →
       zscore (data (server conn')) (notificationKey old)
         (transmissionStoredKey (Id trans)) = None).
Proof.
  intros [Hp Hmu] Hw Hb Hold Hm.
  destruct conn as [[d mu] p w lg]. simpl in *. subst p mu.
  eexists. split; [by eapply updateTransmission_commits|].
  cbn [log server data pending multi].
  split; [reflexivity|].
  split; [done|].
  split; [done|].
  split; [|split]; intros Hne.
  - by apply updateBatch_drops_status.
  - by apply updateBatch_drops_subscription.
  - by apply updateBatch_drops_notification.
Qed.

(** The existence probe on an idle connection. *)
Lemma objectIdExists_idle d w lg id n :
  through (S n) w = true →
  objectIdExists (mkConn (mkServer d None) [] w lg) id
  = (mkConn (mkServer d None) [] (tail w) (lg ++ [EXISTS id]),
     (bool_decide (is_Some (d !! id)), None))
  ∧ through n (tail w) = true.
Proof.
  intros Hw. unfold objectIdExists.
  destruct (Do_idle (EXISTS id) d w lg n eq_refl Hw) as [-> Hn].
  split; [|done]. simpl. by destruct (d !! id).
Qed.

(** The record [addTransmission] writes: the argument with the store's
    timestamps. *)
Lemma addTransmission_commits d w lg trans ts m :
  let stamped :=
    set_Modified ts
      (if Created trans =? 0 then set_Created ts trans else trans) in
  through 2 w = true →
  d !! transmissionStoredKey (Id trans) = None →
  Marshal stamped = Ok m →
  addTransmission (mkConn (mkServer d None) [] w lg) trans ts
  = (mkConn
       (mkServer
          (run (addTransmissionCmds (transmissionStoredKey (Id trans)) m
                  stamped) d) None)
       [] (tail (tail w))
       (lg ++ [EXISTS (transmissionStoredKey (Id trans))]
           ++ MULTI :: addTransmissionCmds (transmissionStoredKey (Id trans))
                         m stamped ++ [EXEC]),
     (stamped, None)).
Proof.
  intros stamped Hw Hd Hm. unfold addTransmission.
  destruct (objectIdExists_idle d w lg (transmissionStoredKey (Id trans)) 1 Hw)
    as [-> Hw1].
  rewrite Hd. rewrite bool_decide_false by (by intros [? ?]).
  fold stamped.
  assert (Id stamped = Id trans) as ->
    by (unfold stamped; by destruct (Created trans =? 0)).
  rewrite (sendAddTransmissionCmd_pending _ _ _ m) by done.
  cbn [pending server wire log Send app].
  match goal with
  | |- context [Do EXEC (mkConn _ (MULTI :: ?q) _ _)] =>
      destruct (Do_EXEC_batch q d (tail w)
                  (lg ++ [EXISTS (transmissionStoredKey (Id trans))]) 0)
        as [-> _]; [reflexivity|done|]
  end.
  by rewrite <- !app_assoc.
Qed.

Lemma addTransmissionCmds_blob storedKey m trans d :
  blob (run (addTransmissionCmds storedKey m trans) d) storedKey = Some m.
Proof.
  unfold addTransmissionCmds. rewrite run_cons.
  rewrite run_index_only by reflexivity.
  simpl. rewrite blob_SET. by rewrite decide_True.
Qed.

(** On whatever connection, the record a successful [addTransmission]
    returns is the argument with the store's timestamps. *)
Lemma addTransmission_returns conn trans ts conn' r :
  addTransmission conn trans ts = (conn', (r, None)) →
  r = set_Modified ts
        (if Created trans =? 0 then set_Created ts trans else trans).
Proof.
  unfold addTransmission.
  destruct (objectIdExists conn _) as [conn1 [ex [e|]]]; [done|].
  destruct ex; [done|].
  destruct (sendAddTransmissionCmd _ _ _) as [conn2 [e|]]; [done|].
  destruct (Do EXEC conn2) as [conn3 [rep|err]]; [|done].
  by intros [= _ <-].
Qed.

(** C2. A successful [addTransmission] returns and stores the argument
    with [Modified] set to the store's timestamp, whatever the caller
    supplied, and [Created] set to that timestamp exactly when the caller
    supplied 0, no other field changed; a successful [updateTransmission]
    stores the argument with [Modified] set to the store's timestamp. *)
Theorem store_sets_timestamps :
  (∀ conn trans ts conn' r,
     addTransmission conn trans ts = (conn', (r, None)) →
     Modified r = ts
     ∧ Created r = (if Created trans =? 0 then ts else Created trans))
  ∧ (∀ conn trans ts m,
     idle conn →
     through 2 (wire conn) = true →
     data (server conn) !! transmissionStoredKey (Id trans) = None →
     Marshal
       (set_Modified ts
          (if Created trans =? 0 then set_Created ts trans else trans))
     = Ok m →
     ∃ conn' r,
       addTransmission conn trans ts = (conn', (r, None))
       ∧ Modified r = ts
       ∧ Created r = (if Created trans =? 0 then ts else Created trans)
       ∧ (Id r, Status r, SubscriptionName r, NotificationId r, Detail r)
         = (Id trans, Status trans, SubscriptionName trans,
            NotificationId trans, Detail trans)
       ∧ Marshal r = Ok m
       ∧ blob (data (server conn')) (transmissionStoredKey (Id trans))
         = Some m)
  ∧ (∀ conn trans ts b old m,
       idle conn →
       through 2 (wire conn) = true →
       blob (data (server conn)) (transmissionStoredKey (Id trans)) = Some b →
       Unmarshal b = Ok old →
       Marshal (set_Modified ts trans) = Ok m →
       ∃ conn',
         updateTransmission conn trans ts = (conn', None)
         ∧ Modified (set_Modified ts trans) = ts
         ∧ blob (data (server conn')) (transmissionStoredKey (Id trans))
           = Some m).
Proof.
  split; [|split].
  - intros conn trans ts conn' r Hadd.
    apply addTransmission_returns in Hadd as ->.
    by destruct (Created trans =? 0).
  - intros conn trans ts m [Hp Hmu] Hw Hd Hm.
    destruct conn as [[d mu] p w lg]. simpl in *. subst p mu.
    eexists _, _. split; [by apply addTransmission_commits|].
    cbn [server data].
    repeat split; try done; try (by destruct (Created trans =? 0)).
    apply addTransmissionCmds_blob.
  - intros conn trans ts b old m [Hp Hmu] Hw Hb Hold Hm.
    destruct conn as [[d mu] p w lg]. simpl in *. subst p mu.
    eexists. split; [by eapply updateTransmission_commits|].
    cbn [server data]. repeat split; try done.
    apply updateBatch_blob.
Qed.

(** C3. When the stored key of the transmission already exists, and the
    probe gets through, [addTransmission] answers with a [KindDuplicateName]
    error and the unchanged argument; the probe is the only command the
    server has received, nothing is buffered and the data set is as
    before. *)
Theorem addTransmission_duplicate conn trans ts v :
  idle conn →
  through 1 (wire conn) = true →
  data (server conn) !! transmissionStoredKey (Id trans) = Some v →
  ∃ conn' e,
    addTransmission conn trans ts = (conn', (trans, Some e))
    ∧ Kind e = KindDuplicateName
    ∧ data (server conn') = data (server conn)
    ∧ idle conn'
    ∧ log conn' = log conn ++ [EXISTS (transmissionStoredKey (Id trans))].
Proof.
  intros [Hp Hmu] Hw Hd.
  destruct conn as [[d mu] p w lg]. simpl in *. subst p mu.
  unfold addTransmission.
  destruct (objectIdExists_idle d w lg (transmissionStoredKey (Id trans)) 0 Hw)
    as [-> _].
  rewrite Hd. rewrite bool_decide_true by eauto.
  eexists _, _. split; [reflexivity|]. by repeat split.
Qed.

(** C4. When no value is stored at the key of the transmission, and the
    fetch gets through, [updateTransmission] answers with a [KindNotFound]
    error; the fetch is the only command the server has received, nothing
    is buffered and the data set is as before. *)
Theorem updateTransmission_not_found conn trans ts :
  idle conn →
  through 1 (wire conn) = true →
  data (server conn) !! transmissionStoredKey (Id trans) = None →
  ∃ conn' e,
    updateTransmission conn trans ts = (conn', Some e)
    ∧ Kind e = KindNotFound
    ∧ data (server conn') = data (server conn)
    ∧ idle conn'
    ∧ log conn' = log conn ++ [GET (transmissionStoredKey (Id trans))].
Proof.
  intros [Hp Hmu] Hw Hd.
  destruct conn as [[d mu] p w lg]. simpl in *. subst p mu.
  unfold updateTransmission.
  destruct (transmissionById_absent d w lg (Id trans) 0 Hw Hd)
    as (e & -> & He).
  eexists _, _. split; [reflexivity|].
  rewrite Kind_Wrapper. by repeat split.
Qed.

(** C5. The commands of [sendDeleteTransmissionCmd], run on any data set,
    leave no value at the stored key and remove that key from the primary
    index, the created-time index and the three secondary indexes keyed
    by the record's field values; they add the key to no index, so an
    index that still lists the key is none of these five and listed it
    before. *)
Theorem deleteTransmissionCmds_complete conn storedKey trans d :
  let d' := run (deleteTransmissionCmds storedKey trans) d in
  pending (sendDeleteTransmissionCmd conn storedKey trans)
  = pending conn ++ deleteTransmissionCmds storedKey trans
  ∧ d' !! storedKey = None
  ∧ zscore d' TransmissionCollection storedKey = None
  ∧ zscore d' TransmissionCollectionCreated storedKey = None
  ∧ zscore d' (statusKey trans) storedKey = None
  ∧ zscore d' (subscriptionKey trans) storedKey = None
  ∧ zscore d' (notificationKey trans) storedKey = None
  ∧ (∀ k s, zscore d' k storedKey = Some s → zscore d k storedKey = Some s).
Proof.
  intros d'. split; [by rewrite sendDeleteTransmissionCmd_pending|].
  split.
  { unfold d', deleteTransmissionCmds. rewrite run_cons.
    apply run_index_only_absent; [reflexivity|]. simpl.
    apply lookup_delete_eq. }
  repeat split.
  - apply (run_removed [DEL storedKey]). repeat constructor; done.
  - apply (run_removed [DEL storedKey; ZREM TransmissionCollection storedKey]).
    repeat constructor; done.
  - apply (run_removed [DEL storedKey; ZREM TransmissionCollection storedKey;
                        ZREM TransmissionCollectionCreated storedKey]).
    repeat constructor; done.
  - apply (run_removed [DEL storedKey; ZREM TransmissionCollection storedKey;
                        ZREM TransmissionCollectionCreated storedKey;
                        ZREM (statusKey trans) storedKey]).
    repeat constructor; done.
  - apply (run_removed [DEL storedKey; ZREM TransmissionCollection storedKey;
                        ZREM TransmissionCollectionCreated storedKey;
                        ZREM (statusKey trans) storedKey;
                        ZREM (subscriptionKey trans) storedKey]).
    repeat constructor; done.
  - intros k s. apply run_no_add. repeat constructor; done.
Qed.

(** ** The decoding loop *)

Lemma decodeInto_length objects : ∀ i transmissions,
  length (decodeInto i objects transmissions).1 = length transmissions.
Proof.
  induction objects as [|o rest IH]; intros i l; simpl; [done|].
  destruct (Unmarshal o); [|done]. by rewrite IH, length_insert.
Qed.

(** When every blob parses, the slice holds the decoded records in the
    order of the blobs. *)
Lemma decodeInto_all objects : ∀ decoded i transmissions,
  Forall2 (λ o t, Unmarshal o = Ok t) objects decoded →
  length transmissions = (i + length objects)%nat →
  decodeInto i objects transmissions = (take i transmissions ++ decoded, None).
Proof.
  induction objects as [|o rest IH]; intros decoded i l Hdec Hlen.
  - inversion Hdec; subst. simpl in *.
    rewrite app_nil_r, take_ge by lia. done.
  - inversion Hdec as [|? t ? decoded' Ho Hrest]; subst. simpl in *.
    rewrite Ho. rewrite (IH decoded' (S i)); [|done|rewrite length_insert; lia].
    f_equal.
    rewrite (take_S_r _ _ t) by (apply list_lookup_insert_eq; lia).
    rewrite take_insert_ge by lia. by rewrite <- app_assoc.
Qed.

(** A blob that does not parse ends the loop with [KindDatabaseError]. *)
Lemma decodeInto_malformed objects : ∀ i transmissions,
  Exists (λ o, ∃ err, Unmarshal o = Err err) objects →
  ∃ e, (decodeInto i objects transmissions).2 = Some e
       ∧ Kind e = KindDatabaseError.
Proof.
  induction objects as [|o rest IH]; intros i l Hex.
  - inversion Hex.
  - simpl. destruct (Unmarshal o) as [t|err] eqn:Ho.
    + apply IH. inversion Hex as [? ? [err Herr]|]; subst; [congruence|done].
    + eauto.
Qed.

(** C6 (as amended). When the batch fetch of a paginated query answers
    and one of the fetched blobs does not parse, [allTransmissions] and
    [transmissionsByTimeRange] fail, with an error of kind
    [KindDatabaseError]; the malformed record is not skipped. *)
Theorem paginated_query_malformed_blob :
  (∀ conn offset limit conn1 objects,
     getObjectsByRevRange conn TransmissionCollection offset limit
     = (conn1, (objects, None)) →
     Exists (λ o, ∃ err, Unmarshal o = Err err) objects →
     ∃ transmissions e,
       allTransmissions conn offset limit
       = (conn1, (transmissions, Some e))
       ∧ Kind e = KindDatabaseError
       ∧ length transmissions = length objects)
  ∧ (∀ conn startTime endTime offset limit conn1 objects,
       getObjectsByScoreRange conn TransmissionCollectionCreated
         startTime endTime offset limit
       = (conn1, (objects, None)) →
       Exists (λ o, ∃ err, Unmarshal o = Err err) objects →
       ∃ transmissions e,
         transmissionsByTimeRange conn startTime endTime offset limit
         = (conn1, (transmissions, Some e))
         ∧ Kind e = KindDatabaseError
         ∧ length transmissions = length objects).
Proof.
  split.
  - intros conn offset limit conn1 objects Hget Hex.
    unfold allTransmissions. rewrite Hget.
    set (l := replicate (length objects) Transmission_zero).
    destruct (decodeInto_malformed objects 0%nat l Hex) as (e & He & Hk).
    pose proof (decodeInto_length objects 0%nat l) as Hlen.
    destruct (decodeInto 0 objects l) as [ts oe]. simpl in *. subst oe.
    eexists _, _. split; [reflexivity|]. split; [done|].
    rewrite Hlen. unfold l. by rewrite length_replicate.
  - intros conn startTime endTime offset limit conn1 objects Hget Hex.
    unfold transmissionsByTimeRange. rewrite Hget.
    set (l := replicate (length objects) Transmission_zero).
    destruct (decodeInto_malformed objects 0%nat l Hex) as (e & He & Hk).
    pose proof (decodeInto_length objects 0%nat l) as Hlen.
    destruct (decodeInto 0 objects l) as [ts oe]. simpl in *. subst oe.
    eexists _, _. split; [reflexivity|]. split; [done|].
    rewrite Hlen. unfold l. by rewrite length_replicate.
Qed.

(** ** The page of the primary index *)

Lemma zle_total : Total zle.
Proof.
  intros [m1 s1] [m2 s2]. unfold zle. simpl.
  destruct (Z.lt_trichotomy s1 s2) as [?|[->|?]]; [by left; left| |by right; left].
  destruct (String.leb_total m1 m2); [left|right]; by right.
Qed.

Lemma Sorted_weaken {A} (R R' : relation A) l :
  (∀ x y, R x y → R' x y) → Sorted R l → Sorted R' l.
Proof.
  intros HR. induction 1 as [|x l Hl IH Hhd]; constructor; [done|].
  destruct Hhd; constructor; auto.
Qed.

(** The reverse range lists the members by non-increasing score. *)
Lemma zrevrange_all_sorted z :
  StronglySorted (λ a b, b.2 ≤ a.2) (zrevrange_all z).
Proof.
  apply Sorted_StronglySorted.
  { intros a b c. simpl. lia. }
  unfold zrevrange_all.
  apply (Sorted_reverse (λ a b : string * Z, a.2 ≤ b.2)).
  apply (Sorted_weaken zle).
  - intros a b [?|[? _]]; lia.
  - apply Sorted_merge_sort, zle_total.
Qed.

Lemma StronglySorted_take {A} (R : relation A) n l :
  StronglySorted R l → StronglySorted R (take n l).
Proof.
  intros Hl. rewrite <- (take_drop n l) in Hl.
  by apply StronglySorted_app_1_l in Hl.
Qed.

Lemma StronglySorted_drop {A} (R : relation A) n l :
  StronglySorted R l → StronglySorted R (drop n l).
Proof.
  intros Hl. rewrite <- (take_drop n l) in Hl.
  by apply StronglySorted_app_1_r in Hl.
Qed.

(** For a page request, the rank window of Redis is the page. *)
Lemma rank_window_page {A} (l : list A) offset limit :
  0 ≤ offset → 0 < limit →
  rank_window l offset (offset + limit - 1)
  = take (Z.to_nat limit) (drop (Z.to_nat offset) l).
Proof.
  intros Ho Hl. unfold rank_window.
  rewrite (proj2 (Z.ltb_ge offset 0)) by done.
  rewrite (proj2 (Z.ltb_ge (offset + limit - 1) 0)) by lia.
  destruct (Z.le_gt_cases (Z.of_nat (length l)) offset) as [Hlen|Hlen].
  - rewrite (proj2 (Z.leb_le _ _) Hlen), orb_true_r.
    rewrite drop_ge by lia. by rewrite take_nil.
  - rewrite (proj2 (Z.leb_gt _ _)) by done. rewrite orb_false_r.
    rewrite (proj2 (Z.ltb_ge _ _)) by lia.
    destruct (Z.le_gt_cases (offset + limit - 1) (Z.of_nat (length l) - 1)).
    + rewrite Z.min_l by done. f_equal. lia.
    + rewrite Z.min_r by lia.
      rewrite !take_ge; [done| |]; rewrite length_drop; lia.
Qed.

Lemma bulk_strings_members (l : list (string * Z)) :
  bulk_strings ((λ e, RBulk (String.list_byte_of_string e.1)) <$> l)
  = Some (l.*1).
Proof.
  induction l as [|e l IH]; [done|].
  rewrite !fmap_cons. cbn [bulk_strings]. rewrite IH.
  by rewrite String.string_of_list_byte_of_string.
Qed.

Lemma bulk_slices_mget (d : Store) ids :
  bulk_slices (mget1 d <$> ids) = Some ((λ k, default [] (blob d k)) <$> ids).
Proof.
  induction ids as [|k ids IH]; [done|].
  rewrite !fmap_cons. unfold mget1 at 1, blob at 1.
  destruct (d !! k) as [[b|z]|]; cbn [bulk_slices]; by rewrite IH.
Qed.

(** The batch fetch on an idle connection: the blobs in the order of the
    keys, the data set untouched. *)
Lemma getObjectsByIds_idle (d : Store) w lg ids n :
  through (S n) w = true →
  ∃ conn',
    getObjectsByIds (mkConn (mkServer d None) [] w lg) ids
    = (conn', ((λ k, default [] (blob d k)) <$> ids, None))
    ∧ data (server conn') = d.
Proof.
  intros Hw. destruct ids as [|k ids]; [by eexists|].
  unfold getObjectsByIds.
  destruct (Do_idle (MGET (k :: ids)) d w lg n eq_refl Hw) as [-> _].
  cbn [execute fst snd reply_result ByteSlices].
  rewrite bulk_slices_mget. by eexists.
Qed.

Lemma getObjectsByRevRange_idle (d : Store) w lg key offset limit z :
  through 2 w = true →
  0 ≤ offset → 0 ≤ limit →
  zset_at d key = Some z →
  ∃ conn',
    getObjectsByRevRange (mkConn (mkServer d None) [] w lg) key offset limit
    = (conn',
       ((λ e, default [] (blob d e.1))
          <$> take (Z.to_nat limit)
                (drop (Z.to_nat offset) (zrevrange_all z)), None))
    ∧ data (server conn') = d.
Proof.
  intros Hw Ho Hl Hz. unfold getObjectsByRevRange.
  rewrite (proj2 (Z.ltb_ge offset 0)), (proj2 (Z.ltb_ge limit 0)) by done.
  simpl. destruct (Z.eqb_spec limit 0) as [->|Hl0]; [by eexists|].
  destruct (Do_idle (ZREVRANGE key offset (offset + limit - 1)) d w lg 1
              eq_refl Hw) as [-> Hw1].
  cbn [execute fst snd].
  assert (∃ l, (match d !! key with
                | None => RArray []
                | Some (VString _) => wrongtype
                | Some (VZSet z0) =>
                    RArray ((λ e, RBulk (String.list_byte_of_string e.1))
                              <$> rank_window (zrevrange_all z0) offset
                                    (offset + limit - 1))
                end) = RArray ((λ e : string * Z,
                                  RBulk (String.list_byte_of_string e.1)) <$> l)
               ∧ l = take (Z.to_nat limit)
                       (drop (Z.to_nat offset) (zrevrange_all z)))
    as (l & -> & Hlz).
  { unfold zset_at in Hz. destruct (d !! key) as [[b|z0]|]; simplify_eq.
    - eexists. split; [reflexivity|]. apply rank_window_page; lia.
    - exists []. split; [done|].
      unfold zrevrange_all, zrange_all. rewrite map_to_list_empty.
      change (merge_sort zle []) with (@nil (string * Z)).
      by rewrite reverse_nil, drop_nil, take_nil. }
  cbn [reply_result Strings]. rewrite bulk_strings_members.
  destruct (getObjectsByIds_idle d (tail w)
              (lg ++ [ZREVRANGE key offset (offset + limit - 1)])
              (l.*1) 0 Hw1) as (conn' & -> & Hd).
  exists conn'. split; [|done]. subst l.
  by rewrite <- list_fmap_compose.
Qed.

(** C7. For non-negative [offset] and [limit], on a connection that
    answers, [allTransmissions] reads the window of at most [limit]
    members starting at [offset] of the primary index in reverse score
    order and, when the blobs of these members parse, returns their
    decoded transmissions in exactly that order, as many as members
    read. *)
Theorem allTransmissions_page conn offset limit z :
  let window :=
    take (Z.to_nat limit) (drop (Z.to_nat offset) (zrevrange_all z)) in
  idle conn →
  through 2 (wire conn) = true →
  0 ≤ offset → 0 ≤ limit →
  zset_at (data (server conn)) TransmissionCollection = Some z →
  Forall (λ e, ∃ t b, blob (data (server conn)) e.1 = Some b
                      ∧ Unmarshal b = Ok t) window →
  ∃ conn' transmissions,
    allTransmissions conn offset limit = (conn', (transmissions, None))
    ∧ Forall2 (λ e t, ∃ b, blob (data (server conn)) e.1 = Some b
                           ∧ Unmarshal b = Ok t) window transmissions
    ∧ length transmissions = length window
    ∧ (length window ≤ Z.to_nat limit)%nat
    ∧ StronglySorted (λ a b, b.2 ≤ a.2) window
    ∧ data (server conn') = data (server conn).
Proof.
  intros window [Hp Hmu] Hw Ho Hl Hz Hall.
  destruct conn as [[d mu] p w lg]. simpl in *. subst p mu.
  apply Forall_exists_Forall2_l in Hall as [decoded Hdec].
  destruct (getObjectsByRevRange_idle d w lg TransmissionCollection
              offset limit z Hw Ho Hl Hz) as (conn' & Hget & Hd).
  fold window in Hget.
  exists conn', decoded. unfold allTransmissions. rewrite Hget.
  rewrite (decodeInto_all _ decoded).
  - split; [done|]. split.
    { eapply Forall2_impl; [exact Hdec|]. naive_solver. }
    split; [symmetry; by eapply Forall2_length|].
    split; [unfold window; rewrite length_take; lia|].
    split; [|done].
    apply StronglySorted_take, StronglySorted_drop, zrevrange_all_sorted.
  - apply Forall2_fmap_l. eapply Forall2_impl; [exact Hdec|].
    intros e t (b & Hb & Ht). simpl. by rewrite Hb.
  - by rewrite length_replicate.
Qed.

Lemma through_S n : ∀ w, through (S n) w = true → through n w = true.
Proof.
  induction n as [|n IH]; intros w Hw; [done|].
  destruct w as [|b w]; [done|]. simpl in *.
  apply andb_prop in Hw as [-> Hw]. simpl. by apply IH.
Qed.

Lemma through_tail n w : through (S n) w = true → through n (tail w) = true.
Proof.
  destruct w as [|b w]; simpl; [by destruct n|].
  intros Hw. by apply andb_prop in Hw as [_ Hw].
Qed.

(** C10. A successful [updateTransmission] stores the caller's record with
    only [Modified] replaced: the batch is the removals computed from the
    old record followed by the overwrite and additions computed from the
    argument, the blob is the encoding of the argument with the new
    [Modified], and reading the object back yields that record, whose
    [Created] is the caller's, so 0 when the caller supplied 0, whatever
    the old record held. *)
Theorem updateTransmission_stores_argument conn trans ts b old m :
  idle conn →
  through 3 (wire conn) = true →
  blob (data (server conn)) (transmissionStoredKey (Id trans)) = Some b →
  Unmarshal b = Ok old →
  Marshal (set_Modified ts trans) = Ok m →
  Unmarshal m = Ok (set_Modified ts trans) →
  ∃ conn' conn'' r,
    updateTransmission conn trans ts = (conn', None)
    ∧ data (server conn')
      = run (deleteTransmissionCmds (transmissionStoredKey (Id trans)) old
               ++ addTransmissionCmds (transmissionStoredKey (Id trans)) m r)
          (data (server conn))
    ∧ blob (data (server conn')) (transmissionStoredKey (Id trans)) = Some m
    ∧ transmissionById conn' (Id trans) = (conn'', (r, None))
    ∧ r = mkTransmission (Id trans) (Created trans) ts (Status trans)
            (SubscriptionName trans) (NotificationId trans) (Detail trans)
    ∧ (Created trans = 0 → Created r = 0).
Proof.
  intros [Hp Hmu] Hw Hb Hold Hm Hback.
  destruct conn as [[d mu] p w lg]. simpl in *. subst p mu.
  pose proof (through_S 2 w Hw) as Hw2.
  pose proof (through_tail 1 _ (through_tail 2 w Hw)) as Hw3.
  pose proof (updateBatch_blob (transmissionStoredKey (Id trans)) m old
                (set_Modified ts trans) d) as Hblob.
  destruct (transmissionById_found _ _
              (lg ++ [GET (transmissionStoredKey (Id trans))]
                  ++ MULTI :: updateBatch (transmissionStoredKey (Id trans))
                                m old (set_Modified ts trans) ++ [EXEC])
              (Id trans) m (set_Modified ts trans) 0 Hw3 Hblob Hback)
    as [Hread _].
  eexists _, _, (set_Modified ts trans).
  split; [by eapply updateTransmission_commits|].
  cbn [server data]. split; [done|]. split; [done|].
  split; [exact Hread|]. split; [done|]. intros Hc. exact Hc.
Qed.

(** When the round trip of [EXEC] fails, the update answers with a
    [KindDatabaseError] and the data set is as before: the batch is
    applied as a whole or not at all. *)
Lemma updateTransmission_commit_failure d w lg trans ts b old m :
  blob d (transmissionStoredKey (Id trans)) = Some b →
  Unmarshal b = Ok old →
  Marshal (set_Modified ts trans) = Ok m →
  ∃ conn' e,
    updateTransmission (mkConn (mkServer d None) [] (true :: false :: w) lg)
      trans ts = (conn', Some e)
    ∧ Kind e = KindDatabaseError
    ∧ data (server conn') = d.
Proof.
  intros Hb Hold Hm. unfold updateTransmission.
  destruct (transmissionById_found d (true :: false :: w) lg (Id trans) b old
              0 eq_refl Hb Hold) as [-> _].
  rewrite sendDeleteTransmissionCmd_pending.
  rewrite (sendAddTransmissionCmd_pending _ _ _ m) by done.
  cbn [pending server wire log Send Id set_Modified app tail].
  match goal with
  | |- context [Do EXEC ?c] =>
      destruct (Do_broken EXEC c w eq_refl) as (e & ->)
  end.
  eexists _, _. split; [reflexivity|]. by split.
Qed.

End TransmissionClaims.

(** ** The client entry points *)

Section ClientClaims.
Context {uuid : Uuid} {persistence : Persistence}.

Lemma length_eqb_0 (s : string) :
  (String.length s =? 0)%nat = String.eqb s EmptyString.
Proof. by destruct s. Qed.

Lemma eqb_empty_false (s : string) :
  s ≠ EmptyString → String.eqb s EmptyString = false.
Proof. by destruct s. Qed.

(** [AddEvent] and [AddDeviceProfile] turn down an identifier that does
    not parse, without handing the connection to the persistence
    function: the client is as before. *)
Lemma AddEvent_rejects_malformed c e err :
  EventId e ≠ EmptyString →
  uuid_Parse (EventId e) = Some err →
  ∃ er, AddEvent c e = (c, (Event_zero, Some er)) ∧ Kind er = KindInvalidId.
Proof.
  intros Hid Hparse. unfold AddEvent.
  rewrite eqb_empty_false, Hparse by done. simpl. eauto.
Qed.

Lemma AddDeviceProfile_rejects_malformed c dp err :
  DeviceProfileId dp ≠ EmptyString →
  uuid_Parse (DeviceProfileId dp) = Some err →
  ∃ er, AddDeviceProfile c dp = (c, (DeviceProfile_zero, Some er))
        ∧ Kind er = KindInvalidId.
Proof.
  intros Hid Hparse. unfold AddDeviceProfile.
  rewrite eqb_empty_false, Hparse by done. simpl. eauto.
Qed.

(** C8 (where the code departs from it). [AddDeviceService] and
    [AddDevice] never consult [uuid.Parse]: an entity with any non-empty
    identifier, well formed or not, is handed with the connection to the
    persistence function, and the answer is that function's. *)
Theorem AddDeviceService_AddDevice_forward_any_id :
  (∀ c ds,
     DeviceServiceId ds ≠ EmptyString →
     AddDeviceService c ds
     = (let '(conn, r) := addDeviceService (Pool c) ds in
        (mkClient conn (draws c), r)))
  ∧ (∀ c d,
       DeviceId d ≠ EmptyString →
       AddDevice c d
       = (let '(conn, r) := addDevice (Pool c) d in
          (mkClient conn (draws c), r))).
Proof.
  split.
  - intros c ds Hid. unfold AddDeviceService.
    by rewrite length_eqb_0, eqb_empty_false.
  - intros c d Hid. unfold AddDevice.
    by rewrite length_eqb_0, eqb_empty_false.
Qed.

End ClientClaims.

(* ===================================================================== *)
(** * Part III. The properties on concrete data                           *)
(* ===================================================================== *)

Module Examples.
Import Samples.

#[local] Existing Instance colon.
#[local] Existing Instance sampleCodec.
#[local] Existing Instance sampleUuid.
#[local] Existing Instance samplePersistence.

(** An update that changes status, subscription and notification of the
    transmission stored in [conn_one]. *)
Lemma updateTransmission_replaces_index_entries_witness :
  ∃ conn',
    updateTransmission conn_one t_change 2000 = (conn', None)
    ∧ log conn'
      = log conn_one
          ++ [GET (transmissionStoredKey (Id t_change)); MULTI]
          ++ deleteTransmissionCmds (transmissionStoredKey (Id t_change))
               t_stored
          ++ addTransmissionCmds (transmissionStoredKey (Id t_change)) [x01]
               (set_Modified 2000 t_change)
          ++ [EXEC]
    ∧ idle conn'
    ∧ data (server conn')
      = run (updateBatch (transmissionStoredKey (Id t_change)) [x01] t_stored
               (set_Modified 2000 t_change)) (data (server conn_one))
    ∧ (Status t_stored ≠ Status t_change →
       zscore (data (server conn')) (statusKey t_stored)
         (transmissionStoredKey (Id t_change)) = None)
    ∧ (SubscriptionName t_stored ≠ SubscriptionName t_change →
       zscore (data (server conn')) (subscriptionKey t_stored)
         (transmissionStoredKey (Id t_change)) = None)
    ∧ (NotificationId t_stored ≠ NotificationId t_change →
       zscore (data (server conn')) (notificationKey t_stored)
         (transmissionStoredKey (Id t_change)) = None).
Proof.
  apply (updateTransmission_replaces_index_entries conn_one t_change 2000
           [x00] t_stored [x01]).
  - split; reflexivity.
  - reflexivity.
  - vm_compute. reflexivity.
  - reflexivity.
  - reflexivity.
Defined.

(** The entry of the old status is there before the update and gone
    after it; the entry of the new status is there. *)
Example update_moves_status_entry :
  let conn' := (updateTransmission conn_one t_change 2000).1 in
  zscore (data (server conn_one)) "sn|trans:status:NEW" "sn|trans:t1"
  = Some 1000
  ∧ zscore (data (server conn')) "sn|trans:status:NEW" "sn|trans:t1" = None
  ∧ zscore (data (server conn')) "sn|trans:status:SENT" "sn|trans:t1"
    = Some 2000.
Proof. vm_compute. done. Qed.

Lemma store_sets_timestamps_witness :
  (Modified t_stored = 1000
   ∧ Created t_stored = (if Created t_new =? 0 then 1000 else Created t_new))
  ∧ (∃ conn' r,
     addTransmission emptyConn t_new 1000 = (conn', (r, None))
     ∧ Modified r = 1000
     ∧ Created r = (if Created t_new =? 0 then 1000 else Created t_new)
     ∧ (Id r, Status r, SubscriptionName r, NotificationId r, Detail r)
       = (Id t_new, Status t_new, SubscriptionName t_new,
          NotificationId t_new, Detail t_new)
     ∧ Marshal r = Ok [x00]
     ∧ blob (data (server conn')) (transmissionStoredKey (Id t_new))
       = Some [x00])
  ∧ (∃ conn',
       updateTransmission conn_one t_change 2000 = (conn', None)
       ∧ Modified (set_Modified 2000 t_change) = 2000
       ∧ blob (data (server conn')) (transmissionStoredKey (Id t_change))
         = Some [x01]).
Proof.
  destruct store_sets_timestamps as (Hreturned & Hadd & Hupdate).
  split; [|split].
  - apply (Hreturned emptyConn t_new 1000 conn_one t_stored).
    vm_compute. reflexivity.
  - apply (Hadd emptyConn t_new 1000 [x00]).
    + split; reflexivity.
    + reflexivity.
    + reflexivity.
    + reflexivity.
  - apply (Hupdate conn_one t_change 2000 [x00] t_stored [x01]).
    + split; reflexivity.
    + reflexivity.
    + vm_compute. reflexivity.
    + reflexivity.
    + reflexivity.
Defined.

(** A caller-supplied creation time is kept by [addTransmission]. *)
Example addTransmission_keeps_Created :
  (addTransmission emptyConn t_other 9).2.1
  = mkTransmission "t2" 500 9 "NEW" "sub-a" "n-1" "detail".
Proof. vm_compute. reflexivity. Qed.

Lemma addTransmission_duplicate_witness :
  ∃ conn' e,
    addTransmission conn_one t_new 3000 = (conn', (t_new, Some e))
    ∧ Kind e = KindDuplicateName
    ∧ data (server conn') = data (server conn_one)
    ∧ idle conn'
    ∧ log conn'
      = log conn_one ++ [EXISTS (transmissionStoredKey (Id t_new))].
Proof.
  apply (addTransmission_duplicate conn_one t_new 3000 (VString [x00])).
  - split; reflexivity.
  - reflexivity.
  - vm_compute. reflexivity.
Defined.

Lemma updateTransmission_not_found_witness :
  ∃ conn' e,
    updateTransmission emptyConn t_change 2000 = (conn', Some e)
    ∧ Kind e = KindNotFound
    ∧ data (server conn') = data (server emptyConn)
    ∧ idle conn'
    ∧ log conn'
      = log emptyConn ++ [GET (transmissionStoredKey (Id t_change))].
Proof.
  apply (updateTransmission_not_found emptyConn t_change 2000).
  - split; reflexivity.
  - reflexivity.
  - reflexivity.
Defined.

Lemma deleteTransmissionCmds_complete_witness :
  let storedKey := transmissionStoredKey (Id t_stored) in
  let d' :=
    run (deleteTransmissionCmds storedKey t_stored) (data (server conn_one)) in
  pending (sendDeleteTransmissionCmd conn_one storedKey t_stored)
  = pending conn_one ++ deleteTransmissionCmds storedKey t_stored
  ∧ d' !! storedKey = None
  ∧ zscore d' TransmissionCollection storedKey = None
  ∧ zscore d' TransmissionCollectionCreated storedKey = None
  ∧ zscore d' (statusKey t_stored) storedKey = None
  ∧ zscore d' (subscriptionKey t_stored) storedKey = None
  ∧ zscore d' (notificationKey t_stored) storedKey = None
  ∧ (∀ k s, zscore d' k storedKey = Some s →
            zscore (data (server conn_one)) k storedKey = Some s).
Proof.
  exact (deleteTransmissionCmds_complete conn_one
           (transmissionStoredKey (Id t_stored)) t_stored
           (data (server conn_one))).
Defined.

(** After the delete commands the data set of [conn_one] is empty: the
    five sorted sets, emptied, are gone with the blob. *)
Example delete_leaves_nothing :
  run (deleteTransmissionCmds "sn|trans:t1" t_stored) (data (server conn_one))
  = ∅.
Proof. vm_compute. reflexivity. Qed.

(** C6 (as the claim states it, refuted). The blob at [sn|trans:t2] does
    not parse, and both paginated queries fail on it with an error whose
    kind is [KindDatabaseError], not [KindDecodeError]. *)
Lemma malformed_blob_fails_with_DatabaseError :
  ∃ b err,
    blob corrupt_data "sn|trans:t2" = Some b
    ∧ Unmarshal b = Err err
    ∧ (∃ conn' transmissions e,
         allTransmissions conn_corrupt 0 10
         = (conn', (transmissions, Some e))
         ∧ Kind e = KindDatabaseError
         ∧ Kind e ≠ KindDecodeError)
    ∧ (∃ conn' transmissions e,
         transmissionsByTimeRange conn_corrupt 0 5000 0 10
         = (conn', (transmissions, Some e))
         ∧ Kind e = KindDatabaseError
         ∧ Kind e ≠ KindDecodeError).
Proof.
  eexists _, _. split; [vm_compute; reflexivity|].
  split; [vm_compute; reflexivity|].
  split.
  - eexists _, _, _. split; [vm_compute; reflexivity|].
    split; [reflexivity|discriminate].
  - eexists _, _, _. split; [vm_compute; reflexivity|].
    split; [reflexivity|discriminate].
Qed.

Lemma paginated_query_malformed_blob_witness :
  (∃ transmissions e,
     allTransmissions conn_corrupt 0 10
     = ((getObjectsByRevRange conn_corrupt TransmissionCollection 0 10).1,
        (transmissions, Some e))
     ∧ Kind e = KindDatabaseError
     ∧ length transmissions = 2%nat)
  ∧ (∃ transmissions e,
       transmissionsByTimeRange conn_corrupt 0 5000 0 10
       = ((getObjectsByScoreRange conn_corrupt TransmissionCollectionCreated
             0 5000 0 10).1,
          (transmissions, Some e))
       ∧ Kind e = KindDatabaseError
       ∧ length transmissions = 2%nat).
Proof.
  split.
  - apply (proj1 paginated_query_malformed_blob
             conn_corrupt 0 10 _ [[xff; xff]; [x00]]).
    + vm_compute. reflexivity.
    + apply Exists_cons_hd. eexists. vm_compute. reflexivity.
  - apply (proj2 paginated_query_malformed_blob
             conn_corrupt 0 5000 0 10 _ [[xff; xff]; [x00]]).
    + vm_compute. reflexivity.
    + apply Exists_cons_hd. eexists. vm_compute. reflexivity.
Defined.

Lemma allTransmissions_page_witness :
  let z : gmap string Z :=
    <[ "sn|trans:t1" := 1000 ]> {[ "sn|trans:t2" := 1500 ]} in
  let window := take 10 (drop 0 (zrevrange_all z)) in
  ∃ conn' transmissions,
    allTransmissions conn_two 0 10 = (conn', (transmissions, None))
    ∧ Forall2 (λ e t, ∃ b, blob (data (server conn_two)) e.1 = Some b
                           ∧ Unmarshal b = Ok t)
        window transmissions
    ∧ length transmissions = length window
    ∧ (length window ≤ 10)%nat
    ∧ StronglySorted (λ a b, b.2 ≤ a.2) window
    ∧ data (server conn') = data (server conn_two).
Proof.
  intros z window.
  apply (allTransmissions_page conn_two 0 10 z).
  - split; reflexivity.
  - reflexivity.
  - lia.
  - lia.
  - vm_compute. reflexivity.
  - vm_compute.
    repeat (apply Forall_cons; split); [| |done];
      eexists _, _; (split; vm_compute; reflexivity).
Defined.

(** The page of [conn_two], newest first. *)
Example allTransmissions_newest_first :
  (allTransmissions conn_two 0 10).2 = ([t_other; t_stored], None)
  ∧ (allTransmissions conn_two 1 1).2 = ([t_stored], None).
Proof. vm_compute. done. Qed.

Lemma updateTransmission_stores_argument_witness :
  ∃ conn' conn'' r,
    updateTransmission conn_one t_change 2000 = (conn', None)
    ∧ data (server conn')
      = run (deleteTransmissionCmds (transmissionStoredKey (Id t_change))
               t_stored
               ++ addTransmissionCmds (transmissionStoredKey (Id t_change))
                    [x01] r)
          (data (server conn_one))
    ∧ blob (data (server conn')) (transmissionStoredKey (Id t_change))
      = Some [x01]
    ∧ transmissionById conn' (Id t_change) = (conn'', (r, None))
    ∧ r = mkTransmission (Id t_change) (Created t_change) 2000
            (Status t_change) (SubscriptionName t_change)
            (NotificationId t_change) (Detail t_change)
    ∧ (Created t_change = 0 → Created r = 0).
Proof.
  apply (updateTransmission_stores_argument conn_one t_change 2000
           [x00] t_stored [x01]).
  - split; reflexivity.
  - reflexivity.
  - vm_compute. reflexivity.
  - reflexivity.
  - reflexivity.
  - reflexivity.
Defined.

(** The creation time 1000 of the stored record is lost by the update
    that supplies 0. *)
Example update_resets_Created :
  let conn' := (updateTransmission conn_one t_change 2000).1 in
  Created <$> [ (transmissionById conn_one "t1").2.1;
                (transmissionById conn' "t1").2.1 ]
  = [1000; 0]
  ∧ zscore (data (server conn')) TransmissionCollectionCreated "sn|trans:t1"
    = Some 0.
Proof. vm_compute. done. Qed.

(** The identifier [not-a-uuid] does not parse; [AddEvent] and
    [AddDeviceProfile] turn it down with [KindInvalidId] and leave the
    client alone, [AddDeviceService] and [AddDevice] store the entity
    under it. *)
Lemma AddDeviceService_AddDevice_forward_any_id_witness :
  sample_Parse "not-a-uuid" = Some (errorString "invalid UUID format")
  ∧ AddDeviceService sampleClient (mkDeviceService "not-a-uuid" "body")
    = (mkClient (put "md|ds:" "not-a-uuid" "body" emptyConn) 0,
       (mkDeviceService "not-a-uuid" "body", None))
  ∧ AddDevice sampleClient (mkDevice "not-a-uuid" "body")
    = (mkClient (put "md|dv:" "not-a-uuid" "body" emptyConn) 0,
       (mkDevice "not-a-uuid" "body", None)).
Proof.
  split; [reflexivity|]. split.
  - rewrite (proj1 AddDeviceService_AddDevice_forward_any_id);
      [reflexivity|discriminate].
  - rewrite (proj2 AddDeviceService_AddDevice_forward_any_id);
      [reflexivity|discriminate].
Defined.

Example malformed_id_by_entry_point :
  Kind <$> (AddEvent sampleClient (mkEvent "not-a-uuid" "body")).2.2
  = Some KindInvalidId
  ∧ Kind <$> (AddDeviceProfile sampleClient
                (mkDeviceProfile "not-a-uuid" "body")).2.2
    = Some KindInvalidId
  ∧ (AddDeviceService sampleClient
       (mkDeviceService "not-a-uuid" "body")).2.2 = None
  ∧ log (Pool (AddDeviceService sampleClient
                 (mkDeviceService "not-a-uuid" "body")).1)
    = [SET "md|ds:not-a-uuid" (String.list_byte_of_string "body")]
  ∧ (AddDevice sampleClient (mkDevice "not-a-uuid" "body")).2.2 = None.
Proof. vm_compute. done. Qed.

End Examples.

(* ===================================================================== *)
(** * Part IV. Further properties of the code                             *)
(* ===================================================================== *)

(** ** Round trips on an idle connection, whether they get through or not *)

Lemma Do_idle_any c d w lg :
  queued c = true →
  Do c (mkConn (mkServer d None) [] w lg)
  = match w with
    | false :: w' => (mkConn (mkServer d None) [] w' lg, Err connection_failure)
    | _ =>
        (mkConn (mkServer (execute c d).1 None) [] (tail w) (lg ++ [c]),
         reply_result (execute c d).2)
    end.
Proof.
  intros Hc. destruct w as [|[] w]; [| |done].
  - by destruct (Do_idle c d [] lg 0 Hc eq_refl) as [-> _].
  - by destruct (Do_idle c d (true :: w) lg 0 Hc eq_refl) as [-> _].
Qed.

Lemma Do_EXEC_any q d w lg :
  forallb queued q = true →
  Do EXEC (mkConn (mkServer d None) (MULTI :: q) w lg)
  = match w with
    | false :: w' => (mkConn (mkServer d None) [] w' lg, Err connection_failure)
    | _ =>
        (mkConn (mkServer (run q d) None) [] (tail w)
           (lg ++ MULTI :: q ++ [EXEC]),
         Ok (RArray (execute_all q d).2))
    end.
Proof.
  intros Hq. destruct w as [|[] w]; [| |done].
  - by destruct (Do_EXEC_batch q d [] lg 0 Hq eq_refl) as [-> _].
  - by destruct (Do_EXEC_batch q d (true :: w) lg 0 Hq eq_refl) as [-> _].
Qed.

(** ** Footprints *)

Section FootprintFacts.
Implicit Types (d : Store) (q : list Command) (k m : string).

Lemma execute_untouched c d k m :
  untouched k m c → zscore (execute c d).1 k m = zscore d k m.
Proof.
  destruct c; simpl; try done; intros Hc.
  - rewrite zscore_SET. by rewrite decide_False.
  - rewrite zscore_DEL. by rewrite decide_False.
  - rewrite zscore_zadd. by rewrite decide_False.
  - rewrite zscore_zrem. by rewrite decide_False.
Qed.

Lemma run_untouched q : ∀ d k m,
  Forall (untouched k m) q → zscore (run q d) k m = zscore d k m.
Proof.
  induction q as [|c q IH]; intros d k m Hq; [done|].
  inversion Hq; subst. rewrite run_cons, IH by done.
  by apply execute_untouched.
Qed.

Lemma execute_key_untouched c d k :
  key_untouched k c → (execute c d).1 !! k = d !! k.
Proof.
  destruct c; simpl; try done; intros Hc.
  - by rewrite lookup_insert_ne.
  - by rewrite lookup_delete_ne.
  - unfold zadd. destruct (d !! key) as [[b|z]|]; simpl; [done| |];
      by rewrite lookup_insert_ne.
  - unfold zrem. destruct (d !! key) as [[b|z]|]; simpl; [done| |done].
    destruct (decide (delete member z = ∅)).
    + by rewrite lookup_delete_ne.
    + by rewrite lookup_insert_ne.
Qed.

Lemma run_key_untouched q : ∀ d k,
  Forall (key_untouched k) q → run q d !! k = d !! k.
Proof.
  induction q as [|c q IH]; intros d k Hq; [done|].
  inversion Hq; subst. rewrite run_cons, IH by done.
  by apply execute_key_untouched.
Qed.

End FootprintFacts.

(** ** Every way [addTransmission] and [updateTransmission] can end *)

Section TransmissionOutcomes.
Context {keys : KeySpace} {codec : Codec}.
Implicit Types (conn : Conn) (trans old : Transmission) (d : Store).

Lemma Id_stamp ts trans : Id (stamp ts trans) = Id trans.
Proof. unfold stamp. by destruct (Created trans =? 0). Qed.

Lemma objectIdExists_idle_any d w lg id :
  objectIdExists (mkConn (mkServer d None) [] w lg) id
  = match w with
    | false :: w' =>
        (mkConn (mkServer d None) [] w' lg,
         (false, Some (NewCommonEdgeX KindDatabaseError
                         "object Id existence check failed"
                         (Some connection_failure))))
    | _ =>
        (mkConn (mkServer d None) [] (tail w) (lg ++ [EXISTS id]),
         (bool_decide (is_Some (d !! id)), None))
    end.
Proof.
  unfold objectIdExists. rewrite Do_idle_any by done.
  destruct w as [|[] w]; [| |done]; simpl; by destruct (d !! id).
Qed.

Lemma addTransmission_outcome d w lg trans ts :
  AddOutcome d w lg trans ts
    (addTransmission (mkConn (mkServer d None) [] w lg) trans ts).
Proof.
  unfold addTransmission. rewrite objectIdExists_idle_any.
  destruct w as [|[] w].
  2: { (* the probe got through, more round trips scheduled *)
       cbn [tail].
       destruct (d !! transmissionStoredKey (Id trans)) as [v|] eqn:Hd.
       { rewrite bool_decide_true by eauto.
         apply (AddDuplicate d (true :: w)); [by rewrite Hd|done]. }
       rewrite bool_decide_false by (by intros [? ?]).
       fold (stamp ts trans). rewrite Id_stamp.
       destruct (Marshal (stamp ts trans)) as [m|err] eqn:Hm.
       - rewrite (sendAddTransmissionCmd_pending _ _ _ m) by done.
         cbn [pending server wire log Send app].
         rewrite Do_EXEC_any by reflexivity.
         destruct w as [|[] w].
         + rewrite <- app_assoc.
           by apply (AddCommitted d [true]).
         + rewrite <- app_assoc.
           by apply (AddCommitted d (true :: true :: w)).
         + by eapply (AddCommitFailed d (true :: false :: w)).
       - unfold sendAddTransmissionCmd. rewrite Hm.
         by eapply (AddNotEncodable d (true :: w)). }
  2: { by eapply AddProbeFailed. }
  cbn [tail].
  destruct (d !! transmissionStoredKey (Id trans)) as [v|] eqn:Hd.
  { rewrite bool_decide_true by eauto.
    apply (AddDuplicate d []); [by rewrite Hd|done]. }
  rewrite bool_decide_false by (by intros [? ?]).
  fold (stamp ts trans). rewrite Id_stamp.
  destruct (Marshal (stamp ts trans)) as [m|err] eqn:Hm.
  - rewrite (sendAddTransmissionCmd_pending _ _ _ m) by done.
    cbn [pending server wire log Send app].
    rewrite Do_EXEC_any by reflexivity. rewrite <- app_assoc.
    by apply (AddCommitted d []).
  - unfold sendAddTransmissionCmd. rewrite Hm.
    by eapply (AddNotEncodable d []).
Qed.

Lemma transmissionById_idle_any d w lg id :
  transmissionById (mkConn (mkServer d None) [] w lg) id
  = match w with
    | false :: w' =>
        (mkConn (mkServer d None) [] w' lg,
         (Transmission_zero,
          Some (NewCommonEdgeXWrapper
                  (NewCommonEdgeX KindDatabaseError
                     ("query object by id " +:+ transmissionStoredKey id
                        +:+ " from the database failed")
                     (Some connection_failure)))))
    | _ =>
        (mkConn (mkServer d None) [] (tail w)
           (lg ++ [GET (transmissionStoredKey id)]),
         match d !! transmissionStoredKey id with
         | None =>
             (Transmission_zero,
              Some (NewCommonEdgeXWrapper
                      (NewCommonEdgeX KindNotFound
                         ("fail to query object, because id: "
                            +:+ transmissionStoredKey id
                            +:+ " doesn't exist in the database")
                         (Some ErrNil))))
         | Some (VZSet _) =>
             (Transmission_zero,
              Some (NewCommonEdgeXWrapper
                      (NewCommonEdgeX KindDatabaseError
                         ("query object by id " +:+ transmissionStoredKey id
                            +:+ " from the database failed")
                         (Some (errorString
                                  "WRONGTYPE Operation against a key holding the wrong kind of value")))))
         | Some (VString b) =>
             match Unmarshal b with
             | Err err =>
                 (Transmission_zero,
                  Some (NewCommonEdgeXWrapper
                          (NewCommonEdgeX KindDecodeError
                             "object parsing failed" (Some err))))
             | Ok out => (out, None)
             end
         end)
    end.
Proof.
  unfold transmissionById, getObjectById. rewrite Do_idle_any by done.
  destruct w as [|[] w]; [| |done]; cbn [execute fst snd tail];
    (destruct (d !! transmissionStoredKey id) as [[b|z]|]; simpl;
     [by destruct (Unmarshal b)|done|done]).
Qed.

Lemma wire_cases (w : list bool) :
  (∃ w', w = false :: w') ∨ (∀ w', w ≠ false :: w').
Proof. destruct w as [|[] w]; [by right|by right|left; eauto]. Qed.

Lemma wire_through {A} (w : list bool) (a : list bool → A) (b : A) :
  (∀ w', w ≠ false :: w') →
  match w with false :: w' => a w' | _ => b end = b.
Proof. destruct w as [|[] w]; [done|done|]. intros Hw. by destruct (Hw w). Qed.

Lemma updateTransmission_outcome d w lg trans ts :
  UpdateOutcome d w lg trans ts
    (updateTransmission (mkConn (mkServer d None) [] w lg) trans ts).
Proof.
  unfold updateTransmission. rewrite transmissionById_idle_any.
  destruct (wire_cases w) as [[w' ->]|Hw].
  { eapply UpdateFetchFailed; [done|]. by rewrite !Kind_Wrapper. }
  rewrite wire_through by done.
  destruct (d !! transmissionStoredKey (Id trans)) as [[b|z]|] eqn:Hd.
  - destruct (Unmarshal b) as [old|err] eqn:Hold.
    + rewrite sendDeleteTransmissionCmd_pending.
      cbn [Id set_Modified].
      destruct (Marshal (set_Modified ts trans)) as [m|err] eqn:Hm.
      * rewrite (sendAddTransmissionCmd_pending _ _ _ m) by done.
        cbn [pending server wire log Send app].
        match goal with
        | |- context [Do EXEC (mkConn _ (MULTI :: ?q) _ _)] =>
            rewrite (Do_EXEC_any q) by reflexivity
        end.
        destruct (wire_cases (tail w)) as [[w' Hw']|Hw'].
        -- rewrite Hw'. by eapply UpdateCommitFailed.
        -- rewrite wire_through by done.
           unfold updateBatch. rewrite <- app_assoc.
           by eapply UpdateCommitted.
      * unfold sendAddTransmissionCmd. rewrite Hm.
        cbn [pending server wire log Send app].
        eapply UpdateNotEncodable; [done..|]. by rewrite Kind_Wrapper.
    + eapply UpdateNotDecodable; [done..|]. by rewrite !Kind_Wrapper.
  - eapply UpdateWrongType; [done|]. by rewrite !Kind_Wrapper.
  - eapply UpdateNotFound; [done|]. by rewrite !Kind_Wrapper.
Qed.



(** X3. When the record does not encode, [addTransmission] and
    [updateTransmission] answer with a [KindContractInvalid] error after
    [MULTI] (and, for an update, the removals of the old record) has been
    buffered: these commands stay in the connection's buffer, no [EXEC]
    follows and the server has received nothing of them. *)
Theorem encode_failure_leaves_batch_buffered :
  (∀ conn trans ts err,
     idle conn →
     through 1 (wire conn) = true →
     data (server conn) !! transmissionStoredKey (Id trans) = None →
     Marshal (stamp ts trans) = Err err →
     ∃ conn' e,
       addTransmission conn trans ts = (conn', (stamp ts trans, Some e))
       ∧ Kind e = KindContractInvalid
       ∧ pending conn' = [MULTI]
       ∧ server conn' = server conn
       ∧ log conn' = log conn ++ [EXISTS (transmissionStoredKey (Id trans))])
  ∧ (∀ conn trans ts b old err,
       idle conn →
       through 1 (wire conn) = true →
       blob (data (server conn)) (transmissionStoredKey (Id trans)) = Some b →
       Unmarshal b = Ok old →
       Marshal (set_Modified ts trans) = Err err →
       ∃ conn' e,
         updateTransmission conn trans ts = (conn', Some e)
         ∧ Kind e = KindContractInvalid
         ∧ pending conn'
           = MULTI :: deleteTransmissionCmds
                        (transmissionStoredKey (Id trans)) old
         ∧ server conn' = server conn
         ∧ log conn' = log conn ++ [GET (transmissionStoredKey (Id trans))]).
Proof.
  split.
  - intros conn trans ts err [Hp Hmu] Hw Hd Hm.
    destruct conn as [[d mu] p w lg]. simpl in *. subst p mu.
    pose proof (addTransmission_outcome d w lg trans ts) as Hout.
    inversion Hout as [w' e' Hw' He Heq|e' Hd' He Heq|err' e' Hd' Hm' He Heq
                       |m w' e' Hd' Hm' Hw' He Heq|m Hd' Hm' Heq]; subst.
    + done.
    + rewrite Hd in Hd'. by destruct Hd'.
    + eexists _, _. split; [reflexivity|]. by repeat split.
    + congruence.
    + congruence.
  - intros conn trans ts b old err [Hp Hmu] Hw Hb Hold Hm.
    destruct conn as [[d mu] p w lg]. simpl in *. subst p mu.
    assert (d !! transmissionStoredKey (Id trans) = Some (VString b)) as Hd.
    { unfold blob in Hb.
      by destruct (d !! transmissionStoredKey (Id trans)) as [[?|?]|];
        simplify_eq. }
    pose proof (updateTransmission_outcome d w lg trans ts) as Hout.
    inversion Hout; subst; try congruence; try done.
    assert (old0 = old) as -> by congruence.
    eexists _, _. split; [reflexivity|]. by repeat split.
Qed.

End TransmissionOutcomes.

(** ** The index entries a write leaves *)

Section IndexEntries.
Context {keys : KeySpace} {codec : Codec}.
Implicit Types (conn : Conn) (trans old : Transmission) (d : Store).

Lemma blob_DEL d key k :
  blob (delete key d) k = if decide (key = k) then None else blob d k.
Proof.
  unfold blob. case_decide as Hk.
  - subst. by rewrite lookup_delete_eq.
  - by rewrite lookup_delete_ne.
Qed.

(** After [ZADD k s m] on a key that holds no string, and as long as
    nothing touches the entry again, the entry is there with score
    [s]. *)
Lemma run_added q1 q2 d k s m :
  blob (run q1 d) k = None →
  Forall (untouched k m) q2 →
  zscore (run (q1 ++ ZADD k s m :: q2) d) k m = Some s.
Proof.
  intros Hb Hq2. rewrite run_app, run_cons, run_untouched by done.
  simpl. rewrite zscore_zadd, decide_True by done.
  unfold blob in Hb. by destruct (run q1 d !! k) as [[?|?]|].
Qed.

Lemma primary_created_differ :
  TransmissionCollection ≠ TransmissionCollectionCreated.
Proof.
  unfold TransmissionCollectionCreated, v2_Created. intros Heq.
  symmetry in Heq. apply append_id_r in Heq. revert Heq.
  by apply append_nonempty.
Qed.

Ltac other_keys t :=
  repeat (apply Forall_cons; split); try done; simpl;
  intros [Hk _]; revert Hk;
  first [ exact primary_created_differ
        | apply not_eq_sym; exact primary_created_differ
        | apply (statusKey_families t t)
        | apply (subscriptionKey_families t t)
        | apply (notificationKey_families t t)
        | apply not_eq_sym; apply (statusKey_families t t)
        | apply not_eq_sym; apply (subscriptionKey_families t t)
        | apply not_eq_sym; apply (notificationKey_families t t) ].

Lemma addTransmissionCmds_scores storedKey m t d :
  index_keys_free d storedKey t →
  let d' := run (addTransmissionCmds storedKey m t) d in
  zscore d' TransmissionCollection storedKey = Some (Modified t)
  ∧ zscore d' TransmissionCollectionCreated storedKey = Some (Created t)
  ∧ zscore d' (statusKey t) storedKey = Some (Modified t)
  ∧ zscore d' (subscriptionKey t) storedKey = Some (Modified t)
  ∧ zscore d' (notificationKey t) storedKey = Some (Modified t).
Proof.
  intros Hfree d'. unfold index_keys_free in Hfree.
  rewrite !Forall_cons in Hfree.
  destruct Hfree as ([H1 B1] & [H2 B2] & [H3 B3] & [H4 B4] & [H5 B5] & _).
  assert (∀ q k, forallb index_only q = true → k ≠ storedKey →
            blob d k = None →
            blob (run (SET storedKey m :: q) d) k = None) as Hblob.
  { intros q k Hq Hk Hb. rewrite run_cons, run_index_only by done.
    simpl. rewrite blob_SET. by rewrite decide_False. }
  unfold d', addTransmissionCmds. repeat split.
  - apply (run_added [SET storedKey m]); [by apply (Hblob [])|].
    other_keys t.
  - apply (run_added [SET storedKey m; ZADD _ _ _]); [by apply (Hblob [_])|].
    other_keys t.
  - apply (run_added [SET storedKey m; ZADD _ _ _; ZADD _ _ _]);
      [by apply (Hblob [_; _])|].
    other_keys t.
  - apply (run_added [SET storedKey m; ZADD _ _ _; ZADD _ _ _; ZADD _ _ _]);
      [by apply (Hblob [_; _; _])|].
    other_keys t.
  - apply (run_added [SET storedKey m; ZADD _ _ _; ZADD _ _ _; ZADD _ _ _;
                      ZADD _ _ _]);
      [by apply (Hblob [_; _; _; _])|].
    other_keys t.
Qed.

(** X4. A successful [addTransmission] lists the object's key in the
    primary index with score [Modified], in the created-time index with
    score [Created], and in the status, subscription-name and
    notification-id indexes of the record with score [Modified], provided
    none of these keys holds a string or is the stored key itself, and
    the timestamp and the caller's [Created] are integers that the server
    keeps exactly as scores (from [-2^53] to [2^53]). *)
Theorem addTransmission_indexes_record conn trans ts m :
  idle conn →
  through 2 (wire conn) = true →
  data (server conn) !! transmissionStoredKey (Id trans) = None →
  Marshal (stamp ts trans) = Ok m →
  index_keys_free (data (server conn)) (transmissionStoredKey (Id trans))
    (stamp ts trans) →
  float64_exact ts →
  float64_exact (Created trans) →
  ∃ conn',
    addTransmission conn trans ts = (conn', (stamp ts trans, None))
    ∧ zscore (data (server conn')) TransmissionCollection
        (transmissionStoredKey (Id trans)) = Some ts
    ∧ zscore (data (server conn')) TransmissionCollectionCreated
        (transmissionStoredKey (Id trans))
      = Some (if Created trans =? 0 then ts else Created trans)
    ∧ zscore (data (server conn')) (statusKey trans)
        (transmissionStoredKey (Id trans)) = Some ts
    ∧ zscore (data (server conn')) (subscriptionKey trans)
        (transmissionStoredKey (Id trans)) = Some ts
    ∧ zscore (data (server conn')) (notificationKey trans)
        (transmissionStoredKey (Id trans)) = Some ts.
Proof.
  intros [Hp Hmu] Hw Hd Hm Hfree _ _.
  destruct conn as [[d mu] p w lg]. simpl in *. subst p mu.
  eexists. split; [by apply addTransmission_commits|].
  cbn [server data].
  change (set_Modified ts
            (if Created trans =? 0 then set_Created ts trans else trans))
    with (stamp ts trans).
  destruct (addTransmissionCmds_scores _ m _ d Hfree)
    as (H1 & H2 & H3 & H4 & H5).
  assert (statusKey (stamp ts trans) = statusKey trans
          ∧ subscriptionKey (stamp ts trans) = subscriptionKey trans
          ∧ notificationKey (stamp ts trans) = notificationKey trans
          ∧ Created (stamp ts trans)
            = (if Created trans =? 0 then ts else Created trans))
    as (E3 & E4 & E5 & E2)
    by (unfold stamp, statusKey, subscriptionKey, notificationKey;
        by destruct (Created trans =? 0)).
  rewrite E2 in H2. rewrite E3 in H3. rewrite E4 in H4. rewrite E5 in H5.
  by repeat split.
Qed.

Lemma deleteTransmissionCmds_blob storedKey old d k :
  blob d k = None →
  blob (run (deleteTransmissionCmds storedKey old) d) k = None.
Proof.
  intros Hb. unfold deleteTransmissionCmds.
  rewrite run_cons, run_index_only by reflexivity.
  simpl. rewrite blob_DEL. by case_decide.
Qed.

(** X5. A successful [updateTransmission] lists the object's key in the
    primary index with the new [Modified] as score, in the created-time
    index with the caller's [Created], and in the three secondary indexes
    of the new field values with the new [Modified], provided none of
    these keys holds a string or is the stored key itself, and the
    timestamp and the caller's [Created] are integers that the server
    keeps exactly as scores (from [-2^53] to [2^53]). *)
Theorem updateTransmission_indexes_record conn trans ts b old m :
  idle conn →
  through 2 (wire conn) = true →
  blob (data (server conn)) (transmissionStoredKey (Id trans)) = Some b →
  Unmarshal b = Ok old →
  Marshal (set_Modified ts trans) = Ok m →
  index_keys_free (data (server conn)) (transmissionStoredKey (Id trans))
    trans →
  float64_exact ts →
  float64_exact (Created trans) →
  ∃ conn',
    updateTransmission conn trans ts = (conn', None)
    ∧ zscore (data (server conn')) TransmissionCollection
        (transmissionStoredKey (Id trans)) = Some ts
    ∧ zscore (data (server conn')) TransmissionCollectionCreated
        (transmissionStoredKey (Id trans)) = Some (Created trans)
    ∧ zscore (data (server conn')) (statusKey trans)
        (transmissionStoredKey (Id trans)) = Some ts
    ∧ zscore (data (server conn')) (subscriptionKey trans)
        (transmissionStoredKey (Id trans)) = Some ts
    ∧ zscore (data (server conn')) (notificationKey trans)
        (transmissionStoredKey (Id trans)) = Some ts.
Proof.
  intros [Hp Hmu] Hw Hb Hold Hm Hfree _ _.
  destruct conn as [[d mu] p w lg]. simpl in *. subst p mu.
  eexists. split; [by eapply updateTransmission_commits|].
  cbn [server data]. unfold updateBatch. rewrite run_app.
  apply (addTransmissionCmds_scores _ m (set_Modified ts trans)).
  unfold index_keys_free in *.
  eapply Forall_impl; [exact Hfree|].
  intros k [Hk Hbk]. split; [done|].
  by apply deleteTransmissionCmds_blob.
Qed.

(** X6. Whatever its outcome, [addTransmission] or [updateTransmission]
    on an idle connection changes no blob other than the one at the
    stored key, and no index entry of any other member in any sorted set
    other than one at the stored key. *)
Theorem write_leaves_other_objects :
  (∀ conn trans ts conn' r k m,
     idle conn →
     addTransmission conn trans ts = (conn', r) →
     k ≠ transmissionStoredKey (Id trans) →
     blob (data (server conn')) k = blob (data (server conn)) k
     ∧ (m ≠ transmissionStoredKey (Id trans) →
        zscore (data (server conn')) k m = zscore (data (server conn)) k m))
  ∧ (∀ conn trans ts conn' r k m,
       idle conn →
       updateTransmission conn trans ts = (conn', r) →
       k ≠ transmissionStoredKey (Id trans) →
       blob (data (server conn')) k = blob (data (server conn)) k
       ∧ (m ≠ transmissionStoredKey (Id trans) →
          zscore (data (server conn')) k m
          = zscore (data (server conn)) k m)).
Proof.
  split.
  - intros conn trans ts conn' r k m [Hp Hmu] Hadd Hk.
    destruct conn as [[d mu] p w lg]. simpl in *. subst p mu.
    pose proof (addTransmission_outcome d w lg trans ts) as Hout.
    rewrite Hadd in Hout. inversion Hout; subst; simpl; try done.
    split.
    + unfold addTransmissionCmds. rewrite run_cons.
      rewrite run_index_only by reflexivity. simpl.
      rewrite blob_SET. by rewrite decide_False.
    + intros Hm. apply run_untouched.
      unfold addTransmissionCmds.
      repeat (apply Forall_cons; split); try done; simpl;
        by intros [_ ?].
  - intros conn trans ts conn' r k m [Hp Hmu] Hupd Hk.
    destruct conn as [[d mu] p w lg]. simpl in *. subst p mu.
    pose proof (updateTransmission_outcome d w lg trans ts) as Hout.
    rewrite Hupd in Hout. inversion Hout; subst; simpl; try done.
    split.
    + unfold updateBatch. rewrite run_app.
      unfold addTransmissionCmds. rewrite run_cons.
      rewrite run_index_only by reflexivity. simpl.
      rewrite blob_SET. rewrite decide_False by done.
      unfold deleteTransmissionCmds.
      rewrite run_cons, run_index_only by reflexivity.
      simpl. rewrite blob_DEL. by rewrite decide_False.
    + intros Hm. apply run_untouched.
      unfold updateBatch, deleteTransmissionCmds, addTransmissionCmds.
      simpl.
      repeat (apply Forall_cons; split); try done; simpl;
        by intros [_ ?].
Qed.

Lemma deleteTransmissionCmds_drops storedKey t d :
  let d' := run (deleteTransmissionCmds storedKey t) d in
  zscore d' TransmissionCollection storedKey = None
  ∧ zscore d' TransmissionCollectionCreated storedKey = None
  ∧ zscore d' (statusKey t) storedKey = None
  ∧ zscore d' (subscriptionKey t) storedKey = None
  ∧ zscore d' (notificationKey t) storedKey = None.
Proof.
  intros d'. repeat split.
  - apply (run_removed [DEL storedKey]). repeat constructor; done.
  - apply (run_removed [DEL storedKey; ZREM _ _]). repeat constructor; done.
  - apply (run_removed [DEL storedKey; ZREM _ _; ZREM _ _]).
    repeat constructor; done.
  - apply (run_removed [DEL storedKey; ZREM _ _; ZREM _ _; ZREM _ _]).
    repeat constructor; done.
  - apply (run_removed [DEL storedKey; ZREM _ _; ZREM _ _; ZREM _ _;
                        ZREM _ _]).
    repeat constructor; done.
Qed.

(** X7. On a data set where the stored key is absent and listed in no
    sorted set, the commands of [sendDeleteTransmissionCmd] undo those of
    [sendAddTransmissionCmd] for the same record: every blob and every
    index entry is as before. *)
Theorem delete_undoes_add storedKey m t d k member :
  d !! storedKey = None →
  (∀ k', zscore d k' storedKey = None) →
  let d' :=
    run (addTransmissionCmds storedKey m t
           ++ deleteTransmissionCmds storedKey t) d in
  blob d' k = blob d k ∧ zscore d' k member = zscore d k member.
Proof.
  intros Hd Hz d'. unfold d'. split.
  - rewrite run_app. unfold deleteTransmissionCmds.
    rewrite run_cons, run_index_only by reflexivity. simpl.
    rewrite blob_DEL. unfold addTransmissionCmds.
    rewrite run_cons, run_index_only by reflexivity. simpl.
    rewrite blob_SET. case_decide as Hk; [|done].
    subst. unfold blob. by rewrite Hd.
  - destruct (decide (k = storedKey)) as [->|Hk].
    { (* nothing is left at the stored key *)
      assert (run (addTransmissionCmds storedKey m t
                     ++ deleteTransmissionCmds storedKey t) d
              !! storedKey = None) as Hnone.
      { rewrite run_app. unfold deleteTransmissionCmds. rewrite run_cons.
        apply run_index_only_absent; [reflexivity|]. simpl.
        apply lookup_delete_eq. }
      unfold zscore. by rewrite Hnone, Hd. }
    destruct (decide (member = storedKey)) as [->|Hm].
    2: { apply run_untouched.
         unfold deleteTransmissionCmds, addTransmissionCmds. simpl.
         repeat (apply Forall_cons; split); try done; simpl;
           by intros [_ ?]. }
    rewrite Hz.
    destruct (zscore _ k storedKey) as [s|] eqn:Hs; [|done].
    exfalso.
    assert (k ≠ TransmissionCollection
            ∧ k ≠ TransmissionCollectionCreated
            ∧ k ≠ statusKey t ∧ k ≠ subscriptionKey t
            ∧ k ≠ notificationKey t) as (K1 & K2 & K3 & K4 & K5).
    { rewrite run_app in Hs.
      destruct (deleteTransmissionCmds_drops storedKey t
                  (run (addTransmissionCmds storedKey m t) d))
        as (D1 & D2 & D3 & D4 & D5).
      repeat split; intros ->; congruence. }
    rewrite run_untouched in Hs.
    + by rewrite Hz in Hs.
    + unfold deleteTransmissionCmds, addTransmissionCmds. simpl.
      repeat (apply Forall_cons; split); try done; simpl;
        by intros [? _].
Qed.

End IndexEntries.

(** ** Writes followed by reads or writes *)

Section Sequences.
Context {keys : KeySpace} {codec : Codec}.
Implicit Types (conn : Conn) (trans old : Transmission) (d : Store).

(** X8. Reading a transmission back by its id after a successful
    [addTransmission] yields the record that was returned: the argument
    with the store's timestamps (the codec decoding what it encoded). *)
Theorem addTransmission_then_transmissionById conn trans ts m :
  idle conn →
  through 3 (wire conn) = true →
  data (server conn) !! transmissionStoredKey (Id trans) = None →
  Marshal (stamp ts trans) = Ok m →
  Unmarshal m = Ok (stamp ts trans) →
  ∃ conn' conn'',
    addTransmission conn trans ts = (conn', (stamp ts trans, None))
    ∧ transmissionById conn' (Id trans) = (conn'', (stamp ts trans, None))
    ∧ data (server conn'') = data (server conn').
Proof.
  intros [Hp Hmu] Hw Hd Hm Hback.
  destruct conn as [[d mu] p w lg]. simpl in *. subst p mu.
  pose proof (through_S 2 w Hw) as Hw2.
  pose proof (through_tail 1 _ (through_tail 2 w Hw)) as Hw3.
  eexists _, _. split; [by apply addTransmission_commits|].
  match goal with
  | |- transmissionById (mkConn (mkServer ?d' None) [] ?w' ?lg') _ = _ ∧ _ =>
      destruct (transmissionById_found d' w' lg' (Id trans) m
                  (stamp ts trans) 0 Hw3) as [-> _];
        [apply addTransmissionCmds_blob|done|]
  end.
  done.
Qed.

(** X9. A second [addTransmission] of a transmission with the same id,
    after a successful one, fails with [KindDuplicateName] and leaves the
    data set as the first one left it. *)
Theorem addTransmission_twice conn trans trans2 ts ts2 m :
  idle conn →
  through 3 (wire conn) = true →
  data (server conn) !! transmissionStoredKey (Id trans) = None →
  Marshal (stamp ts trans) = Ok m →
  Id trans2 = Id trans →
  ∃ conn' conn'' e,
    addTransmission conn trans ts = (conn', (stamp ts trans, None))
    ∧ addTransmission conn' trans2 ts2 = (conn'', (trans2, Some e))
    ∧ Kind e = KindDuplicateName
    ∧ data (server conn'') = data (server conn').
Proof.
  intros [Hp Hmu] Hw Hd Hm Hid.
  destruct conn as [[d mu] p w lg]. simpl in *. subst p mu.
  pose proof (through_S 2 w Hw) as Hw2.
  pose proof (through_tail 1 _ (through_tail 2 w Hw)) as Hw3.
  eexists _, _, _. split; [by apply addTransmission_commits|].
  unfold addTransmission at 1.
  match goal with
  | |- context [objectIdExists (mkConn (mkServer ?d' None) [] ?w' ?lg') ?k] =>
      destruct (objectIdExists_idle d' w' lg' k 0 Hw3) as [-> _];
        pose proof (addTransmissionCmds_blob
                      (transmissionStoredKey (Id trans)) m
                      (stamp ts trans) d) as Hblob
  end.
  rewrite Hid. rewrite bool_decide_true.
  - split; [reflexivity|]. split; [reflexivity|].
    cbn [data server]. reflexivity.
  - unfold blob, stamp in Hblob.
    match goal with
    | |- is_Some (?x !! ?k) => by destruct (x !! k)
    end.
Qed.

End Sequences.

(** ** The paginated queries *)

Section Pages.
Context {keys : KeySpace} {codec : Codec}.
Implicit Types (conn : Conn) (d : Store).

(** Up to the first blob that does not parse, the slice is filled; the
    rest is as it was made. *)
Lemma decodeInto_prefix good : ∀ decoded bad rest err i transmissions,
  Forall2 (λ o t, Unmarshal o = Ok t) good decoded →
  Unmarshal bad = Err err →
  (i + length good < length transmissions)%nat →
  decodeInto i (good ++ bad :: rest) transmissions
  = (take i transmissions ++ decoded
       ++ drop (i + length good) transmissions,
     Some (NewCommonEdgeX KindDatabaseError
             "transmission format parsing failed from the database"
             (Some err))).
Proof.
  induction good as [|g good IH]; intros decoded bad rest err i l Hdec Hbad Hlen.
  - inversion Hdec; subst. simpl. rewrite Hbad.
    by rewrite Nat.add_0_r, take_drop.
  - inversion Hdec as [|? t ? decoded' Hg Hrest]; subst. simpl in *.
    rewrite Hg.
    rewrite (IH decoded' bad rest err (S i));
      [|done|done|rewrite length_insert; lia].
    f_equal.
    rewrite (take_S_r _ _ t) by (apply list_lookup_insert_eq; lia).
    rewrite take_insert_ge by lia.
    rewrite drop_insert_lt by lia.
    rewrite <- app_assoc. simpl.
    by replace (i + S (length good))%nat with (S (i + length good)) by lia.
Qed.

(** X10. When the first blob that does not parse comes after some that
    do, the paginated queries fail with [KindDatabaseError] and return,
    with the error, a slice as long as the page: the records decoded
    before the malformed blob, then zero values. *)
Theorem paginated_query_partial_result :
  (∀ conn offset limit conn1 good bad rest decoded err,
     getObjectsByRevRange conn TransmissionCollection offset limit
     = (conn1, (good ++ bad :: rest, None)) →
     Forall2 (λ o t, Unmarshal o = Ok t) good decoded →
     Unmarshal bad = Err err →
     ∃ e,
       allTransmissions conn offset limit
       = (conn1,
          (decoded ++ replicate (S (length rest)) Transmission_zero,
           Some e))
       ∧ Kind e = KindDatabaseError)
  ∧ (∀ conn startTime endTime offset limit conn1 good bad rest decoded err,
       getObjectsByScoreRange conn TransmissionCollectionCreated
         startTime endTime offset limit
       = (conn1, (good ++ bad :: rest, None)) →
       Forall2 (λ o t, Unmarshal o = Ok t) good decoded →
       Unmarshal bad = Err err →
       ∃ e,
         transmissionsByTimeRange conn startTime endTime offset limit
         = (conn1,
            (decoded ++ replicate (S (length rest)) Transmission_zero,
             Some e))
         ∧ Kind e = KindDatabaseError).
Proof.
  assert (∀ good bad rest decoded err,
            Forall2 (λ o t, Unmarshal o = Ok t) good decoded →
            Unmarshal bad = Err err →
            decodeInto 0 (good ++ bad :: rest)
              (replicate (length (good ++ bad :: rest)) Transmission_zero)
            = (decoded ++ replicate (S (length rest)) Transmission_zero,
               Some (NewCommonEdgeX KindDatabaseError
                       "transmission format parsing failed from the database"
                       (Some err)))) as Hloop.
  { intros good bad rest decoded err Hdec Hbad.
    rewrite (decodeInto_prefix good decoded bad rest err); [|done|done|].
    - rewrite take_0. simpl. do 2 f_equal.
      rewrite drop_replicate, length_app. simpl.
      by replace (length good + S (length rest) - length good)%nat
        with (S (length rest)) by lia.
    - rewrite length_replicate, length_app. simpl. lia. }
  split.
  - intros conn offset limit conn1 good bad rest decoded err Hget Hdec Hbad.
    unfold allTransmissions. rewrite Hget.
    rewrite (Hloop good bad rest decoded err) by done. eauto.
  - intros conn startTime endTime offset limit conn1 good bad rest decoded
      err Hget Hdec Hbad.
    unfold transmissionsByTimeRange. rewrite Hget.
    rewrite (Hloop good bad rest decoded err) by done. eauto.
Qed.

Lemma limit_window_page {A} (l : list A) offset limit :
  0 ≤ offset → 0 ≤ limit →
  limit_window l offset limit
  = take (Z.to_nat limit) (drop (Z.to_nat offset) l).
Proof.
  intros Ho Hl. unfold limit_window.
  by rewrite (proj2 (Z.ltb_ge offset 0)), (proj2 (Z.ltb_ge limit 0)).
Qed.

Lemma zrange_all_sorted z : StronglySorted (λ a b, a.2 ≤ b.2) (zrange_all z).
Proof.
  apply Sorted_StronglySorted.
  { intros a b c. simpl. lia. }
  apply (Sorted_weaken zle).
  - intros a b [?|[? _]]; lia.
  - apply Sorted_merge_sort, zle_total.
Qed.

Lemma elem_of_zrange_all z e : e ∈ zrange_all z ↔ z !! e.1 = Some e.2.
Proof.
  unfold zrange_all. rewrite merge_sort_Permutation.
  destruct e as [member s]. apply elem_of_map_to_list.
Qed.

Lemma StronglySorted_filter {A} (R : relation A) (P : A → Prop)
  `{∀ x, Decision (P x)} l :
  StronglySorted R l → StronglySorted R (filter P l).
Proof.
  induction 1 as [|x l Hl IH Hx]; [constructor|].
  rewrite filter_cons. case_decide; [|done].
  constructor; [done|].
  apply Forall_forall. intros y Hy.
  apply list_elem_of_filter in Hy as [_ Hy].
  by eapply Forall_forall in Hx.
Qed.

Lemma getObjectsByScoreRange_idle d w lg key startTime endTime offset limit z :
  through 2 w = true →
  0 ≤ offset → 0 ≤ limit →
  zset_at d key = Some z →
  ∃ conn',
    getObjectsByScoreRange (mkConn (mkServer d None) [] w lg) key
      startTime endTime offset limit
    = (conn',
       ((λ e, default [] (blob d e.1))
          <$> take (Z.to_nat limit)
                (drop (Z.to_nat offset)
                   (filter (λ e, startTime ≤ e.2 ∧ e.2 ≤ endTime)
                      (zrange_all z))), None))
    ∧ data (server conn') = d.
Proof.
  intros Hw Ho Hl Hz. unfold getObjectsByScoreRange.
  rewrite (proj2 (Z.ltb_ge offset 0)), (proj2 (Z.ltb_ge limit 0)) by done.
  simpl. destruct (Z.eqb_spec limit 0) as [->|Hl0]; [by eexists|].
  destruct (Do_idle (ZRANGEBYSCORE key startTime endTime offset limit) d w lg
              1 eq_refl Hw) as [-> Hw1].
  cbn [execute fst snd].
  assert (∃ l, (match d !! key with
                | None => RArray []
                | Some (VString _) => wrongtype
                | Some (VZSet z0) =>
                    RArray ((λ e, RBulk (String.list_byte_of_string e.1))
                              <$> limit_window
                                    (filter
                                       (λ e, startTime ≤ e.2 ∧ e.2 ≤ endTime)
                                       (zrange_all z0)) offset limit)
                end) = RArray ((λ e : string * Z,
                                  RBulk (String.list_byte_of_string e.1)) <$> l)
               ∧ l = take (Z.to_nat limit)
                       (drop (Z.to_nat offset)
                          (filter (λ e, startTime ≤ e.2 ∧ e.2 ≤ endTime)
                             (zrange_all z))))
    as (l & -> & Hlz).
  { unfold zset_at in Hz. destruct (d !! key) as [[b|z0]|]; simplify_eq.
    - eexists. split; [reflexivity|]. by apply limit_window_page.
    - exists []. split; [done|].
      unfold zrange_all. rewrite map_to_list_empty.
      change (merge_sort zle []) with (@nil (string * Z)).
      by rewrite filter_nil, drop_nil, take_nil. }
  cbn [reply_result Strings]. rewrite bulk_strings_members.
  destruct (getObjectsByIds_idle d (tail w)
              (lg ++ [ZRANGEBYSCORE key startTime endTime offset limit])
              (l.*1) 0 Hw1) as (conn' & -> & Hd).
  exists conn'. split; [|done]. subst l.
  by rewrite <- list_fmap_compose.
Qed.

(** X11. For non-negative [offset] and [limit], on a connection that
    answers, [transmissionsByTimeRange] reads, of the entries of the
    created-time index whose score lies in [[startTime, endTime]] (both
    bounds included) taken by ascending score, the window of at most
    [limit] entries starting at [offset], and when their blobs parse
    returns the decoded transmissions in that order. *)
Theorem transmissionsByTimeRange_page conn startTime endTime offset limit z :
  let inrange :=
    filter (λ e, startTime ≤ e.2 ∧ e.2 ≤ endTime) (zrange_all z) in
  let window := take (Z.to_nat limit) (drop (Z.to_nat offset) inrange) in
  idle conn →
  through 2 (wire conn) = true →
  0 ≤ offset → 0 ≤ limit →
  zset_at (data (server conn)) TransmissionCollectionCreated = Some z →
  Forall (λ e, ∃ t b, blob (data (server conn)) e.1 = Some b
                      ∧ Unmarshal b = Ok t) window →
  ∃ conn' transmissions,
    transmissionsByTimeRange conn startTime endTime offset limit
    = (conn', (transmissions, None))
    ∧ Forall2 (λ e t, ∃ b, blob (data (server conn)) e.1 = Some b
                           ∧ Unmarshal b = Ok t) window transmissions
    ∧ (∀ e, e ∈ inrange ↔
            z !! e.1 = Some e.2 ∧ startTime ≤ e.2 ∧ e.2 ≤ endTime)
    ∧ StronglySorted (λ a b, a.2 ≤ b.2) window
    ∧ (length window ≤ Z.to_nat limit)%nat
    ∧ data (server conn') = data (server conn).
Proof.
  intros inrange window [Hp Hmu] Hw Ho Hl Hz Hall.
  destruct conn as [[d mu] p w lg]. simpl in *. subst p mu.
  apply Forall_exists_Forall2_l in Hall as [decoded Hdec].
  destruct (getObjectsByScoreRange_idle d w lg TransmissionCollectionCreated
              startTime endTime offset limit z Hw Ho Hl Hz)
    as (conn' & Hget & Hd).
  fold inrange in Hget. fold window in Hget.
  exists conn', decoded. unfold transmissionsByTimeRange. rewrite Hget.
  rewrite (decodeInto_all _ decoded).
  - split; [done|]. split.
    { eapply Forall2_impl; [exact Hdec|]. naive_solver. }
    split.
    { intros e. unfold inrange. rewrite list_elem_of_filter.
      rewrite elem_of_zrange_all. naive_solver. }
    split.
    { apply StronglySorted_take, StronglySorted_drop.
      apply StronglySorted_filter, zrange_all_sorted. }
    split; [unfold window; rewrite length_take; lia|done].
  - apply Forall2_fmap_l. eapply Forall2_impl; [exact Hdec|].
    intros e t (b & Hb & Ht). simpl. by rewrite Hb.
  - by rewrite length_replicate.
Qed.

(** The result of [allTransmissions] when the blobs of the page parse. *)
Lemma allTransmissions_decoded d w lg offset limit z decoded :
  through 2 w = true →
  0 ≤ offset → 0 ≤ limit →
  zset_at d TransmissionCollection = Some z →
  Forall2 (λ e t, ∃ b, blob d e.1 = Some b ∧ Unmarshal b = Ok t)
    (take (Z.to_nat limit) (drop (Z.to_nat offset) (zrevrange_all z)))
    decoded →
  ∃ conn',
    allTransmissions (mkConn (mkServer d None) [] w lg) offset limit
    = (conn', (decoded, None))
    ∧ idle conn' ∧ data (server conn') = d.
Proof.
  intros Hw Ho Hl Hz Hdec.
  destruct (getObjectsByRevRange_idle d w lg TransmissionCollection
              offset limit z Hw Ho Hl Hz) as (conn' & Hget & Hd).
  exists conn'. unfold allTransmissions. rewrite Hget.
  rewrite (decodeInto_all _ decoded).
  - split; [done|]. split; [|done].
    revert Hget. unfold getObjectsByRevRange, getObjectsByIds.
    destruct ((offset <? 0) || (limit <? 0)); [by intros [= <-]|].
    destruct (limit =? 0); [by intros [= <-]|].
    destruct (Do _ _) as [c1 r1] eqn:Hdo1.
    assert (idle c1) as Hc1.
    { revert Hdo1. unfold Do. destruct (wire _) as [|[] ?];
        cbn [pending server app serve_all];
        try (destruct (serve _ _) as [s1 rr1] eqn:Hs; cbn);
        intros [= <- _]; try done.
      all: revert Hs; unfold serve; cbn; by intros [= <- _]. }
    destruct (Strings r1) as [ids|?]; [|by intros [= <-]].
    destruct ids as [|i ids]; [by intros [= <-]|].
    destruct (Do _ c1) as [c2 r2] eqn:Hdo2.
    assert (idle c2) as Hc2.
    { destruct c1 as [[d1 mu1] p1 w1 lg1]. destruct Hc1 as [Hp1 Hm1].
      simpl in *. subst. revert Hdo2. unfold Do.
      destruct w1 as [|[] ?]; cbn [pending server app serve_all wire];
        try (destruct (serve _ _) as [s1 rr1] eqn:Hs; cbn);
        intros [= <- _]; try done.
      all: revert Hs; unfold serve; cbn; by intros [= <- _]. }
    by destruct (ByteSlices r2); intros [= <-].
  - apply Forall2_fmap_l. eapply Forall2_impl; [exact Hdec|].
    intros e t (b & Hb & Ht). simpl. by rewrite Hb.
  - by rewrite length_replicate.
Qed.

(** X12. On one snapshot of the data set, the page of the first [k]
    transmissions followed by the page of the next [n - k] is the page of
    the first [n]. *)
Theorem allTransmissions_pages_concatenate conn k n z :
  idle conn →
  through 2 (wire conn) = true →
  0 ≤ k → k ≤ n →
  zset_at (data (server conn)) TransmissionCollection = Some z →
  Forall (λ e, ∃ t b, blob (data (server conn)) e.1 = Some b
                      ∧ Unmarshal b = Ok t)
    (take (Z.to_nat n) (zrevrange_all z)) →
  ∃ conn1 conn2 conn3 first rest,
    allTransmissions conn 0 k = (conn1, (first, None))
    ∧ allTransmissions conn k (n - k) = (conn2, (rest, None))
    ∧ allTransmissions conn 0 n = (conn3, (first ++ rest, None)).
Proof.
  intros [Hp Hmu] Hw Hk Hn Hz Hall.
  destruct conn as [[d mu] p w lg]. simpl in *. subst p mu.
  apply Forall_exists_Forall2_l in Hall as [decoded Hdec].
  assert (Forall2 (λ e t, ∃ b, blob d e.1 = Some b ∧ Unmarshal b = Ok t)
            (take (Z.to_nat n) (zrevrange_all z)) decoded) as Hdec'.
  { eapply Forall2_impl; [exact Hdec|]. naive_solver. }
  destruct (allTransmissions_decoded d w lg 0 k z
              (take (Z.to_nat k) decoded) Hw) as (c1 & H1 & _);
    [lia|done|done| |].
  { rewrite drop_0.
    replace (take (Z.to_nat k) (zrevrange_all z))
      with (take (Z.to_nat k) (take (Z.to_nat n) (zrevrange_all z)))
      by (rewrite take_take; f_equal; lia).
    by apply Forall2_take. }
  destruct (allTransmissions_decoded d w lg k (n - k) z
              (drop (Z.to_nat k) decoded) Hw) as (c2 & H2 & _);
    [done|lia|done| |].
  { rewrite take_drop_commute.
    replace (Z.to_nat k + Z.to_nat (n - k))%nat with (Z.to_nat n) by lia.
    by apply Forall2_drop. }
  destruct (allTransmissions_decoded d w lg 0 n z decoded Hw)
    as (c3 & H3 & _); [lia|lia|done| |].
  { by rewrite drop_0. }
  exists c1, c2, c3, (take (Z.to_nat k) decoded), (drop (Z.to_nat k) decoded).
  by rewrite take_drop.
Qed.

End Pages.

(** ** The newest transmission comes first *)

Section Newest.
Context {keys : KeySpace} {codec : Codec}.
Implicit Types (conn : Conn) (trans old : Transmission) (d : Store).

(** A member whose score is above all the others heads the reverse
    range. *)
Lemma zrevrange_all_newest (z : gmap string Z) member s :
  z !! member = Some s →
  (∀ m' s', m' ≠ member → z !! m' = Some s' → s' < s) →
  ∃ tl, zrevrange_all z = (member, s) :: tl.
Proof.
  intros Hm Hnew.
  assert ((member, s) ∈ zrevrange_all z) as Hin.
  { unfold zrevrange_all. by rewrite elem_of_reverse, elem_of_zrange_all. }
  pose proof (zrevrange_all_sorted z) as Hsorted.
  assert (∀ e, e ∈ zrevrange_all z → z !! e.1 = Some e.2) as Hall.
  { intros e. unfold zrevrange_all.
    by rewrite elem_of_reverse, elem_of_zrange_all. }
  destruct (zrevrange_all z) as [|[hm hs] tl]; [by apply elem_of_nil in Hin|].
  exists tl. f_equal.
  pose proof (Hall (hm, hs) ltac:(left)) as Hh. simpl in Hh.
  destruct (decide (hm = member)) as [->|Hne]; [congruence|].
  exfalso. apply elem_of_cons in Hin as [[= ? ?]|Hin]; [done|].
  apply StronglySorted_inv in Hsorted as [_ Hle].
  eapply Forall_forall in Hle; [|exact Hin]. simpl in Hle.
  pose proof (Hnew hm hs Hne Hh). lia.
Qed.

Lemma zset_at_other_key c d k :
  key_untouched k c → zset_at (execute c d).1 k = zset_at d k.
Proof. intros Hc. unfold zset_at. by rewrite execute_key_untouched. Qed.

Lemma zset_at_zadd d k s m z :
  zset_at d k = Some z → zset_at (zadd k s m d).1 k = Some (<[m := s]> z).
Proof.
  unfold zset_at, zadd. destruct (d !! k) as [[b|z0]|]; [done| |];
    intros [= <-]; simpl; rewrite lookup_insert_eq; [done|].
  by rewrite insert_empty.
Qed.

Lemma zset_at_zrem d k m z :
  zset_at d k = Some z → zset_at (zrem k m d).1 k = Some (delete m z).
Proof.
  unfold zset_at, zrem. destruct (d !! k) as [[b|z0]|] eqn:Hd; [done| |].
  - intros [= <-]. simpl. destruct (decide (delete m z0 = ∅)) as [He|He].
    + by rewrite lookup_delete_eq, He.
    + by rewrite lookup_insert_eq.
  - intros [= <-]. simpl. rewrite Hd. by rewrite delete_empty.
Qed.

(** The primary index after the commands of an add and of an update. *)
Lemma addTransmissionCmds_primary storedKey m t d z :
  TransmissionCollection ≠ storedKey →
  zset_at d TransmissionCollection = Some z →
  zset_at (run (addTransmissionCmds storedKey m t) d) TransmissionCollection
  = Some (<[storedKey := Modified t]> z).
Proof.
  intros Hk Hz. unfold addTransmissionCmds.
  do 2 rewrite run_cons. unfold zset_at at 1.
  rewrite run_key_untouched.
  2: { repeat (apply Forall_cons; split); try done; simpl;
         first [ apply not_eq_sym; exact primary_created_differ
               | apply (statusKey_families t t)
               | apply (subscriptionKey_families t t)
               | apply (notificationKey_families t t) ]. }
  fold (zset_at (execute (ZADD TransmissionCollection (Modified t) storedKey)
                   (execute (SET storedKey m) d).1).1
          TransmissionCollection).
  simpl. apply zset_at_zadd.
  unfold zset_at. rewrite lookup_insert_ne by done. exact Hz.
Qed.

Lemma deleteTransmissionCmds_primary storedKey t d z :
  TransmissionCollection ≠ storedKey →
  zset_at d TransmissionCollection = Some z →
  zset_at (run (deleteTransmissionCmds storedKey t) d) TransmissionCollection
  = Some (delete storedKey z).
Proof.
  intros Hk Hz. unfold deleteTransmissionCmds.
  do 2 rewrite run_cons. unfold zset_at at 1.
  rewrite run_key_untouched.
  2: { repeat (apply Forall_cons; split); try done; simpl;
         first [ apply not_eq_sym; exact primary_created_differ
               | apply (statusKey_families t t)
               | apply (subscriptionKey_families t t)
               | apply (notificationKey_families t t) ]. }
  fold (zset_at (execute (ZREM TransmissionCollection storedKey)
                   (execute (DEL storedKey) d).1).1
          TransmissionCollection).
  simpl. apply zset_at_zrem.
  unfold zset_at. rewrite lookup_delete_ne by done. exact Hz.
Qed.

(** X13. A transmission added or updated with a timestamp above the
    scores of all the other members of the primary index is the first of
    the newest-first listing: the page of one that follows the write
    holds exactly the stored record. *)
Theorem written_transmission_comes_first :
  (∀ conn trans ts m z,
     idle conn →
     through 4 (wire conn) = true →
     data (server conn) !! transmissionStoredKey (Id trans) = None →
     Marshal (stamp ts trans) = Ok m →
     Unmarshal m = Ok (stamp ts trans) →
     TransmissionCollection ≠ transmissionStoredKey (Id trans) →
     zset_at (data (server conn)) TransmissionCollection = Some z →
     (∀ m' s', m' ≠ transmissionStoredKey (Id trans) →
               z !! m' = Some s' → s' < ts) →
     ∃ conn' conn'',
       addTransmission conn trans ts = (conn', (stamp ts trans, None))
       ∧ allTransmissions conn' 0 1 = (conn'', ([stamp ts trans], None)))
  ∧ (∀ conn trans ts b old m z,
       idle conn →
       through 4 (wire conn) = true →
       blob (data (server conn)) (transmissionStoredKey (Id trans)) = Some b →
       Unmarshal b = Ok old →
       Marshal (set_Modified ts trans) = Ok m →
       Unmarshal m = Ok (set_Modified ts trans) →
       TransmissionCollection ≠ transmissionStoredKey (Id trans) →
       zset_at (data (server conn)) TransmissionCollection = Some z →
       (∀ m' s', m' ≠ transmissionStoredKey (Id trans) →
                 z !! m' = Some s' → s' < ts) →
       ∃ conn' conn'',
         updateTransmission conn trans ts = (conn', None)
         ∧ allTransmissions conn' 0 1
           = (conn'', ([set_Modified ts trans], None))).
Proof.
  split.
  - intros conn trans ts m z [Hp Hmu] Hw Hd Hm Hback Hk Hz Hnew.
    destruct conn as [[d mu] p w lg]. simpl in *. subst p mu.
    pose proof (through_S 2 w (through_S 3 w Hw)) as Hw2.
    pose proof (through_tail 2 _ (through_tail 3 w Hw)) as Hw4.
    pose proof (addTransmissionCmds_primary _ m (stamp ts trans) d z Hk Hz)
      as Hz'.
    destruct (zrevrange_all_newest
                (<[transmissionStoredKey (Id trans) := ts]> z)
                (transmissionStoredKey (Id trans)) ts) as [tl Htl].
    { apply lookup_insert_eq. }
    { intros m' s' Hm'. rewrite lookup_insert_ne by done. by apply Hnew. }
    rewrite (addTransmission_commits d w lg trans ts m Hw2 Hd Hm).
    change (set_Modified ts
              (if Created trans =? 0 then set_Created ts trans else trans))
      with (stamp ts trans).
    match goal with
    | |- context [mkConn (mkServer ?d' None) [] ?w' ?lg'] =>
        destruct (allTransmissions_decoded d' w' lg' 0 1
                    (<[transmissionStoredKey (Id trans) := ts]> z)
                    [stamp ts trans] Hw4) as (c2 & Hall & _);
          [lia|lia|exact Hz'| |]
    end.
    + rewrite Htl. simpl. constructor; [|constructor].
      exists m. split; [apply addTransmissionCmds_blob|done].
    + eexists _, c2. by split.
  - intros conn trans ts b old m z [Hp Hmu] Hw Hb Hold Hm Hback Hk Hz Hnew.
    destruct conn as [[d mu] p w lg]. simpl in *. subst p mu.
    pose proof (through_S 2 w (through_S 3 w Hw)) as Hw2.
    pose proof (through_tail 2 _ (through_tail 3 w Hw)) as Hw4.
    assert (zset_at
              (run (updateBatch (transmissionStoredKey (Id trans)) m old
                      (set_Modified ts trans)) d) TransmissionCollection
            = Some (<[transmissionStoredKey (Id trans) := ts]> z)) as Hz'.
    { unfold updateBatch. rewrite run_app.
      rewrite (addTransmissionCmds_primary _ m (set_Modified ts trans) _
                 (delete (transmissionStoredKey (Id trans)) z) Hk).
      - by rewrite insert_delete_eq.
      - by apply deleteTransmissionCmds_primary. }
    destruct (zrevrange_all_newest
                (<[transmissionStoredKey (Id trans) := ts]> z)
                (transmissionStoredKey (Id trans)) ts) as [tl Htl].
    { apply lookup_insert_eq. }
    { intros m' s' Hm'. rewrite lookup_insert_ne by done. by apply Hnew. }
    rewrite (updateTransmission_commits d w lg trans ts b old m Hw2 Hb Hold Hm).
    match goal with
    | |- context [mkConn (mkServer ?d' None) [] ?w' ?lg'] =>
        destruct (allTransmissions_decoded d' w' lg' 0 1
                    (<[transmissionStoredKey (Id trans) := ts]> z)
                    [set_Modified ts trans] Hw4) as (c2 & Hall & _);
          [lia|lia|exact Hz'| |]
    end.
    + rewrite Htl. simpl. constructor; [|constructor].
      exists m. split; [apply updateBatch_blob|done].
    + eexists _, c2. by split.
Qed.

End Newest.

(** ** The client entry points that relay a function of the package *)

Section ClientRelays.
Context {keys : KeySpace} {uuid : Uuid} {persistence : Persistence}
  {backend : Backend}.

(** An error built with [errors.Kind] of the error it wraps has that
    error's kind, also when that kind is [KindUnknown]. *)
Lemma Kind_rewrapped e msg :
  Kind (NewCommonEdgeX (Kind e) msg (Some e)) = Kind e.
Proof. simpl. by destruct (Kind e). Qed.

Ltac relayed :=
  first [ reflexivity
        | eexists; split;
          [ reflexivity
          | first [apply Kind_Wrapper | apply Kind_rewrapped | reflexivity] ] ].

Ltac relay lower :=
  destruct lower as [conn [v [e|]]]; cbn;
  (split; [reflexivity|]); try (split; [reflexivity|]); relayed.

Ltac relay_error lower :=
  destruct lower as [conn [e|]]; cbn;
  (split; [reflexivity|]); relayed.

(** X14. The entry points that delete or update relay the function of
    the package they call: the connection comes back as that function
    left it, and there is an error exactly when that function gave one,
    of the same kind. *)
Theorem Client_relays_writes c id name dp :
  relays_error c (DeleteEventById c id) (deleteEventById (Pool c) id)
  ∧ relays_error c (UpdateDeviceProfile c dp)
      (updateDeviceProfile (Pool c) dp)
  ∧ relays_error c (DeleteDeviceServiceById c id)
      (deleteDeviceServiceById (Pool c) id)
  ∧ relays_error c (DeleteDeviceServiceByName c name)
      (deleteDeviceServiceByName (Pool c) name)
  ∧ relays_error c (DeleteDeviceProfileById c id)
      (deleteDeviceProfileById (Pool c) id)
  ∧ relays_error c (DeleteDeviceProfileByName c name)
      (deleteDeviceProfileByName (Pool c) name)
  ∧ relays_error c (UpdateEventPushedById c id)
      (updateEventPushedById (Pool c) id)
  ∧ relays_error c (DeleteDeviceById c id) (deleteDeviceById (Pool c) id)
  ∧ relays_error c (DeleteDeviceByName c name)
      (deleteDeviceByName (Pool c) name).
Proof.
  repeat match goal with |- _ ∧ _ => split end;
  unfold relays_error, DeleteEventById, UpdateDeviceProfile,
    DeleteDeviceServiceById, DeleteDeviceServiceByName,
    DeleteDeviceProfileById, DeleteDeviceProfileByName,
    UpdateEventPushedById, DeleteDeviceById, DeleteDeviceByName.
  - relay_error (deleteEventById (Pool c) id).
  - relay_error (updateDeviceProfile (Pool c) dp).
  - relay_error (deleteDeviceServiceById (Pool c) id).
  - relay_error (deleteDeviceServiceByName (Pool c) name).
  - relay_error (deleteDeviceProfileById (Pool c) id).
  - relay_error (deleteDeviceProfileByName (Pool c) name).
  - relay_error (updateEventPushedById (Pool c) id).
  - relay_error (deleteDeviceById (Pool c) id).
  - relay_error (deleteDeviceByName (Pool c) name).
Qed.

(** X15. The counting entry points answer the count of
    [getMemberNumber] on the collection they name when it succeeds, and
    the count 0 with an error of the same kind when it fails. *)
Theorem Client_relays_counts c deviceName :
  relays_count c (EventTotalCount c)
    (getMemberNumber (Pool c) ZCARD EventsCollection)
  ∧ relays_count c (EventCountByDevice c deviceName)
      (getMemberNumber (Pool c) ZCARD
         (CreateKey EventsCollectionDeviceName deviceName))
  ∧ relays_count c (ReadingTotalCount c)
      (getMemberNumber (Pool c) ZCARD ReadingsCollection).
Proof.
  repeat match goal with |- _ ∧ _ => split end;
  unfold relays_count, EventTotalCount, EventCountByDevice,
    ReadingTotalCount.
  - relay (getMemberNumber (Pool c) ZCARD EventsCollection).
  - relay (getMemberNumber (Pool c) ZCARD
             (CreateKey EventsCollectionDeviceName deviceName)).
  - relay (getMemberNumber (Pool c) ZCARD ReadingsCollection).
Qed.

(** X16. The entry points that look one object up, or test that one
    exists, relay the function of the package they call: same value,
    an error exactly when that function gave one, of the same kind. *)
Theorem Client_relays_lookups c id name :
  relays c (EventById c id) (eventById (Pool c) id)
  ∧ relays c (DeviceProfileNameExists c name)
      (deviceProfileNameExists (Pool c) name)
  ∧ relays c (DeviceServiceByName c name) (deviceServiceByName (Pool c) name)
  ∧ relays c (DeviceServiceById c id) (deviceServiceById (Pool c) id)
  ∧ relays c (DeviceServiceNameExists c name)
      (deviceServiceNameExist (Pool c) name)
  ∧ relays c (DeviceProfileByName c name) (deviceProfileByName (Pool c) name)
  ∧ relays c (DeviceIdExists c id) (deviceIdExists (Pool c) id)
  ∧ relays c (DeviceNameExists c name) (deviceNameExists (Pool c) name)
  ∧ relays c (DeviceById c id) (deviceById (Pool c) id)
  ∧ relays c (DeviceByName c name) (deviceByName (Pool c) name).
Proof.
  repeat match goal with |- _ ∧ _ => split end;
  unfold relays, EventById, DeviceProfileNameExists, DeviceServiceByName,
    DeviceServiceById, DeviceServiceNameExists, DeviceProfileByName,
    DeviceIdExists, DeviceNameExists, DeviceById, DeviceByName.
  - relay (eventById (Pool c) id).
  - relay (deviceProfileNameExists (Pool c) name).
  - relay (deviceServiceByName (Pool c) name).
  - relay (deviceServiceById (Pool c) id).
  - relay (deviceServiceNameExist (Pool c) name).
  - relay (deviceProfileByName (Pool c) name).
  - relay (deviceIdExists (Pool c) id).
  - relay (deviceNameExists (Pool c) name).
  - relay (deviceById (Pool c) id).
  - relay (deviceByName (Pool c) name).
Qed.

(** X17. The paginated entry points relay the function of the package
    they call with the same offset, limit and criterion: same list, an
    error exactly when that function gave one, of the same kind. *)
Theorem Client_relays_queries c offset limit labels name start end_ :
  relays c (AllDeviceProfiles c offset limit labels)
    (deviceProfilesByLabels (Pool c) offset limit labels)
  ∧ relays c (DeviceProfilesByModel c offset limit name)
      (deviceProfilesByModel (Pool c) offset limit name)
  ∧ relays c (DeviceProfilesByManufacturer c offset limit name)
      (deviceProfilesByManufacturer (Pool c) offset limit name)
  ∧ relays c (AllDeviceServices c offset limit labels)
      (deviceServicesByLabels (Pool c) offset limit labels)
  ∧ relays c (DevicesByServiceName c offset limit name)
      (devicesByServiceName (Pool c) offset limit name)
  ∧ relays c (AllEvents c offset limit) (allEvents (Pool c) offset limit)
  ∧ relays c (AllDevices c offset limit labels)
      (devicesByLabels (Pool c) offset limit labels)
  ∧ relays c (EventsByDeviceName c offset limit name)
      (eventsByDeviceName (Pool c) offset limit name)
  ∧ relays c (EventsByTimeRange c start end_ offset limit)
      (eventsByTimeRange (Pool c) start end_ offset limit).
Proof.
  repeat match goal with |- _ ∧ _ => split end;
  unfold relays, AllDeviceProfiles, DeviceProfilesByModel,
    DeviceProfilesByManufacturer, AllDeviceServices, DevicesByServiceName,
    AllEvents, AllDevices, EventsByDeviceName, EventsByTimeRange.
  - relay (deviceProfilesByLabels (Pool c) offset limit labels).
  - relay (deviceProfilesByModel (Pool c) offset limit name).
  - relay (deviceProfilesByManufacturer (Pool c) offset limit name).
  - relay (deviceServicesByLabels (Pool c) offset limit labels).
  - relay (devicesByServiceName (Pool c) offset limit name).
  - relay (allEvents (Pool c) offset limit).
  - relay (devicesByLabels (Pool c) offset limit labels).
  - relay (eventsByDeviceName (Pool c) offset limit name).
  - relay (eventsByTimeRange (Pool c) start end_ offset limit).
Qed.

End ClientRelays.

(** ** The [Add] entry points and the identifier *)

Section ClientAdds.
Context {uuid : Uuid} {persistence : Persistence}.

(** X18. [AddEvent] and [AddDeviceProfile] turn down an identifier that
    is not empty and that [uuid.Parse] refuses: the error is of kind
    [KindInvalidId], the entity returned is the zero value, and the
    client is as before, the persistence function not having been
    called. *)
Theorem Add_rejects_unparsable_id :
  (∀ c e err,
     EventId e ≠ EmptyString →
     uuid_Parse (EventId e) = Some err →
     ∃ er, AddEvent c e = (c, (Event_zero, Some er))
           ∧ Kind er = KindInvalidId)
  ∧ (∀ c dp err,
       DeviceProfileId dp ≠ EmptyString →
       uuid_Parse (DeviceProfileId dp) = Some err →
       ∃ er, AddDeviceProfile c dp = (c, (DeviceProfile_zero, Some er))
             ∧ Kind er = KindInvalidId).
Proof.
  split.
  - intros c e err. apply AddEvent_rejects_malformed.
  - intros c dp err. apply AddDeviceProfile_rejects_malformed.
Qed.

(** X19. [AddEvent] hands the persistence function the event as it was
    given, identifier included, when the identifier is empty or parses,
    and draws no identifier; so does [AddDeviceProfile] when the
    identifier is not empty and parses. The answer is the persistence
    function's. *)
Theorem Add_forwards_accepted_id :
  (∀ c e,
     EventId e = EmptyString ∨ uuid_Parse (EventId e) = None →
     AddEvent c e
     = (let '(conn, r) := addEvent (Pool c) e in
        (mkClient conn (draws c), r)))
  ∧ (∀ c dp,
       DeviceProfileId dp ≠ EmptyString →
       uuid_Parse (DeviceProfileId dp) = None →
       AddDeviceProfile c dp
       = (let '(conn, r) := addDeviceProfile (Pool c) dp in
          (mkClient conn (draws c), r))).
Proof.
  split.
  - intros c e Hid. unfold AddEvent.
    destruct (String.eqb_spec (EventId e) EmptyString) as [Heq|Hne]; simpl.
    + reflexivity.
    + destruct Hid as [Hid|Hid]; [done|]. by rewrite Hid.
  - intros c dp Hid Hparse. unfold AddDeviceProfile.
    by rewrite eqb_empty_false, Hparse.
Qed.

Lemma perform_assigns c a :
  draws (perform c a) = (draws c + if assigns_id a then 1 else 0)%nat.
Proof.
  destruct a as [e|dp|ds|d]; unfold perform; simpl.
  - unfold AddEvent.
    destruct (negb _); [destruct (uuid_Parse _)|];
      try destruct (addEvent _ _); simpl; lia.
  - unfold AddDeviceProfile.
    destruct (String.eqb_spec (DeviceProfileId dp) EmptyString); simpl;
      [|destruct (uuid_Parse _)];
      try destruct (addDeviceProfile _ _); simpl; lia.
  - unfold AddDeviceService. rewrite length_eqb_0.
    destruct (String.eqb _ _); destruct (addDeviceService _ _); simpl; lia.
  - unfold AddDevice. rewrite length_eqb_0.
    destruct (String.eqb _ _); destruct (addDevice _ _); simpl; lia.
Qed.

(** X20. Over any sequence of [Add] calls, whatever their outcomes, the
    client draws from [uuid.New()] once for each call of
    [AddDeviceProfile], [AddDeviceService] or [AddDevice] whose entity
    has an empty identifier, and at no other call: none for [AddEvent],
    none for an identifier that is turned down. *)
Theorem Add_draws_once_per_empty_id calls : ∀ c,
  draws (after c calls) = (draws c + length (filter assigns_id calls))%nat.
Proof.
  induction calls as [|a calls IH]; intros c; simpl.
  - unfold after. simpl. lia.
  - change (after c (a :: calls)) with (after (perform c a) calls).
    rewrite IH, perform_assigns, filter_cons.
    destruct (assigns_id a); simpl; lia.
Qed.

End ClientAdds.

(* ===================================================================== *)
(** * Part V. The further properties on sample data *)

Module FurtherExamples.
Import Samples FurtherSamples.

#[local] Existing Instance colon.
#[local] Existing Instance sampleCodec.
#[local] Existing Instance sampleUuid.
#[local] Existing Instance samplePersistence.



(** At time 5 the records to store are not in the table of the sample
    codec: they do not encode. *)
Lemma encode_failure_leaves_batch_buffered_witness :
  (∃ conn' e,
     addTransmission emptyConn t_new 5 = (conn', (stamp 5 t_new, Some e))
     ∧ Kind e = KindContractInvalid
     ∧ pending conn' = [MULTI]
     ∧ server conn' = server emptyConn
     ∧ log conn' = log emptyConn ++ [EXISTS (transmissionStoredKey (Id t_new))])
  ∧ (∃ conn' e,
       updateTransmission conn_one t_change 5 = (conn', Some e)
       ∧ Kind e = KindContractInvalid
       ∧ pending conn'
         = MULTI :: deleteTransmissionCmds
                      (transmissionStoredKey (Id t_change)) t_stored
       ∧ server conn' = server conn_one
       ∧ log conn'
         = log conn_one ++ [GET (transmissionStoredKey (Id t_change))]).
Proof.
  destruct encode_failure_leaves_batch_buffered as [Hadd Hupdate].
  split.
  - apply (Hadd emptyConn t_new 5 (errorString "json: unsupported value")).
    + split; reflexivity.
    + reflexivity.
    + reflexivity.
    + reflexivity.
  - apply (Hupdate conn_one t_change 5 [x00] t_stored
             (errorString "json: unsupported value")).
    + split; reflexivity.
    + reflexivity.
    + vm_compute. reflexivity.
    + reflexivity.
    + reflexivity.
Defined.

Lemma sample_keys_free (d : Store) (t : Transmission) :
  Forall (λ k, bool_decide (k ≠ "sn|trans:t1") && bool_decide (blob d k = None))
    [TransmissionCollection; TransmissionCollectionCreated; statusKey t;
     subscriptionKey t; notificationKey t] →
  index_keys_free d "sn|trans:t1" t.
Proof.
  unfold index_keys_free. intros H.
  eapply Forall_impl; [exact H|]. intros k Hk. simpl in Hk.
  apply andb_prop_elim in Hk as [H1 H2].
  by apply bool_decide_unpack in H1, H2.
Qed.

Lemma addTransmission_indexes_record_witness :
  ∃ conn',
    addTransmission emptyConn t_new 1000 = (conn', (stamp 1000 t_new, None))
    ∧ zscore (data (server conn')) TransmissionCollection
        (transmissionStoredKey (Id t_new)) = Some 1000
    ∧ zscore (data (server conn')) TransmissionCollectionCreated
        (transmissionStoredKey (Id t_new))
      = Some (if Created t_new =? 0 then 1000 else Created t_new)
    ∧ zscore (data (server conn')) (statusKey t_new)
        (transmissionStoredKey (Id t_new)) = Some 1000
    ∧ zscore (data (server conn')) (subscriptionKey t_new)
        (transmissionStoredKey (Id t_new)) = Some 1000
    ∧ zscore (data (server conn')) (notificationKey t_new)
        (transmissionStoredKey (Id t_new)) = Some 1000.
Proof.
  apply (addTransmission_indexes_record emptyConn t_new 1000 [x00]).
  - split; reflexivity.
  - reflexivity.
  - reflexivity.
  - reflexivity.
  - apply sample_keys_free. vm_compute. repeat constructor.
  - unfold float64_exact. lia.
  - unfold float64_exact. simpl. lia.
Defined.

Lemma updateTransmission_indexes_record_witness :
  ∃ conn',
    updateTransmission conn_one t_change 2000 = (conn', None)
    ∧ zscore (data (server conn')) TransmissionCollection
        (transmissionStoredKey (Id t_change)) = Some 2000
    ∧ zscore (data (server conn')) TransmissionCollectionCreated
        (transmissionStoredKey (Id t_change)) = Some (Created t_change)
    ∧ zscore (data (server conn')) (statusKey t_change)
        (transmissionStoredKey (Id t_change)) = Some 2000
    ∧ zscore (data (server conn')) (subscriptionKey t_change)
        (transmissionStoredKey (Id t_change)) = Some 2000
    ∧ zscore (data (server conn')) (notificationKey t_change)
        (transmissionStoredKey (Id t_change)) = Some 2000.
Proof.
  apply (updateTransmission_indexes_record conn_one t_change 2000
           [x00] t_stored [x01]).
  - split; reflexivity.
  - reflexivity.
  - vm_compute. reflexivity.
  - reflexivity.
  - reflexivity.
  - apply sample_keys_free. vm_compute. repeat constructor.
  - unfold float64_exact. lia.
  - unfold float64_exact. simpl. lia.
Defined.

(** Adding [t_new] beside [t_other], and updating the first of two
    transmissions, leaves the blob and the index entry of the other. *)
Lemma write_leaves_other_objects_witness :
  let conn' := (addTransmission (codec := lateCodec) conn_t2 t_new 2000).1 in
  let conn'' := (updateTransmission conn_two t_change 2000).1 in
  (blob (data (server conn')) "sn|trans:t2"
   = blob (data (server conn_t2)) "sn|trans:t2"
   ∧ zscore (data (server conn')) "sn|trans" "sn|trans:t2"
     = zscore (data (server conn_t2)) "sn|trans" "sn|trans:t2")
  ∧ (blob (data (server conn'')) "sn|trans:t2"
     = blob (data (server conn_two)) "sn|trans:t2"
     ∧ zscore (data (server conn'')) "sn|trans" "sn|trans:t2"
       = zscore (data (server conn_two)) "sn|trans" "sn|trans:t2").
Proof.
  intros conn' conn''.
  destruct (write_leaves_other_objects (keys := colon) (codec := lateCodec))
    as [Hadd _].
  destruct (write_leaves_other_objects (keys := colon) (codec := sampleCodec))
    as [_ Hupdate].
  assert (Hidle2 : idle conn_t2) by (split; reflexivity).
  assert (Hidle : idle conn_two) by (split; reflexivity).
  split; split.
  - apply (Hadd conn_t2 t_new 2000 conn'
             (addTransmission (codec := lateCodec) conn_t2 t_new 2000).2
             "sn|trans:t2" "sn|trans:t2" Hidle2);
      [apply surjective_pairing | compute; discriminate].
  - apply (Hadd conn_t2 t_new 2000 conn'
             (addTransmission (codec := lateCodec) conn_t2 t_new 2000).2
             "sn|trans" "sn|trans:t2" Hidle2);
      [apply surjective_pairing | compute; discriminate..].
  - apply (Hupdate conn_two t_change 2000 conn''
             (updateTransmission conn_two t_change 2000).2
             "sn|trans:t2" "sn|trans:t2" Hidle);
      [apply surjective_pairing | compute; discriminate].
  - apply (Hupdate conn_two t_change 2000 conn''
             (updateTransmission conn_two t_change 2000).2
             "sn|trans" "sn|trans:t2" Hidle);
      [apply surjective_pairing | compute; discriminate..].
Defined.

(** The commands that add [t_stored] beside [t_other], then those that
    delete it. *)
Lemma delete_undoes_add_witness :
  let d' :=
    run (addTransmissionCmds "sn|trans:t1" [x00] t_stored
           ++ deleteTransmissionCmds "sn|trans:t1" t_stored) t2_data in
  blob d' "sn|trans" = blob t2_data "sn|trans"
  ∧ zscore d' "sn|trans" "sn|trans:t2"
    = zscore t2_data "sn|trans" "sn|trans:t2".
Proof.
  apply (delete_undoes_add "sn|trans:t1" [x00] t_stored t2_data
           "sn|trans" "sn|trans:t2").
  - reflexivity.
  - intros k'. unfold zscore, t2_data.
    destruct (decide (k' = "sn|trans:t2")) as [->|Hne1]; [reflexivity|].
    rewrite lookup_insert_ne by done.
    destruct (decide (k' = "sn|trans")) as [->|Hne2]; [reflexivity|].
    by rewrite lookup_singleton_ne.
Defined.

Lemma addTransmission_then_transmissionById_witness :
  ∃ conn' conn'',
    addTransmission emptyConn t_new 1000 = (conn', (stamp 1000 t_new, None))
    ∧ transmissionById conn' (Id t_new) = (conn'', (stamp 1000 t_new, None))
    ∧ data (server conn'') = data (server conn').
Proof.
  apply (addTransmission_then_transmissionById emptyConn t_new 1000 [x00]).
  - split; reflexivity.
  - reflexivity.
  - reflexivity.
  - reflexivity.
  - reflexivity.
Defined.

(** [t_change] has the id of [t_new]. *)
Lemma addTransmission_twice_witness :
  ∃ conn' conn'' e,
    addTransmission emptyConn t_new 1000 = (conn', (stamp 1000 t_new, None))
    ∧ addTransmission conn' t_change 2000 = (conn'', (t_change, Some e))
    ∧ Kind e = KindDuplicateName
    ∧ data (server conn'') = data (server conn').
Proof.
  apply (addTransmission_twice emptyConn t_new t_change 1000 2000 [x00]).
  - split; reflexivity.
  - reflexivity.
  - reflexivity.
  - reflexivity.
  - reflexivity.
Defined.

(** In [late_corrupt_data] the malformed blob is listed second in both
    indexes: the first record is decoded, the second slot is the zero
    value. *)
Lemma paginated_query_partial_result_witness :
  (∃ e,
     allTransmissions conn_late_corrupt 0 10
     = ((getObjectsByRevRange conn_late_corrupt TransmissionCollection
           0 10).1,
        ([t_stored] ++ replicate 1 Transmission_zero, Some e))
     ∧ Kind e = KindDatabaseError)
  ∧ (∃ e,
       transmissionsByTimeRange conn_late_corrupt 0 1000 0 10
       = ((getObjectsByScoreRange conn_late_corrupt
             TransmissionCollectionCreated 0 1000 0 10).1,
          ([t_stored] ++ replicate 1 Transmission_zero, Some e))
       ∧ Kind e = KindDatabaseError).
Proof.
  destruct paginated_query_partial_result as [Hall Hrange].
  split.
  - apply (Hall conn_late_corrupt 0 10 _ [[x00]] [xff; xff] [] [t_stored]
             (errorString "invalid character")).
    + vm_compute. reflexivity.
    + repeat constructor.
    + reflexivity.
  - apply (Hrange conn_late_corrupt 0 1000 0 10 _ [[x00]] [xff; xff] []
             [t_stored] (errorString "invalid character")).
    + vm_compute. reflexivity.
    + repeat constructor.
    + reflexivity.
Defined.

(** Both transmissions of [range_data] were created in [[0, 1000]], the
    upper bound included; the older one comes first. *)
Lemma transmissionsByTimeRange_page_witness :
  let z : gmap string Z :=
    <[ "sn|trans:t1" := 1000 ]> {[ "sn|trans:t2" := 500 ]} in
  let inrange := filter (λ e, 0 ≤ e.2 ∧ e.2 ≤ 1000) (zrange_all z) in
  let window := take (Z.to_nat 10) (drop (Z.to_nat 0) inrange) in
  window = [("sn|trans:t2", 500); ("sn|trans:t1", 1000)]
  ∧ ∃ conn' transmissions,
    transmissionsByTimeRange conn_range 0 1000 0 10
    = (conn', (transmissions, None))
    ∧ Forall2 (λ e t, ∃ b, blob (data (server conn_range)) e.1 = Some b
                           ∧ Unmarshal b = Ok t) window transmissions
    ∧ (∀ e, e ∈ inrange ↔ z !! e.1 = Some e.2 ∧ 0 ≤ e.2 ∧ e.2 ≤ 1000)
    ∧ StronglySorted (λ a b, a.2 ≤ b.2) window
    ∧ (length window ≤ Z.to_nat 10)%nat
    ∧ data (server conn') = data (server conn_range).
Proof.
  intros z inrange window.
  split; [vm_compute; reflexivity|].
  apply (transmissionsByTimeRange_page conn_range 0 1000 0 10 z).
  - split; reflexivity.
  - reflexivity.
  - lia.
  - lia.
  - vm_compute. reflexivity.
  - change (Forall (λ e, ∃ t b, blob (data (server conn_range)) e.1 = Some b
                                ∧ Unmarshal b = Ok t) window).
    replace window with [("sn|trans:t2", 500); ("sn|trans:t1", 1000)]
      by (vm_compute; reflexivity).
    repeat constructor.
    + exists t_other, [x02]. split; reflexivity.
    + exists t_stored, [x00]. split; reflexivity.
Defined.

(** The two pages of one of [two_data] make the page of two. *)
Lemma allTransmissions_pages_concatenate_witness :
  ∃ conn1 conn2 conn3 first rest,
    allTransmissions conn_two 0 1 = (conn1, (first, None))
    ∧ allTransmissions conn_two 1 (2 - 1) = (conn2, (rest, None))
    ∧ allTransmissions conn_two 0 2 = (conn3, (first ++ rest, None)).
Proof.
  apply (allTransmissions_pages_concatenate conn_two 1 2
           (<[ "sn|trans:t1" := 1000 ]> {[ "sn|trans:t2" := 1500 ]})).
  - split; reflexivity.
  - reflexivity.
  - lia.
  - lia.
  - vm_compute. reflexivity.
  - replace (take _ _) with [("sn|trans:t2", 1500); ("sn|trans:t1", 1000)]
      by (vm_compute; reflexivity).
    repeat constructor.
    + exists t_other, [x02]. split; reflexivity.
    + exists t_stored, [x00]. split; reflexivity.
Defined.

(** [t_new] added at time 2000 beside [t_other], modified at 1500, and
    the transmission of [conn_one] updated at time 2000. *)
Lemma written_transmission_comes_first_witness :
  (∃ conn' conn'',
     addTransmission (codec := lateCodec) conn_t2 t_new 2000
     = (conn', (t_late, None))
     ∧ allTransmissions (codec := lateCodec) conn' 0 1
       = (conn'', ([t_late], None)))
  ∧ (∃ conn' conn'',
       updateTransmission conn_one t_change 2000 = (conn', None)
       ∧ allTransmissions conn' 0 1 = (conn'', ([t_updated], None))).
Proof.
  destruct (written_transmission_comes_first (keys := colon)
              (codec := lateCodec)) as [Hadd _].
  destruct (written_transmission_comes_first (keys := colon)
              (codec := sampleCodec)) as [_ Hupdate].
  split.
  - apply (Hadd conn_t2 t_new 2000 [x03] {[ "sn|trans:t2" := 1500 ]}).
    + split; reflexivity.
    + reflexivity.
    + reflexivity.
    + reflexivity.
    + reflexivity.
    + compute. discriminate.
    + vm_compute. reflexivity.
    + intros m' s' _ Hz.
      apply lookup_singleton_Some in Hz as [_ <-]. lia.
  - apply (Hupdate conn_one t_change 2000 [x00] t_stored [x01]
             {[ "sn|trans:t1" := 1000 ]}).
    + split; reflexivity.
    + reflexivity.
    + vm_compute. reflexivity.
    + reflexivity.
    + reflexivity.
    + reflexivity.
    + compute. discriminate.
    + vm_compute. reflexivity.
    + intros m' s' Hne Hz.
      apply lookup_singleton_Some in Hz as [<- _]. by destruct Hne.
Defined.

(** An identifier that does not parse, for [AddEvent] and
    [AddDeviceProfile]. *)
Lemma Add_rejects_unparsable_id_witness :
  (∃ er, AddEvent sampleClient (mkEvent "not-a-uuid" "body")
         = (sampleClient, (Event_zero, Some er))
         ∧ Kind er = KindInvalidId)
  ∧ (∃ er, AddDeviceProfile sampleClient (mkDeviceProfile "42" "body")
           = (sampleClient, (DeviceProfile_zero, Some er))
           ∧ Kind er = KindInvalidId).
Proof.
  destruct (Add_rejects_unparsable_id (uuid := sampleUuid)
              (persistence := samplePersistence)) as [Hevent Hprofile].
  split.
  - apply (Hevent sampleClient (mkEvent "not-a-uuid" "body")
             (errorString "invalid UUID format")).
    + discriminate.
    + reflexivity.
  - apply (Hprofile sampleClient (mkDeviceProfile "42" "body")
             (errorString "invalid UUID format")).
    + discriminate.
    + reflexivity.
Defined.

(** An event without identifier, an event and a profile with a
    well-formed one. *)
Lemma Add_forwards_accepted_id_witness :
  AddEvent sampleClient (mkEvent EmptyString "body")
  = (mkClient (put "cd|evt:" EmptyString "body" emptyConn) 0,
     (mkEvent EmptyString "body", None))
  ∧ AddEvent sampleClient (mkEvent sample_id "body")
    = (mkClient (put "cd|evt:" sample_id "body" emptyConn) 0,
       (mkEvent sample_id "body", None))
  ∧ AddDeviceProfile sampleClient (mkDeviceProfile sample_id "body")
    = (mkClient (put "md|dp:" sample_id "body" emptyConn) 0,
       (mkDeviceProfile sample_id "body", None)).
Proof.
  destruct (Add_forwards_accepted_id (uuid := sampleUuid)
              (persistence := samplePersistence)) as [Hevent Hprofile].
  split; [|split].
  - rewrite (Hevent sampleClient (mkEvent EmptyString "body"))
      by (left; reflexivity).
    reflexivity.
  - rewrite (Hevent sampleClient (mkEvent sample_id "body"))
      by (right; reflexivity).
    reflexivity.
  - rewrite (Hprofile sampleClient (mkDeviceProfile sample_id "body"))
      by (discriminate || reflexivity).
    reflexivity.
Defined.

(** Of five calls, two have an entity without identifier that is not an
    event: two identifiers are drawn. *)
Example Add_draws_twice :
  draws (after sampleClient
           [CallAddEvent (mkEvent EmptyString "e");
            CallAddDevice (mkDevice EmptyString "d");
            CallAddDeviceProfile (mkDeviceProfile "42" "p");
            CallAddDeviceService (mkDeviceService "any" "s");
            CallAddDeviceProfile (mkDeviceProfile EmptyString "p")])
  = 2%nat.
Proof. vm_compute. reflexivity. Qed.

End FurtherExamples.
